(** * Reddit-Realtime-Analytics: the analytics engine of [analytics.py]

    A shallow embedding of [RedditAnalytics] (file [analytics.py]) together
    with the part of [hbase_manager.py] that fixes the shape of the rows it
    reads, and the properties of the engine stated in the specification.
    The second half of the definitions embeds the store itself
    ([HBaseManager] over a model of happybase tables), [to_dataframe], the
    functions and forms of the admin page ([pages/hbase_manager.py]) and
    [fetch_and_store_data] and [perform_analysis] of
    [run_analysis_streamlit.py], with the properties that link the writers
    to the frames the analytics read.

    Modelling conventions.

    - [HBaseManager.store_post] and [HBaseManager.store_comment] write every
      column on every [put]: a value the fetcher does not supply is stored as
      the empty string (author, parent_id) or as ["0"] (score, num_comments).
      The frames rebuilt by [to_dataframe] therefore hold a string in every
      cell that the analytics read; a row is a record of strings, a frame is
      the list of its rows in scan order, [df.empty] is [[]], and [dropna()]
      and the [in df.columns] tests are the identity on such frames.
    - Python floats are idealised as exact rationals ([Q]); rounding is not
      modelled.  Equalities between scores are therefore stated with [==].
    - A Python [dict] whose iteration order is observed (the [influence]
      table, the result of [value_counts]) is an association list in
      insertion order.
    - Exceptions are explicit: a function that can raise returns a [result].
    - Third-party routines whose numerical content is not part of this
      repository (the [float] parser, TextBlob's polarity, scikit-learn's
      analyzer and LDA solver, networkx's betweenness values) are the fields
      of the class [Externals]; what the libraries document about the shape
      and the error behaviour of their results is written out below. *)

From Stdlib Require Import List String Ascii Bool Arith ZArith QArith.
From Stdlib Require Import Lia Permutation Sorted DecimalString.
Import ListNotations.

Local Open Scope string_scope.
Local Open Scope list_scope.

(* ================================================================== *)
(** * Python values and control                                        *)
(* ================================================================== *)

(** The one exception class these functions can raise on stored rows:
    [float("n/a")], and scikit-learn's parameter and vocabulary checks, all
    raise [ValueError] (or a subclass of it). *)
Inductive exception : Set := ValueError.

Inductive result (A : Type) : Type :=
| Ok (a : A)
| Raise (e : exception).
Arguments Ok {A} a.
Arguments Raise {A} e.

Definition bind {A B : Type} (r : result A) (k : A -> result B) : result B :=
  match r with
  | Ok a => k a
  | Raise e => Raise e
  end.

Notation "x <- r ;; k" := (bind r (fun x => k))
  (at level 61, r at next level, right associativity).

(** [for x in l: s = body(s, x)], stopping at the first exception. *)
Fixpoint for_each {A S : Type} (body : S -> A -> result S) (l : list A) (s : S)
  : result S :=
  match l with
  | [] => Ok s
  | x :: rest => s' <- body s x ;; for_each body rest s'
  end.

(** A Python number: the results below mix [int] literals and floats. *)
Inductive number : Set :=
| Int (z : Z)
| Float (q : Q).

(** Truthiness of a [str]: only the empty string is falsy. *)
Definition truthy (s : string) : bool :=
  match s with
  | EmptyString => false
  | String _ _ => true
  end.

(** [s[n:]]. *)
Fixpoint string_drop (n : nat) (s : string) : string :=
  match n, s with
  | O, _ => s
  | S n', EmptyString => EmptyString
  | S n', String _ s' => string_drop n' s'
  end.

(** [s.startswith(p)]. *)
Definition startswith (s p : string) : bool := String.prefix p s.

(** [sep.join(l)]. *)
Definition join (sep : string) (l : list string) : string := String.concat sep l.

(** [str(n)] for a non-negative [int]. *)
Definition str_of_nat (n : nat) : string := NilZero.string_of_uint (Nat.to_uint n).

(** ** Insertion-ordered dictionaries *)

Definition dict (V : Type) : Type := list (string * V).

(** [d.get(k, default)]. *)
Fixpoint dict_get {V : Type} (d : dict V) (k : string) (default : V) : V :=
  match d with
  | [] => default
  | (k', v) :: rest => if String.eqb k k' then v else dict_get rest k default
  end.

(** [d[k] = v]: an existing key keeps its position, a new key goes last. *)
Fixpoint dict_set {V : Type} (d : dict V) (k : string) (v : V) : dict V :=
  match d with
  | [] => [(k, v)]
  | (k', v') :: rest =>
      if String.eqb k k' then (k', v) :: rest else (k', v') :: dict_set rest k v
  end.

Definition keys {V : Type} (d : dict V) : list string := map fst d.

(** ** Stable sorting

    [stable_sort before l] orders [l] so that [x] comes no later than [y]
    whenever [before x y]; elements that are equivalent for [before] keep
    their input order.  With [before x y := key x >= key y] this is
    [sorted(l, key=key, reverse=True)], with [key x <= key y] it is
    [sorted(l, key=key)]. *)
Fixpoint insert_sorted {A : Type} (before : A -> A -> bool) (x : A) (l : list A)
  : list A :=
  match l with
  | [] => [x]
  | y :: rest =>
      if before x y then x :: y :: rest else y :: insert_sorted before x rest
  end.

Definition stable_sort {A : Type} (before : A -> A -> bool) (l : list A) : list A :=
  fold_right (insert_sorted before) [] l.

(** [sorted(items, key=lambda x: x[1], reverse=True)] on float values. *)
Definition score_ge {K : Type} (x y : K * Q) : bool := Qle_bool (snd y) (snd x).

Definition sorted_by_score_reverse {K : Type} (items : list (K * Q)) : list (K * Q) :=
  stable_sort score_ge items.

(* ================================================================== *)
(** * The stored rows ([hbase_manager.py])                             *)
(* ================================================================== *)

(** The columns of a [reddit_posts] row that the analytics read. *)
Record Post : Set := mkPost {
  post_id : string;            (* post_data:id *)
  post_title : string;         (* post_data:title *)
  post_subreddit : string;     (* post_data:subreddit *)
  post_author : string;        (* post_data:author, '' when unknown *)
  post_score : string;         (* metrics:score, str(int) *)
  post_num_comments : string   (* metrics:num_comments, str(int) *)
}.

(** The columns of a [reddit_comments] row that the analytics read. *)
Record Comment : Set := mkComment {
  comment_id : string;         (* comment_data:id *)
  comment_text : string;       (* comment_data:text *)
  comment_author : string;     (* comment_data:author, '' when unknown *)
  comment_parent_id : string;  (* comment_data:parent_id, '' when unknown *)
  comment_score : string       (* metrics:score, str(int) *)
}.

(** [df.empty]. *)
Definition empty {A : Type} (df : list A) : bool :=
  match df with
  | [] => true
  | _ :: _ => false
  end.

(* ================================================================== *)
(** * networkx: directed graphs                                        *)
(* ================================================================== *)

(** [nx.DiGraph]: nodes in insertion order, at most one edge per ordered
    pair of nodes. *)
Record DiGraph : Set := mkDiGraph {
  nodes : list string;
  edges : list (string * string)
}.

Definition empty_graph : DiGraph := mkDiGraph [] [].

Definition mem (x : string) (l : list string) : bool := existsb (String.eqb x) l.

Definition edge_eqb (e f : string * string) : bool :=
  String.eqb (fst e) (fst f) && String.eqb (snd e) (snd f).

Definition has_edge (G : DiGraph) (u v : string) : bool :=
  existsb (edge_eqb (u, v)) (edges G).

Definition add_node (l : list string) (v : string) : list string :=
  if mem v l then l else l ++ [v].

(** [G.add_edge(u, v)]: both end points become nodes, [u] first. *)
Definition add_edge (G : DiGraph) (u v : string) : DiGraph :=
  mkDiGraph (add_node (add_node (nodes G) u) v)
            (if has_edge G u v then edges G else edges G ++ [(u, v)]).

(** A document-term matrix: [shape] is [(documents, features)], [cells]
    holds one row of counts per document. *)
Record Matrix : Set := mkMatrix {
  shape : nat * nat;
  cells : list (list nat)
}.

(* ================================================================== *)
(** * Third-party numerical routines                                   *)
(* ================================================================== *)

Class Externals : Type := {
  (** [float(s)] on a string; [None] when Python raises [ValueError]. *)
  py_float : string -> option Q;
  (** [TextBlob(s).sentiment.polarity]. *)
  polarity : string -> Q;
  (** The analyzer of [CountVectorizer(stop_words='english')]: lower-casing,
      tokenisation and stop-word removal of one document. *)
  analyze : string -> list string;
  (** The state of a numpy random generator, and [RandomState(seed)]. *)
  RandomState : Type;
  seeded : Z -> RandomState;
  (** [lda.components_[k][j]] after [fit(X)] with that generator and that
      number of components. *)
  lda_weight : RandomState -> nat -> Matrix -> nat -> nat -> Q;
  (** The value [nx.betweenness_centrality(G)] holds for a node of [G]. *)
  betweenness : DiGraph -> string -> Q
}.

(** [nx.betweenness_centrality(G)]: a dict with one entry per node of [G],
    in node order. *)
Definition betweenness_centrality `{Externals} (G : DiGraph) : dict Q :=
  map (fun v => (v, betweenness G v)) (nodes G).

(* ================================================================== *)
(** * pandas: the Series operations used                               *)
(* ================================================================== *)

(** One more occurrence of [v] in a table of counts kept in first-seen
    order. *)
Fixpoint bump (v : string) (counts : list (string * nat)) : list (string * nat) :=
  match counts with
  | [] => [(v, 1%nat)]
  | (v', n) :: rest =>
      if String.eqb v v' then (v', S n) :: rest else (v', n) :: bump v rest
  end.

Definition tally (column : list string) : list (string * nat) :=
  fold_left (fun counts v => bump v counts) column [].

Definition count_ge (x y : string * nat) : bool := Nat.leb (snd y) (snd x).

(** [Series.value_counts()]: one entry per distinct value with its number of
    occurrences, most frequent first.  pandas leaves the order of equally
    frequent values unspecified; here they stay in first-seen order. *)
Definition value_counts (column : list string) : list (string * nat) :=
  stable_sort count_ge (tally column).

(** [Series.head(limit)] and [l[:limit]] for a count [limit]. *)
Definition head {A : Type} (limit : nat) (l : list A) : list A := firstn limit l.

(** [Series.astype(float)]: converts every cell, raises on the first cell
    that [float] rejects. *)
Fixpoint astype_float `{Externals} (column : list string) : result (list Q) :=
  match column with
  | [] => Ok []
  | s :: rest =>
      match py_float s with
      | None => Raise ValueError
      | Some q => qs <- astype_float rest ;; Ok (q :: qs)
      end
  end.

Definition Qsum (l : list Q) : Q := fold_right Qplus 0%Q l.

(** [Series.mean()] of a non-empty float column. *)
Definition mean (l : list Q) : Q := (Qsum l / inject_Z (Z.of_nat (List.length l)))%Q.

(* ================================================================== *)
(** * scikit-learn: vectoriser and topic model                         *)
(* ================================================================== *)

(** The distinct elements of a list, in first-seen order. *)
Fixpoint distinct (l : list string) : list string :=
  match l with
  | [] => []
  | x :: rest => x :: filter (fun y => negb (String.eqb x y)) (distinct rest)
  end.

Definition count (t : string) (doc : list string) : nat :=
  List.length (filter (String.eqb t) doc).

(** In how many documents the term occurs. *)
Definition document_frequency (docs : list (list string)) (t : string) : nat :=
  List.length (filter (mem t) docs).

Definition max_df : Q := 95 # 100.
Definition min_df : nat := 2.

Definition Qlt_bool (x y : Q) : bool := negb (Qle_bool y x).

Definition of_nat (n : nat) : Q := inject_Z (Z.of_nat n).

(** The terms that survive the document-frequency cut-offs: those that occur
    in at least [min_df] documents and in at most [max_df * n_doc]. *)
Definition limit_features (docs : list (list string)) (vocabulary : list string)
  : list string :=
  let max_doc_count := (max_df * of_nat (List.length docs))%Q in
  filter (fun t =>
            Qle_bool (of_nat (document_frequency docs t)) max_doc_count
            && Nat.leb min_df (document_frequency docs t))
         vocabulary.

(** [CountVectorizer(stop_words='english', max_df=0.95, min_df=2)
      .fit_transform(raw_documents)], returned with the feature names of
    [get_feature_names_out()].  It raises [ValueError] when no term is found
    ("empty vocabulary"), when [max_df * n_doc < min_df] ("max_df corresponds
    to < documents than min_df") and when the cut-offs leave no term ("After
    pruning, no terms remain"). *)
Definition fit_transform `{Externals} (raw_documents : list string)
  : result (list string * Matrix) :=
  let docs := map analyze raw_documents in
  let vocabulary := distinct (List.concat docs) in
  if empty vocabulary then Raise ValueError else
  let n_doc := List.length docs in
  if Qlt_bool (max_df * of_nat n_doc)%Q (of_nat min_df) then Raise ValueError else
  let kept := limit_features docs vocabulary in
  if empty kept then Raise ValueError else
  let feature_names := stable_sort String.leb kept in
  Ok (feature_names,
      mkMatrix (n_doc, List.length feature_names)
               (map (fun doc => map (fun t => count t doc) feature_names) docs)).

Record LatentDirichletAllocation : Set := mkLDA {
  n_components : nat;
  random_state : option Z
}.

(** [sklearn.utils.check_random_state]: a seed gives a generator of its own,
    [None] gives numpy's global generator, whose state differs from run to
    run. *)
Definition check_random_state `{Externals} (seed : option Z) (global : RandomState)
  : RandomState :=
  match seed with
  | Some n => seeded n
  | None => global
  end.

(** [lda.fit(X); lda.components_]: an array of shape
    [(n_components, n_features)]; [n_components] must be at least 1. *)
Definition lda_fit `{Externals} (global : RandomState)
  (lda : LatentDirichletAllocation) (X : Matrix) : result (list (list Q)) :=
  if Nat.eqb (n_components lda) 0 then Raise ValueError else
  let rng := check_random_state (random_state lda) global in
  Ok (map (fun k => map (fun j => lda_weight rng (n_components lda) X k j)
                        (seq 0 (snd (shape X))))
          (seq 0 (n_components lda))).

Definition weight_le (x y : nat * Q) : bool := Qle_bool (snd x) (snd y).

(** [a.argsort()]: the indices of [a] by increasing value.  numpy leaves the
    order of equal values unspecified; here they stay in index order. *)
Definition argsort (a : list Q) : list nat :=
  map fst (stable_sort weight_le (combine (seq 0 (List.length a)) a)).

(** [list(enumerate(l))]. *)
Definition enumerate {A : Type} (l : list A) : list (nat * A) :=
  combine (seq 0 (List.length l)) l.

(* ================================================================== *)
(** * [class RedditAnalytics]                                          *)
(* ================================================================== *)

(** [get_top_subreddits] *)
Definition get_top_subreddits (posts : list Post) (limit : nat)
  : list (string * nat) :=
  if empty posts then []
  else head limit (value_counts (map post_subreddit posts)).

(** [get_top_authors] *)
Definition get_top_authors (posts : list Post) (limit : nat)
  : list (string * nat) :=
  if empty posts then []
  else head limit (value_counts (map post_author posts)).

Record Engagement : Set := mkEngagement {
  avg_score : number;
  avg_comments : number
}.

(** [get_engagement_metrics] *)
Definition get_engagement_metrics `{Externals} (posts : list Post)
  : result Engagement :=
  if empty posts then Ok (mkEngagement (Int 0) (Int 0))
  else
    scores <- astype_float (map post_score posts) ;;
    comments <- astype_float (map post_num_comments posts) ;;
    Ok (mkEngagement (Float (mean scores)) (Float (mean comments))).

Record Sentiment : Set := mkSentiment {
  positive : number;
  neutral : number;
  negative : number
}.

(** The counters [sentiment['positive']], [sentiment['neutral']],
    [sentiment['negative']] while the texts are read. *)
Definition counters : Set := (Z * Z * Z)%type.

(** One turn of the inner loop of [get_sentiment_trends]. *)
Definition classify `{Externals} (sentiment : counters) (text : string) : counters :=
  let '(pos, neu, neg) := sentiment in
  if Qlt_bool 0 (polarity text) then ((pos + 1)%Z, neu, neg)
  else if Qlt_bool (polarity text) 0 then (pos, neu, (neg + 1)%Z)
  else (pos, (neu + 1)%Z, neg).

(** [get_sentiment_trends] *)
Definition get_sentiment_trends `{Externals}
  (posts : list Post) (comments : list Comment) : Sentiment :=
  if empty posts && empty comments then mkSentiment (Int 0) (Int 0) (Int 0)
  else
    let sentiment := fold_left classify (map post_title posts) (0, 0, 0)%Z in
    let sentiment := fold_left classify (map comment_text comments) sentiment in
    let '(pos, neu, neg) := sentiment in
    let total := (0 + pos + neu + neg)%Z in
    if (0 <? total)%Z
    then mkSentiment (Float (inject_Z pos / inject_Z total))
                     (Float (inject_Z neu / inject_Z total))
                     (Float (inject_Z neg / inject_Z total))
    else mkSentiment (Int pos) (Int neu) (Int neg).

(** [topic.argsort()[:-6:-1]]: the last five indices of the ascending order,
    last first. *)
Definition top_indices (topic : list Q) : list nat := firstn 5 (rev (argsort topic)).

(** [f"Topic {topic_idx+1}: {', '.join(top_words)}"] *)
Definition format_topic (topic_idx : nat) (top_words : list string) : string :=
  ("Topic " ++ str_of_nat (topic_idx + 1) ++ ": " ++ join ", " top_words)%string.

(** [get_topics].  [global] is the state of numpy's global generator when
    the call is made. *)
Definition get_topics `{Externals} (global : RandomState)
  (posts : list Post) (num_topics : nat) : result (list string) :=
  if empty posts then Ok []
  else
    fitted <- fit_transform (map post_title posts) ;;
    let '(feature_names, X) := fitted in
    if Nat.eqb (fst (shape X)) 0 then Ok []
    else
      components <- lda_fit global (mkLDA num_topics (Some 42%Z)) X ;;
      Ok (map (fun '(topic_idx, topic) =>
                 format_topic topic_idx
                   (map (fun i => nth i feature_names "") (top_indices topic)))
              (enumerate components)).

(** One turn of the first loop of [get_user_influence]. *)
Definition add_post_score `{Externals} (influence : dict Q) (row : Post)
  : result (dict Q) :=
  let author := post_author row in
  match py_float (post_score row) with
  | None => Raise ValueError
  | Some score =>
      Ok (if truthy author
          then dict_set influence author (dict_get influence author 0 + score)%Q
          else influence)
  end.

(** One turn of the second loop of [get_user_influence]. *)
Definition add_comment_score `{Externals} (influence : dict Q) (row : Comment)
  : result (dict Q) :=
  let author := comment_author row in
  match py_float (comment_score row) with
  | None => Raise ValueError
  | Some score =>
      Ok (if truthy author
          then dict_set influence author
                 (dict_get influence author 0 + score * (1 # 2))%Q
          else influence)
  end.

(** [comments_df[comments_df['comment_data:id'] == parent_id[3:]]
      ['comment_data:author']], and its [.iloc[0]] when it is not empty. *)
Definition parent_author (comments : list Comment) (parent_id : string)
  : option string :=
  option_map comment_author
    (find (fun c => String.eqb (comment_id c) (string_drop 3 parent_id)) comments).

(** The edge one comment row adds to the reply graph, if any. *)
Definition reply_edge (comments : list Comment) (row : Comment)
  : option (string * string) :=
  let author := comment_author row in
  let parent_id := comment_parent_id row in
  if truthy author && truthy parent_id && startswith parent_id "t1_"
  then match parent_author comments parent_id with
       | Some parent => Some (author, parent)
       | None => None
       end
  else None.

(** The third loop of [get_user_influence]. *)
Definition reply_graph (comments : list Comment) : DiGraph :=
  fold_left (fun G row =>
               match reply_edge comments row with
               | Some (author, parent) => add_edge G author parent
               | None => G
               end)
            comments empty_graph.

(** The fourth loop of [get_user_influence]. *)
Definition add_centrality (centrality : dict Q) (influence : dict Q) : dict Q :=
  fold_left (fun influence node =>
               dict_set influence node
                 (dict_get influence node 0 + dict_get centrality node 0 * 100)%Q)
            (keys centrality) influence.

(** The [influence] dict of [get_user_influence] after its first two loops. *)
Definition score_table `{Externals}
  (posts : list Post) (comments : list Comment) : result (dict Q) :=
  influence <- (if negb (empty posts) then for_each add_post_score posts []
                else Ok []) ;;
  if negb (empty comments) then for_each add_comment_score comments influence
  else Ok influence.

(** The graph [G] of [get_user_influence] when [if G.nodes] is reached. *)
Definition reply_network (comments : list Comment) : DiGraph :=
  if negb (empty comments) then reply_graph comments else empty_graph.

(** The [influence] dict of [get_user_influence] when the sort is reached. *)
Definition influence_table `{Externals}
  (posts : list Post) (comments : list Comment) : result (dict Q) :=
  influence <- score_table posts comments ;;
  let G := reply_network comments in
  Ok (if negb (empty (nodes G))
      then add_centrality (betweenness_centrality G) influence
      else influence).

(** [get_user_influence] *)
Definition get_user_influence `{Externals}
  (posts : list Post) (comments : list Comment) (limit : nat)
  : result (list (string * Q)) :=
  if empty posts && empty comments then Ok []
  else
    influence <- influence_table posts comments ;;
    Ok (head limit (sorted_by_score_reverse influence)).

(* ================================================================== *)
(** * A reference instance of the third-party routines                 *)
(* ================================================================== *)

(** The instance below is used to run the functions on concrete corpora.
    Each routine agrees with the library it stands for on the inputs it is
    run on here: integer literals for [float], one-word texts for the
    polarity lexicon, lower- and upper-case ASCII words for the analyzer.
    The betweenness routine is the textbook definition (normalised as
    networkx does for directed graphs); the LDA weights are an arbitrary
    function of the generator state. *)

Definition digit_of (c : ascii) : option Z :=
  let n := nat_of_ascii c in
  if Nat.leb 48 n && Nat.leb n 57 then Some (Z.of_nat (n - 48)) else None.

Fixpoint parse_digits (s : string) (acc : Z) : option Z :=
  match s with
  | EmptyString => Some acc
  | String c rest =>
      match digit_of c with
      | Some d => parse_digits rest (10 * acc + d)%Z
      | None => None
      end
  end.

(** [float] on the output of [str(int)]: an optional minus sign and at least
    one digit; anything else is rejected. *)
Definition parse_int_literal (s : string) : option Q :=
  match s with
  | EmptyString => None
  | String "-" EmptyString => None
  | String "-" rest => option_map (fun z => inject_Z (- z)) (parse_digits rest 0)
  | _ => option_map inject_Z (parse_digits s 0)
  end.

(** Three entries of a polarity lexicon; every other text is neutral. *)
Definition lexicon_polarity (text : string) : Q :=
  if String.eqb text "good" then 7 # 10
  else if String.eqb text "great" then 8 # 10
  else if String.eqb text "bad" then - (7 # 10)
  else 0.

Definition lower (c : ascii) : ascii :=
  let n := nat_of_ascii c in
  if Nat.leb 65 n && Nat.leb n 90 then ascii_of_nat (n + 32) else c.

Definition is_word_char (c : ascii) : bool :=
  let n := nat_of_ascii c in
  (Nat.leb 48 n && Nat.leb n 57) || (Nat.leb 65 n && Nat.leb n 90)
  || (Nat.leb 97 n && Nat.leb n 122) || Nat.eqb n 95.

Definition flush (word : string) : list string :=
  if truthy word then [word] else [].

(** The maximal runs of word characters of [s], lower-cased; [word] is the
    run being read. *)
Fixpoint tokens (s : string) (word : string) : list string :=
  match s with
  | EmptyString => flush word
  | String c rest =>
      if is_word_char c then tokens rest (word ++ String (lower c) EmptyString)%string
      else flush word ++ tokens rest EmptyString
  end.

(** A few entries of scikit-learn's English stop-word list. *)
Definition stop_words_excerpt : list string :=
  ["a"; "an"; "and"; "are"; "as"; "at"; "be"; "by"; "for"; "from"; "in"; "is";
   "it"; "of"; "on"; "or"; "that"; "the"; "this"; "to"; "was"; "with"].

(** Words of two characters or more that are not stop words. *)
Definition word_analyzer (text : string) : list string :=
  filter (fun t => Nat.leb 2 (String.length t) && negb (mem t stop_words_excerpt))
         (tokens text EmptyString).

(** The number of walks of length [d] from [s] to [t]. *)
Fixpoint walks (G : DiGraph) (d : nat) (s t : string) : nat :=
  match d with
  | O => if String.eqb s t then 1 else 0
  | S d' =>
      fold_right (fun u total =>
                    (if has_edge G s u then walks G d' u t else 0) + total)%nat
                 0%nat (nodes G)
  end.

Definition distance (G : DiGraph) (s t : string) : option nat :=
  find (fun d => Nat.ltb 0 (walks G d s t)) (seq 0 (List.length (nodes G))).

(** The number of shortest paths from [s] to [t]. *)
Definition sigma (G : DiGraph) (s t : string) : nat :=
  match distance G s t with
  | Some d => walks G d s t
  | None => 0
  end.

(** The number of shortest paths from [s] to [t] that pass through [v]. *)
Definition sigma_through (G : DiGraph) (s t v : string) : nat :=
  match distance G s v, distance G v t, distance G s t with
  | Some a, Some b, Some c =>
      if Nat.eqb (a + b) c then (sigma G s v * sigma G v t)%nat else 0%nat
  | _, _, _ => 0%nat
  end.

Definition pair_dependency (G : DiGraph) (v s t : string) : Q :=
  if Nat.eqb (sigma G s t) 0 then 0
  else (of_nat (sigma_through G s t v) / of_nat (sigma G s t))%Q.

(** Betweenness of [v]: the sum over the ordered pairs [s], [t] of other
    nodes of the share of shortest paths through [v], divided by
    [(n - 1) * (n - 2)] when [G] has more than two nodes. *)
Definition shortest_path_betweenness (G : DiGraph) (v : string) : Q :=
  let others := filter (fun u => negb (String.eqb u v)) (nodes G) in
  let total :=
    Qsum (flat_map (fun s => map (pair_dependency G v s)
                                 (filter (fun t => negb (String.eqb t s)) others))
                   others) in
  let n := List.length (nodes G) in
  if Nat.leb n 2 then total
  else (total / of_nat ((n - 1) * (n - 2)))%Q.

Definition generator_weight (rng : Z) (n_topics : nat) (X : Matrix) (k j : nat) : Q :=
  inject_Z (1 + (rng + Z.of_nat (k + 2 * j)) mod 7).

#[export] Instance reference_routines : Externals := {
  py_float := parse_int_literal;
  polarity := lexicon_polarity;
  analyze := word_analyzer;
  RandomState := Z;
  seeded := fun seed => seed;
  lda_weight := generator_weight;
  betweenness := shortest_path_betweenness
}.

(* ================================================================== *)
(** * Vocabulary of the specification                                  *)
(* ================================================================== *)

(** The score a stored cell stands for. *)
Definition score_of `{Externals} (cell : string) : Q :=
  match py_float cell with
  | Some q => q
  | None => 0
  end.

Definition parses `{Externals} (cell : string) : Prop := py_float cell <> None.

(** Every score cell of the two corpora is accepted by [float]. *)
Definition scores_parse `{Externals} (posts : list Post) (comments : list Comment)
  : Prop :=
  Forall (fun p => parses (post_score p)) posts
  /\ Forall (fun c => parses (comment_score c)) comments.

(** Sum of the contributions of the rows written by [a]. *)
Definition contributions {R : Type} (author : R -> string) (contribution : R -> Q)
  (a : string) (rows : list R) : Q :=
  Qsum (map contribution (filter (fun row => String.eqb a (author row)) rows)).

(** Sum of the scores of the posts written by [a]. *)
Definition post_score_sum `{Externals} (a : string) (posts : list Post) : Q :=
  contributions post_author (fun p => score_of (post_score p)) a posts.

(** Sum of the scores of the comments written by [a]. *)
Definition comment_score_sum `{Externals} (a : string) (comments : list Comment) : Q :=
  contributions comment_author (fun c => score_of (comment_score c)) a comments.

(** Betweenness of [a] in the reply graph, 0 when [a] is not one of its
    nodes. *)
Definition centrality_of `{Externals} (a : string) (comments : list Comment) : Q :=
  if mem a (nodes (reply_graph comments))
  then betweenness (reply_graph comments) a
  else 0.

(** The three-signal score of the specification. *)
Definition weighted_score `{Externals}
  (a : string) (posts : list Post) (comments : list Comment) : Q :=
  (post_score_sum a posts * 1 + comment_score_sum a comments * (1 # 2)
   + centrality_of a comments * 100)%Q.

(** [a] wrote a post or a comment of the corpora. *)
Definition authored (a : string) (posts : list Post) (comments : list Comment)
  : Prop :=
  In a (map post_author posts) \/ In a (map comment_author comments).

(** Descending order on the second component. *)
Definition by_count_desc (x y : string * nat) : Prop := (snd y <= snd x)%nat.
Definition by_score_desc (x y : string * Q) : Prop := (snd y <= snd x)%Q.

(** [out] is the first [limit] entries of a ranking of the distinct values of
    [column] with their numbers of occurrences, most frequent first. *)
Definition ranked_counts (column : list string) (limit : nat)
  (out : list (string * nat)) : Prop :=
  exists ranked,
    out = firstn limit ranked
    /\ StronglySorted by_count_desc ranked
    /\ NoDup (map fst ranked)
    /\ forall v c, In (v, c) ranked <-> (c = count v column /\ 0 < c)%nat.

(** The entries whose score is [q]. *)
Definition tied_at (q : Q) (entry : string * Q) : bool := Qeq_bool (snd entry) q.

(** The texts [get_sentiment_trends] classifies. *)
Definition classified_texts (posts : list Post) (comments : list Comment)
  : list string :=
  map post_title posts ++ map comment_text comments.

Definition is_positive `{Externals} (text : string) : bool := Qlt_bool 0 (polarity text).
Definition is_negative `{Externals} (text : string) : bool :=
  negb (Qlt_bool 0 (polarity text)) && Qlt_bool (polarity text) 0.
Definition is_neutral `{Externals} (text : string) : bool :=
  negb (Qlt_bool 0 (polarity text)) && negb (Qlt_bool (polarity text) 0).

(** The share of the texts that satisfy [p]. *)
Definition share (p : string -> bool) (texts : list string) : Q :=
  (of_nat (List.length (filter p texts)) / of_nat (List.length texts))%Q.

(** The analysed titles of a posts corpus, and the vocabulary that is left
    of them after stop-word removal and the document-frequency cut-offs. *)
Definition analysed_titles `{Externals} (posts : list Post) : list (list string) :=
  map analyze (map post_title posts).

Definition remaining_vocabulary `{Externals} (posts : list Post) : list string :=
  limit_features (analysed_titles posts)
                 (distinct (List.concat (analysed_titles posts))).

(** The comment a row's [parent_id] refers to, when the corpus holds it. *)
Definition referenced_parent (comments : list Comment) (row : Comment)
  : option Comment :=
  find (fun c => String.eqb (comment_id c) (string_drop 3 (comment_parent_id row)))
       comments.

(* ================================================================== *)
(** * Sample corpora                                                   *)
(* ================================================================== *)

(** Three posts; the second one was stored without author. *)
Definition sample_posts : list Post :=
  [ mkPost "p1" "Good Morning the world" "news" "alice" "10" "3";
    mkPost "p2" "morning world news" "pics" "" "20" "1";
    mkPost "p3" "world news today" "news" "[deleted]" "5" "2" ].

(** A thread: alice answers the post, bob answers alice, carol answers bob. *)
Definition sample_comments : list Comment :=
  [ mkComment "a" "good" "alice" "t3_p1" "10";
    mkComment "b" "bad" "bob" "t1_a" "4";
    mkComment "c" "meh" "carol" "t1_b" "-3" ].

(** A comment stored without author, and bob's answer to it. *)
Definition orphan_thread : list Comment :=
  [ mkComment "a" "first" "" "t3_p1" "10";
    mkComment "b" "reply" "bob" "t1_a" "4" ].

Definition authorless_post : Post :=
  mkPost "p2" "morning world news" "pics" "" "20" "1".

Definition deleted_author_post : Post :=
  mkPost "p3" "world news today" "news" "[deleted]" "5" "2".

(** Two posts, the second with a score cell that is not a number. *)
Definition malformed_posts : list Post :=
  [ mkPost "p1" "Good Morning the world" "news" "alice" "10" "3";
    mkPost "p4" "evening news" "news" "dave" "n/a" "1" ].

(** Three posts whose titles have no term in common. *)
Definition unrelated_posts : list Post :=
  [ mkPost "p5" "alpha" "news" "alice" "1" "0";
    mkPost "p6" "beta" "news" "bob" "2" "0";
    mkPost "p7" "gamma" "news" "carol" "3" "0" ].

(* ================================================================== *)
(** * Further vocabulary                                               *)
(* ================================================================== *)

(** The sum of the counts of a ranking. *)
Definition total_count {K : Type} (ranking : list (K * nat)) : nat :=
  fold_right (fun entry total => (snd entry + total)%nat) 0%nat ranking.

(** A post stored without author whose score cell is not a number. *)
Definition authorless_malformed_post : Post :=
  mkPost "p8" "late news" "news" "" "n/a" "0".

(** The invariant of a graph that was built with [add_edge] only: no node
    and no edge is repeated, the end points of every edge are nodes, and
    every node is an end point of some edge. *)
Definition edge_built (G : DiGraph) : Prop :=
  NoDup (nodes G)
  /\ NoDup (edges G)
  /\ (forall u v, In (u, v) (edges G) -> In u (nodes G) /\ In v (nodes G))
  /\ (forall a, In a (nodes G) ->
                exists b, In (a, b) (edges G) \/ In (b, a) (edges G)).

(* ================================================================== *)
(** * happybase: tables of rows of cells                               *)
(* ================================================================== *)

(** The cells of one row (column name to value), a table (row key to
    cells) and the tables of a connection (table name to table).  Values
    and keys are byte strings; [encode]/[decode] are the identity on the
    strings used here. *)
Definition Cells : Type := dict string.
Definition HTable : Type := dict Cells.
Definition Connection : Type := dict HTable.

(** [d[k]] when [k in d]. *)
Fixpoint dict_lookup {V : Type} (d : dict V) (k : string) : option V :=
  match d with
  | [] => None
  | (k', v) :: rest => if String.eqb k k' then Some v else dict_lookup rest k
  end.

(** [for col, value in data.items(): cells[col] = value] *)
Definition put_cells (cells data : Cells) : Cells :=
  fold_left (fun cells cell => dict_set cells (fst cell) (snd cell)) data cells.

(** [table.put(row_key, data)]: the given columns are written, the other
    columns of the row stay. *)
Definition table_put (table : HTable) (row_key : string) (data : Cells) : HTable :=
  dict_set table row_key (put_cells (dict_get table row_key []) data).

(** [table.delete(row_key)] *)
Definition table_delete (table : HTable) (row_key : string) : HTable :=
  filter (fun row => negb (String.eqb row_key (fst row))) table.

Definition row_key_le (x y : string * Cells) : bool := String.leb (fst x) (fst y).

(** [table.scan()]: the rows by increasing row key. *)
Definition table_scan (table : HTable) : list (string * Cells) :=
  stable_sort row_key_le table.

(** [connection.table(name).put(row_key, data)]; [None] when the table does
    not exist and happybase raises. *)
Definition connection_put (conn : Connection) (name row_key : string) (data : Cells)
  : option Connection :=
  match dict_lookup conn name with
  | Some table => Some (dict_set conn name (table_put table row_key data))
  | None => None
  end.

(** [connection.table(name).delete(row_key)] *)
Definition connection_delete (conn : Connection) (name row_key : string)
  : option Connection :=
  match dict_lookup conn name with
  | Some table => Some (dict_set conn name (table_delete table row_key))
  | None => None
  end.

(* ================================================================== *)
(** * [class HBaseManager] ([hbase_manager.py])                        *)
(* ================================================================== *)

(** Conversions done by Python and pandas on time stamps. *)
Class Conversions : Type := {
  (** [str(x)] for a float. *)
  str_float : Q -> string;
  (** [pd.to_datetime(s, unit='s')] for one cell: the nanoseconds since the
      epoch, [None] for [NaT], or the exception. *)
  to_datetime : string -> result (option Z)
}.

(** [str(z)] for an [int]. *)
Definition str_of_Z (z : Z) : string := NilZero.string_of_int (Z.to_int z).

(** [str(x)] for a number. *)
Definition py_str `{Conversions} (x : number) : string :=
  match x with
  | Int z => str_of_Z z
  | Float q => str_float q
  end.

(** [d.get(key, default)] for a key that may be absent. *)
Definition get_or {A : Type} (value : option A) (default : A) : A :=
  match value with
  | Some v => v
  | None => default
  end.

(** The [post] dict handed to [store_post]; the keys it reads with [get]
    may be absent. *)
Record PostDict : Set := mkPostDict {
  pd_id : string;
  pd_title : string;
  pd_selftext : option string;
  pd_subreddit : string;
  pd_author : option string;
  pd_created_utc : number;
  pd_score : option Z;
  pd_ups : option Z;
  pd_downs : option Z;
  pd_num_comments : option Z
}.

(** The [comment] dict handed to [store_comment]. *)
Record CommentDict : Set := mkCommentDict {
  cd_id : string;
  cd_body : string;
  cd_author : option string;
  cd_created_utc : number;
  cd_parent_id : option string;
  cd_score : option Z;
  cd_ups : option Z;
  cd_downs : option Z
}.

(** [ensure_tables]: the two tables are created when they do not exist. *)
Definition ensure_tables (prefix : string) (conn : Connection) : Connection :=
  fold_left (fun conn table =>
               if mem table (keys conn) then conn else dict_set conn table [])
            [(prefix ++ "posts")%string; (prefix ++ "comments")%string] conn.

(** The [data] dict of [store_post]. *)
Definition post_cells `{Conversions} (post : PostDict) : Cells :=
  [ ("post_data:id", pd_id post);
    ("post_data:title", pd_title post);
    ("post_data:selftext", get_or (pd_selftext post) "");
    ("post_data:subreddit", pd_subreddit post);
    ("post_data:author", get_or (pd_author post) "");
    ("post_data:created_utc", py_str (pd_created_utc post));
    ("metrics:score", str_of_Z (get_or (pd_score post) 0%Z));
    ("metrics:ups", str_of_Z (get_or (pd_ups post) 0%Z));
    ("metrics:downs", str_of_Z (get_or (pd_downs post) 0%Z));
    ("metrics:num_comments", str_of_Z (get_or (pd_num_comments post) 0%Z)) ].

(** [store_post]; [prefix] is [Config.HBASE_TABLE_PREFIX]. *)
Definition store_post `{Conversions} (prefix : string) (conn : Connection)
  (post : PostDict) : option Connection :=
  connection_put conn (prefix ++ "posts") ("post_" ++ pd_id post) (post_cells post).

(** The [data] dict of [store_comment]. *)
Definition comment_cells `{Conversions} (comment : CommentDict) (post_id : string)
  : Cells :=
  [ ("comment_data:id", cd_id comment);
    ("comment_data:post_id", post_id);
    ("comment_data:text", cd_body comment);
    ("comment_data:author", get_or (cd_author comment) "");
    ("comment_data:created_utc", py_str (cd_created_utc comment));
    ("comment_data:parent_id", get_or (cd_parent_id comment) "");
    ("metrics:score", str_of_Z (get_or (cd_score comment) 0%Z));
    ("metrics:ups", str_of_Z (get_or (cd_ups comment) 0%Z));
    ("metrics:downs", str_of_Z (get_or (cd_downs comment) 0%Z)) ].

(** [store_comment] *)
Definition store_comment `{Conversions} (prefix : string) (conn : Connection)
  (comment : CommentDict) (post_id : string) : option Connection :=
  connection_put conn (prefix ++ "comments")
    ("comment_" ++ cd_id comment ++ "_post_" ++ post_id)
    (comment_cells comment post_id).

(* ================================================================== *)
(** * [RedditAnalytics.to_dataframe] and the frames it builds          *)
(* ================================================================== *)

(** One row of the frame: [{'row_key': key}] and then the cells. *)
Definition frame_row (entry : string * Cells) : Cells :=
  put_cells [("row_key", fst entry)] (snd entry).

(** [to_dataframe(table_name)]: the rows of table ["reddit_" + table_name]
    in scan order; [None] when the table does not exist and the scan
    raises.  The prefix is the literal of the source, not the configured
    one. *)
Definition to_dataframe (conn : Connection) (table_name : string)
  : option (list Cells) :=
  match dict_lookup conn ("reddit_" ++ table_name) with
  | Some table => Some (map frame_row (table_scan table))
  | None => None
  end.

(** The record of a posts row, when the row has the six columns. *)
Definition post_of_row (row : Cells) : option Post :=
  match dict_lookup row "post_data:id", dict_lookup row "post_data:title",
        dict_lookup row "post_data:subreddit", dict_lookup row "post_data:author",
        dict_lookup row "metrics:score", dict_lookup row "metrics:num_comments" with
  | Some id, Some title, Some subreddit, Some author, Some score, Some n =>
      Some (mkPost id title subreddit author score n)
  | _, _, _, _, _, _ => None
  end.

(** The record of a comments row, when the row has the five columns. *)
Definition comment_of_row (row : Cells) : option Comment :=
  match dict_lookup row "comment_data:id", dict_lookup row "comment_data:text",
        dict_lookup row "comment_data:author",
        dict_lookup row "comment_data:parent_id", dict_lookup row "metrics:score" with
  | Some id, Some text, Some author, Some parent_id, Some score =>
      Some (mkComment id text author parent_id score)
  | _, _, _, _, _ => None
  end.

(** A frame without absent cell in the columns of [columns]. *)
Definition complete (columns : list string) (df : list Cells) : Prop :=
  Forall (fun row => forall col, In col columns -> dict_lookup row col <> None) df.

Definition post_columns : list string :=
  ["row_key"; "post_data:id"; "post_data:title"; "post_data:selftext";
   "post_data:subreddit"; "post_data:author"; "post_data:created_utc";
   "metrics:score"; "metrics:ups"; "metrics:downs"; "metrics:num_comments"].

Definition comment_columns : list string :=
  ["row_key"; "comment_data:id"; "comment_data:post_id"; "comment_data:text";
   "comment_data:author"; "comment_data:created_utc"; "comment_data:parent_id";
   "metrics:score"; "metrics:ups"; "metrics:downs"].

(* ================================================================== *)
(** * The admin page ([pages/hbase_manager.py])                        *)
(* ================================================================== *)

(** [fetch_table_data]: the frame of table [prefix + table_name], the empty
    frame when reading raises.  (The page caches the frame; the functions
    below take the frame they are given.) *)
Definition fetch_table_data (prefix : string) (conn : Connection)
  (table_name : string) : list Cells :=
  match dict_lookup conn (prefix ++ table_name) with
  | Some table => map frame_row (table_scan table)
  | None => []
  end.

(** The non-missing values of a column. *)
Definition column_values (df : list Cells) (col : string) : list string :=
  flat_map (fun row => match dict_lookup row col with
                       | Some v => [v]
                       | None => []
                       end) df.

Definition key_le (x y : string * nat) : bool := String.leb (fst x) (fst y).

(** [df.groupby(col).size().to_dict()]: the group sizes by increasing key. *)
Definition group_sizes (df : list Cells) (col : string) : list (string * nat) :=
  stable_sort key_le (tally (column_values df col)).

(** [df[col].nunique()] *)
Definition nunique (df : list Cells) (col : string) : nat :=
  List.length (distinct (column_values df col)).

Record Stats : Set := mkStats {
  total_posts : nat;
  total_comments : nat;
  unique_subreddits : nat;
  unique_post_authors : nat;
  unique_comment_authors : nat;
  posts_per_subreddit : list (string * nat)
}.

(** [get_table_stats] *)
Definition get_table_stats (prefix : string) (conn : Connection) : Stats :=
  let posts_df := fetch_table_data prefix conn "posts" in
  let comments_df := fetch_table_data prefix conn "comments" in
  mkStats (List.length posts_df)
          (List.length comments_df)
          (nunique posts_df "post_data:subreddit")
          (nunique posts_df "post_data:author")
          (nunique comments_df "comment_data:author")
          (group_sizes posts_df "post_data:subreddit").

(** [df[df[id_column] == id]['row_key'].iloc[0]]; [None] when it raises. *)
Definition first_row_key (df : list Cells) (id_column id : string) : option string :=
  match find (fun row => match dict_lookup row id_column with
                         | Some v => String.eqb v id
                         | None => false
                         end) df with
  | Some row => dict_lookup row "row_key"
  | None => None
  end.

(** The "Update Post" form, submitted: an exception leaves the tables as
    they are. *)
Definition update_post (prefix : string) (conn : Connection) (posts_df : list Cells)
  (update_id new_title : string) (new_score : nat) : Connection :=
  if truthy update_id
  then match first_row_key posts_df "post_data:id" update_id with
       | Some row_key =>
           get_or (connection_put conn (prefix ++ "posts") row_key
                     [("post_data:title", new_title);
                      ("metrics:score", str_of_nat new_score)])
                  conn
       | None => conn
       end
  else conn.

(** The "Delete Post" form, submitted. *)
Definition delete_post (prefix : string) (conn : Connection) (posts_df : list Cells)
  (delete_id : string) (confirm_delete : bool) : Connection :=
  if truthy delete_id && confirm_delete
  then match first_row_key posts_df "post_data:id" delete_id with
       | Some row_key =>
           get_or (connection_delete conn (prefix ++ "posts") row_key) conn
       | None => conn
       end
  else conn.

(** The loop of [delete_all_data] on one table. *)
Definition clear_table (conn : Connection) (name : string) : option Connection :=
  match dict_lookup conn name with
  | Some table =>
      Some (dict_set conn name
              (fold_left table_delete (map fst (table_scan table)) table))
  | None => None
  end.

(** [delete_all_data]: the posts table, then the comments table; an
    exception ends the loop and keeps what was deleted before. *)
Definition delete_all_data (prefix : string) (conn : Connection) : Connection :=
  match clear_table conn (prefix ++ "posts") with
  | Some conn1 => get_or (clear_table conn1 (prefix ++ "comments")) conn1
  | None => conn
  end.

(** The connections that [HBaseManager], its two writers, the post forms of
    the admin page (shown a fresh frame) and [delete_all_data] can produce
    from an empty store.  The "Update Comment" form is left out: it adds a
    column to the row it writes. *)
Inductive maintained `{Conversions} (prefix : string) : Connection -> Prop :=
| maintained_new :
    maintained prefix (ensure_tables prefix [])
| maintained_store_post conn conn' post :
    maintained prefix conn ->
    store_post prefix conn post = Some conn' ->
    maintained prefix conn'
| maintained_store_comment conn conn' comment post_id :
    maintained prefix conn ->
    store_comment prefix conn comment post_id = Some conn' ->
    maintained prefix conn'
| maintained_update_post conn update_id new_title new_score :
    maintained prefix conn ->
    maintained prefix
      (update_post prefix conn (fetch_table_data prefix conn "posts")
                   update_id new_title new_score)
| maintained_delete_post conn posts_df delete_id confirm_delete :
    maintained prefix conn ->
    maintained prefix (delete_post prefix conn posts_df delete_id confirm_delete)
| maintained_delete_all conn :
    maintained prefix conn ->
    maintained prefix (delete_all_data prefix conn).

(** A table whose rows all hold the columns of [columns], once each, and no
    other. *)
Definition table_complete (columns : list string) (table : HTable) : Prop :=
  forall key cells,
    In (key, cells) table ->
    NoDup (keys cells) /\ forall col, In col (keys cells) <-> In col columns.

(** The invariant of a maintained connection. *)
Definition well_stored (prefix : string) (conn : Connection) : Prop :=
  exists posts comments,
    dict_lookup conn (prefix ++ "posts") = Some posts
    /\ dict_lookup conn (prefix ++ "comments") = Some comments
    /\ NoDup (keys posts) /\ NoDup (keys comments)
    /\ table_complete (tl post_columns) posts
    /\ table_complete (tl comment_columns) comments.

(* ================================================================== *)
(** * [RedditAnalytics.get_temporal_trends]                            *)
(* ================================================================== *)

(** One more occurrence of [v] in a table of counts, for any key type. *)
Fixpoint bump_by {K : Type} (eqb : K -> K -> bool) (v : K) (counts : list (K * nat))
  : list (K * nat) :=
  match counts with
  | [] => [(v, 1%nat)]
  | (v', n) :: rest =>
      if eqb v v' then (v', S n) :: rest else (v', n) :: bump_by eqb v rest
  end.

Definition more_frequent {K : Type} (x y : K * nat) : bool := Nat.leb (snd y) (snd x).

(** [Series.value_counts().to_dict()] for any key type, equally frequent
    values in first-seen order. *)
Definition count_values {K : Type} (eqb : K -> K -> bool) (column : list K)
  : list (K * nat) :=
  stable_sort more_frequent (fold_left (fun counts v => bump_by eqb v counts) column []).

Definition nanoseconds_per_hour : Z := 3600 * 1000000000.
Definition nanoseconds_per_day : Z := 24 * nanoseconds_per_hour.

(** The day names from 1970-01-01, a Thursday. *)
Definition day_names : list string :=
  ["Thursday"; "Friday"; "Saturday"; "Sunday"; "Monday"; "Tuesday"; "Wednesday"].

(** [Series.dt.day_name()] and [Series.dt.hour] of a time stamp given in
    nanoseconds since the epoch, in UTC. *)
Definition day_name (ns : Z) : string :=
  nth (Z.to_nat ((ns / nanoseconds_per_day) mod 7)) day_names "".

Definition hour (ns : Z) : Z := (ns / nanoseconds_per_hour) mod 24.

(** [pd.to_datetime(column, unit='s')]: the first cell that cannot be
    converted raises. *)
Fixpoint to_datetimes `{Conversions} (column : list string)
  : result (list (option Z)) :=
  match column with
  | [] => Ok []
  | s :: rest =>
      t <- to_datetime s ;; ts <- to_datetimes rest ;; Ok (t :: ts)
  end.

(** The time stamps that are not [NaT]; [value_counts] skips the others. *)
Definition not_NaT (datetimes : list (option Z)) : list Z :=
  flat_map (fun t => match t with
                     | Some ns => [ns]
                     | None => []
                     end) datetimes.

Record Trends : Set := mkTrends {
  by_day : list (string * nat);
  by_hour : list (Z * nat)
}.

(** [get_temporal_trends] on the [post_data:created_utc] column of the posts
    frame; [None] is the empty dict [{}]. *)
Definition get_temporal_trends `{Conversions} (created_utc : list string)
  : result (option Trends) :=
  if empty created_utc then Ok None
  else
    datetimes <- to_datetimes created_utc ;;
    Ok (Some (mkTrends
                (count_values String.eqb (map day_name (not_NaT datetimes)))
                (count_values Z.eqb (map hour (not_NaT datetimes))))).

(* ================================================================== *)
(** * [perform_analysis] ([run_analysis_streamlit.py])                 *)
(* ================================================================== *)

(** A row of the posts frame with the column [get_temporal_trends] reads. *)
Record PostRow : Set := mkPostRow {
  row_post : Post;
  row_created_utc : string
}.

(** [list(it)] on the object [get_top_subreddits] returned: what the call
    yields and what the object yields afterwards.  [Series.items()] is a
    [zip] iterator, which is used up; the list [[]] returned for an empty
    frame stays as it is (and is empty). *)
Definition consume {A : Type} (it : list A) : list A * list A := (it, []).

Record Report : Set := mkReport {
  (** what the returned [top_subreddits] object still yields *)
  report_top_subreddits : list (string * nat);
  report_top_authors : list (string * nat);
  report_engagement : Engagement;
  (** [None] is the empty dict [{}] *)
  report_sentiment : option Sentiment;
  report_topics : list string;
  report_influence : list (string * Q);
  report_temporal : option Trends;
  report_posts : list PostRow;
  report_comments : list Comment
}.

(** The tuple of the [except] branch. *)
Definition default_report : Report :=
  mkReport [] [] (mkEngagement (Int 0) (Int 0)) None [] [] None [] [].

(** The [try] branch; the second component is the ranking written with
    [st.write]. *)
Definition analyse `{Externals} `{Conversions} (global : RandomState)
  (posts : list PostRow) (comments : list Comment)
  : result (Report * list (string * nat)) :=
  let top_subreddits := get_top_subreddits (map row_post posts) 5 in
  let '(written, top_subreddits) := consume top_subreddits in
  let '(logged, top_subreddits) := consume top_subreddits in
  let top_authors := get_top_authors (map row_post posts) 5 in
  engagement <- get_engagement_metrics (map row_post posts) ;;
  let sentiment := get_sentiment_trends (map row_post posts) comments in
  topics <- get_topics global (map row_post posts) 5 ;;
  influence <- get_user_influence (map row_post posts) comments 5 ;;
  temporal_trends <- get_temporal_trends (map row_created_utc posts) ;;
  Ok (mkReport top_subreddits top_authors engagement (Some sentiment) topics
               influence temporal_trends posts comments,
      written).

(** [perform_analysis]: any exception gives the defaults for every result. *)
Definition perform_analysis `{Externals} `{Conversions} (global : RandomState)
  (posts : list PostRow) (comments : list Comment) : Report :=
  match analyse global posts comments with
  | Ok (report, _) => report
  | Raise _ => default_report
  end.

(* ================================================================== *)
(** * Reference conversions and sample stored data                     *)
(* ================================================================== *)

(** [str] of a float without fractional part, as Python prints the second
    counts of Reddit. *)
Definition str_whole_float (q : Q) : string :=
  (str_of_Z (Qnum q / Zpos (Qden q)) ++ ".0")%string.

(** A second count written as an integer: a time stamp; the empty string:
    [NaT]; anything else is rejected. *)
Definition seconds_to_datetime (s : string) : result (option Z) :=
  if negb (truthy s) then Ok None
  else match parse_digits s 0 with
       | Some seconds => Ok (Some (seconds * 1000000000)%Z)
       | None => Raise ValueError
       end.

#[export] Instance reference_conversions : Conversions := {
  str_float := str_whole_float;
  to_datetime := seconds_to_datetime
}.

Definition sample_post_dict : PostDict :=
  mkPostDict "p1" "Good Morning the world" (Some "") "news" (Some "alice")
             (Float 1700000000) (Some 10%Z) (Some 12%Z) (Some 2%Z) (Some 3%Z).

(** A post whose author and score the fetcher did not supply. *)
Definition bare_post_dict : PostDict :=
  mkPostDict "p2" "morning world news" None "pics" None
             (Float 1700003600) None None None None.

Definition sample_comment_dict : CommentDict :=
  mkCommentDict "a" "good" (Some "alice") (Float 1700000100) (Some "t3_p1")
                (Some 10%Z) (Some 10%Z) (Some 0%Z).

(** The store after the three records above were written. *)
Definition sample_store : option Connection :=
  match store_post "reddit_" (ensure_tables "reddit_" []) sample_post_dict with
  | Some conn1 =>
      match store_post "reddit_" conn1 bare_post_dict with
      | Some conn2 => store_comment "reddit_" conn2 sample_comment_dict "p1"
      | None => None
      end
  | None => None
  end.

(** Posts rows with their creation times: a Tuesday at 22:13 and 23:13 UTC,
    and the following Wednesday at 00:13. *)
Definition sample_post_rows : list PostRow :=
  [ mkPostRow (mkPost "p1" "Good Morning the world" "news" "alice" "10" "3")
              "1700000000";
    mkPostRow (mkPost "p2" "morning world news" "pics" "" "20" "1")
              "1700003600";
    mkPostRow (mkPost "p3" "world news today" "news" "[deleted]" "5" "2")
              "1700007200" ].

(** The frame has a row stored under [row_key]. *)
Definition has_row_key (df : list Cells) (row_key : string) : Prop :=
  exists row, In row df /\ dict_lookup row "row_key" = Some row_key.

(** The record [store_post] makes readable from a [post] dict. *)
Definition stored_post (post : PostDict) : Post :=
  mkPost (pd_id post) (pd_title post) (pd_subreddit post)
         (get_or (pd_author post) "")
         (str_of_Z (get_or (pd_score post) 0%Z))
         (str_of_Z (get_or (pd_num_comments post) 0%Z)).

(** The record [store_comment] makes readable from a [comment] dict. *)
Definition stored_comment (comment : CommentDict) : Comment :=
  mkComment (cd_id comment) (cd_body comment)
            (get_or (cd_author comment) "")
            (get_or (cd_parent_id comment) "")
            (str_of_Z (get_or (cd_score comment) 0%Z)).

(* ================================================================== *)
(** * [fetch_and_store_data] ([run_analysis_streamlit.py])             *)
(* ================================================================== *)

(** What the Reddit API hands over for a submission and for a comment; an
    author of [None] is a deleted account. *)
Record Submission : Set := mkSubmission {
  sub_id : string;
  sub_title : string;
  sub_selftext : string;
  sub_subreddit : string;
  sub_author : option string;
  sub_created_utc : Q;
  sub_score : Z;
  sub_ups : Z;
  sub_downs : Z;
  sub_num_comments : Z
}.

Record RedditComment : Set := mkRedditComment {
  rc_id : string;
  rc_body : string;
  rc_author : option string;
  rc_created_utc : Q;
  rc_score : Z;
  rc_ups : Z;
  rc_downs : Z;
  rc_parent_id : string
}.

(** [class RedditConnector] ([reddit_connector.py]): its three methods, each
    with [None] for a call that raises.  It has no method [get_post_by_id]. *)
Class RedditConnector : Type := {
  get_subreddit_posts : string -> nat -> option (list Submission);
  get_post_comments : string -> option (list RedditComment);
  search_posts : string -> nat -> option (list Submission)
}.

(** [author.name if author else '[deleted]'] *)
Definition author_name (author : option string) : string :=
  match author with
  | Some name => name
  | None => "[deleted]"
  end.

(** The [post_dict] built for a submission. *)
Definition post_dict_of (post : Submission) : PostDict :=
  mkPostDict (sub_id post) (sub_title post)
             (Some (if truthy (sub_selftext post) then sub_selftext post else ""))
             (sub_subreddit post)
             (Some (author_name (sub_author post)))
             (Float (sub_created_utc post))
             (Some (sub_score post)) (Some (sub_ups post)) (Some (sub_downs post))
             (Some (sub_num_comments post)).

(** The [comment_dict] built for a comment. *)
Definition comment_dict_of (comment : RedditComment) : CommentDict :=
  mkCommentDict (rc_id comment) (rc_body comment)
                (Some (author_name (rc_author comment)))
                (Float (rc_created_utc comment))
                (Some (rc_parent_id comment))
                (Some (rc_score comment)) (Some (rc_ups comment))
                (Some (rc_downs comment)).

(** The inner loop over the comments of one post, inside its own [try]: an
    exception ends the loop and keeps what was stored. *)
Fixpoint store_comments `{Conversions} (prefix : string) (conn : Connection)
  (comments : list RedditComment) (post_id : string) : Connection :=
  match comments with
  | [] => conn
  | comment :: rest =>
      match store_comment prefix conn (comment_dict_of comment) post_id with
      | Some conn' => store_comments prefix conn' rest post_id
      | None => conn
      end
  end.

(** The loop over the fetched posts: the result of the call and the store it
    leaves.  An exception of [store_post] ends the call with [False]; what
    was stored before stays. *)
Fixpoint store_fetched `{Conversions} `{RedditConnector} (prefix : string)
  (conn : Connection) (posts : list Submission) : bool * Connection :=
  match posts with
  | [] => (true, conn)
  | post :: rest =>
      match store_post prefix conn (post_dict_of post) with
      | None => (false, conn)
      | Some conn1 =>
          let conn2 :=
            match get_post_comments (sub_id post) with
            | Some comments => store_comments prefix conn1 comments (sub_id post)
            | None => conn1
            end in
          store_fetched prefix conn2 rest
      end
  end.

(** [if x] for an argument that is [None] or a string. *)
Definition given (x : option string) : bool :=
  match x with
  | Some s => truthy s
  | None => false
  end.

(** [sum(1 for x in [subreddit_name, query, post_id] if x)] *)
Definition inputs_given (subreddit_name query post_id : option string) : nat :=
  List.length (filter given [subreddit_name; query; post_id]).

(** [fetch_and_store_data] *)
Definition fetch_and_store_data `{Conversions} `{RedditConnector} (prefix : string)
  (conn : Connection) (subreddit_name query post_id : option string) (limit : nat)
  : bool * Connection :=
  if negb (Nat.eqb (inputs_given subreddit_name query post_id) 1) then (false, conn)
  else
    let posts :=
      if given subreddit_name
      then get_subreddit_posts (get_or subreddit_name "") limit
      else if given query
      then search_posts (get_or query "") limit
      else (* reddit.get_post_by_id(post_id): AttributeError *) None in
    match posts with
    | None => (false, conn)
    | Some posts =>
        if Nat.eqb (List.length posts) 0 then (false, conn)
        else store_fetched prefix conn posts
    end.

(** A connector that serves one submission with one top-level comment for
    the subreddit ["python"], and fails on everything else. *)
Definition sample_submission : Submission :=
  mkSubmission "p9" "typing news" "" "python" None 1700000000 42 50 8 1.

Definition sample_reddit_comment : RedditComment :=
  mkRedditComment "z" "great" (Some "erin") 1700000500 3 3 0 "t3_p9".

#[export] Instance sample_connector : RedditConnector := {
  get_subreddit_posts := fun name limit =>
    if String.eqb name "python" then Some (firstn limit [sample_submission])
    else None;
  get_post_comments := fun post_id =>
    if String.eqb post_id "p9" then Some [sample_reddit_comment] else None;
  search_posts := fun query limit => None
}.

(** The posts table has a row under [row_key]. *)
Definition post_key_stored (prefix : string) (conn : Connection) (row_key : string)
  : Prop :=
  exists posts,
    dict_lookup conn (prefix ++ "posts") = Some posts /\ In row_key (keys posts).

(* ================================================================== *)
(** * The comment forms of the admin page ([pages/hbase_manager.py])   *)
(* ================================================================== *)

(** The "Update Comment" form, submitted: the new text goes to the column
    [comment_data:body]. *)
Definition update_comment (prefix : string) (conn : Connection)
  (comments_df : list Cells) (update_comment_id new_text : string)
  (new_comment_score : nat) : Connection :=
  if truthy update_comment_id
  then match first_row_key comments_df "comment_data:id" update_comment_id with
       | Some row_key =>
           get_or (connection_put conn (prefix ++ "comments") row_key
                     [("comment_data:body", new_text);
                      ("metrics:score", str_of_nat new_comment_score)])
                  conn
       | None => conn
       end
  else conn.

(** [col in df.columns] *)
Definition has_column (df : list Cells) (col : string) : bool :=
  existsb (fun row => match dict_lookup row col with
                      | Some _ => true
                      | None => false
                      end) df.

(** [df[col] == value], one boolean per row; a missing cell equals
    nothing. *)
Definition column_equals (df : list Cells) (col value : string) : list bool :=
  map (fun row => match dict_lookup row col with
                  | Some v => String.eqb v value
                  | None => false
                  end) df.

(** [df[mask]['row_key'].iloc[0]] for a boolean Series [mask] made from
    another frame.  Both frames are indexed 0, 1, ...: pandas aligns the mask
    with the rows of [df] and raises when a row of [df] has no entry in it;
    [None] is any exception. *)
Definition masked_first_row_key (df : list Cells) (mask : list bool)
  : option string :=
  if Nat.ltb (List.length mask) (List.length df) then None
  else match find fst (combine mask df) with
       | Some (_, row) => dict_lookup row "row_key"
       | None => None
       end.

(** The "Delete Comment" form, submitted: the mask is built from
    [posts_df], the frame of the posts tab. *)
Definition delete_comment (prefix : string) (conn : Connection)
  (posts_df comments_df : list Cells) (delete_comment_id : string)
  (confirm_comment_delete : bool) : Connection :=
  if truthy delete_comment_id && confirm_comment_delete
  then
    if has_column posts_df "comment_data:id"
    then match masked_first_row_key comments_df
                 (column_equals posts_df "comment_data:id" delete_comment_id) with
         | Some row_key =>
             get_or (connection_delete conn (prefix ++ "comments") row_key) conn
         | None => conn
         end
    else (* posts_df['comment_data:id']: KeyError *) conn
  else conn.

(** The strings [str] gives for an [int]. *)
Definition int_string (s : string) : Prop :=
  (exists z, s = str_of_Z z) \/ (exists n, s = str_of_nat n).

(** The columns of the metrics the analytics convert with [float]. *)
Definition converted_columns : list string :=
  ["metrics:score"; "metrics:num_comments"].

(** A table whose converted cells were all written as [str(int)]. *)
Definition int_metrics (table : HTable) : Prop :=
  forall key cells col v,
    In (key, cells) table -> In col converted_columns ->
    dict_lookup cells col = Some v -> int_string v.

(* ================================================================== *)
(** * Properties of the Python layer                                   *)
(* ================================================================== *)

Section StableSort.
Context {A : Type}.
Variable before : A -> A -> bool.

Lemma insert_sorted_perm (x : A) (l : list A) :
  Permutation (insert_sorted before x l) (x :: l).
Proof.
  induction l as [|y l IH]; simpl.
  - apply Permutation_refl.
  - destruct (before x y).
    + apply Permutation_refl.
    + eapply perm_trans; [apply perm_skip, IH | apply perm_swap].
Qed.

Lemma stable_sort_perm (l : list A) : Permutation (stable_sort before l) l.
Proof.
  induction l as [|x l IH]; simpl.
  - constructor.
  - eapply perm_trans; [apply insert_sorted_perm | now apply perm_skip].
Qed.

Lemma stable_sort_length (l : list A) :
  List.length (stable_sort before l) = List.length l.
Proof. apply Permutation_length, stable_sort_perm. Qed.

Lemma stable_sort_In (x : A) (l : list A) :
  In x (stable_sort before l) <-> In x l.
Proof.
  split; apply Permutation_in;
    [apply stable_sort_perm | apply Permutation_sym, stable_sort_perm].
Qed.

(** Elements that [before] cannot tell apart are never reordered. *)
Lemma insert_sorted_filter (p : A -> bool) (x : A) (l : list A) :
  (forall y, p x = true -> p y = true -> before x y = true) ->
  filter p (insert_sorted before x l) = filter p (x :: l).
Proof.
  intros tied. induction l as [|y l IH]; simpl; [reflexivity|].
  destruct (before x y) eqn:Hxy; simpl; [reflexivity|].
  simpl in IH. rewrite IH. specialize (tied y).
  destruct (p x), (p y); try reflexivity.
  rewrite tied in Hxy by reflexivity. discriminate.
Qed.

Lemma stable_sort_stable (p : A -> bool) (l : list A) :
  (forall x y, p x = true -> p y = true -> before x y = true) ->
  filter p (stable_sort before l) = filter p l.
Proof.
  intros tied. induction l as [|x l IH]; simpl; [reflexivity|].
  rewrite insert_sorted_filter by (intros y; apply tied).
  simpl. now rewrite IH.
Qed.

Hypothesis before_total : forall x y, before x y = false -> before y x = true.
Hypothesis before_trans :
  forall x y z, before x y = true -> before y z = true -> before x z = true.

Lemma insert_sorted_sorted (x : A) (l : list A) :
  StronglySorted (fun a b => before a b = true) l ->
  StronglySorted (fun a b => before a b = true) (insert_sorted before x l).
Proof.
  induction 1 as [|y l Hl IH Hy]; simpl.
  - constructor; constructor.
  - destruct (before x y) eqn:Hxy.
    + constructor; [now constructor|].
      constructor; [exact Hxy|].
      rewrite Forall_forall in Hy |- *. intros z Hz.
      eapply before_trans; [exact Hxy | now apply Hy].
    + constructor; [exact IH|].
      rewrite Forall_forall in Hy |- *. intros z Hz.
      apply (Permutation_in _ (insert_sorted_perm x l)) in Hz.
      destruct Hz as [<-|Hz]; [now apply before_total | now apply Hy].
Qed.

Lemma stable_sort_sorted (l : list A) :
  StronglySorted (fun a b => before a b = true) (stable_sort before l).
Proof.
  induction l as [|x l IH]; simpl; [constructor|].
  now apply insert_sorted_sorted.
Qed.
End StableSort.

Lemma StronglySorted_impl {A : Type} (R S : A -> A -> Prop) (l : list A) :
  (forall x y, R x y -> S x y) -> StronglySorted R l -> StronglySorted S l.
Proof.
  intros RS. induction 1 as [|x l Hl IH Hx]; constructor; [exact IH|].
  eapply Forall_impl; [|exact Hx]. intros y. apply RS.
Qed.

Lemma StronglySorted_firstn {A : Type} (R : A -> A -> Prop) (n : nat) (l : list A) :
  StronglySorted R l -> StronglySorted R (firstn n l).
Proof.
  intros Hl. revert n. induction Hl as [|x l Hl IH Hx]; intros [|n]; simpl;
    try constructor.
  - apply IH.
  - rewrite Forall_forall in Hx |- *. intros y Hy.
    apply Hx. revert Hy. clear. revert n.
    induction l as [|z l IH]; intros [|n]; simpl; try tauto.
    intros [->|Hy]; [now left | right; eauto].
Qed.

Lemma StronglySorted_app_single {A : Type} (R : A -> A -> Prop) (l : list A) (x : A) :
  StronglySorted R l -> Forall (fun y => R y x) l -> StronglySorted R (l ++ [x]).
Proof.
  induction 1 as [|y l Hl IH Hy]; intros Hx; simpl.
  - constructor; constructor.
  - inversion Hx as [|? ? Hyx Hlx]; subst.
    constructor; [now apply IH|].
    apply Forall_app. split; [exact Hy | now constructor].
Qed.

Lemma StronglySorted_rev {A : Type} (R : A -> A -> Prop) (l : list A) :
  StronglySorted R l -> StronglySorted (fun x y => R y x) (rev l).
Proof.
  induction 1 as [|x l Hl IH Hx]; simpl; [constructor|].
  apply StronglySorted_app_single; [exact IH|].
  rewrite Forall_forall in Hx |- *. intros y Hy.
  apply Hx. now apply in_rev.
Qed.

Lemma score_ge_total {K : Type} (x y : K * Q) :
  score_ge x y = false -> score_ge y x = true.
Proof.
  unfold score_ge. intros Hxy. apply Qle_bool_iff.
  destruct (Qlt_le_dec (snd x) (snd y)) as [Hlt|Hle].
  - now apply Qlt_le_weak.
  - apply Qle_bool_iff in Hle. congruence.
Qed.

Lemma score_ge_trans {K : Type} (x y z : K * Q) :
  score_ge x y = true -> score_ge y z = true -> score_ge x z = true.
Proof.
  unfold score_ge. rewrite !Qle_bool_iff. intros Hxy Hyz.
  eapply Qle_trans; eassumption.
Qed.

Lemma count_ge_total (x y : string * nat) :
  count_ge x y = false -> count_ge y x = true.
Proof.
  unfold count_ge. rewrite Nat.leb_gt, Nat.leb_le. lia.
Qed.

Lemma count_ge_trans (x y z : string * nat) :
  count_ge x y = true -> count_ge y z = true -> count_ge x z = true.
Proof.
  unfold count_ge. rewrite !Nat.leb_le. lia.
Qed.

Lemma for_each_nil_guard {A S : Type} (body : S -> A -> result S) (l : list A) (s : S) :
  (if negb (empty l) then for_each body l s else Ok s) = for_each body l s.
Proof. now destruct l. Qed.

Section Dict.
Context {V : Type}.

Lemma dict_get_set (d : dict V) (k : string) (v : V) (k' : string) (default : V) :
  dict_get (dict_set d k v) k' default
  = if String.eqb k' k then v else dict_get d k' default.
Proof.
  induction d as [|[k0 v0] d IH]; simpl.
  - now destruct (String.eqb k' k).
  - destruct (String.eqb k k0) eqn:Hk; simpl.
    + apply String.eqb_eq in Hk; subst k0.
      now destruct (String.eqb k' k).
    + destruct (String.eqb k' k0) eqn:Hk'; [|exact IH].
      apply String.eqb_eq in Hk'; subst k0.
      rewrite String.eqb_sym in Hk. now rewrite Hk.
Qed.

Lemma keys_dict_set (d : dict V) (k : string) (v : V) (a : string) :
  In a (keys (dict_set d k v)) <-> a = k \/ In a (keys d).
Proof.
  unfold keys. induction d as [|[k0 v0] d IH]; simpl.
  - intuition.
  - destruct (String.eqb k k0) eqn:Hk; simpl.
    + apply String.eqb_eq in Hk; subst k0. intuition.
    + rewrite IH. intuition.
Qed.

Lemma dict_set_length (d : dict V) (k : string) (v : V) :
  In k (keys d) -> keys (dict_set d k v) = keys d.
Proof.
  unfold keys. induction d as [|[k0 v0] d IH]; simpl; [tauto|].
  destruct (String.eqb k k0) eqn:Hk; simpl; [reflexivity|].
  apply String.eqb_neq in Hk.
  intros [->|Hin]; [congruence|]. now rewrite IH.
Qed.

Lemma keys_dict_set_new (d : dict V) (k : string) (v : V) :
  ~ In k (keys d) -> keys (dict_set d k v) = keys d ++ [k].
Proof.
  unfold keys. induction d as [|[k0 v0] d IH]; simpl; [reflexivity|].
  intros Hk.
  destruct (String.eqb k k0) eqn:Hkk.
  - apply String.eqb_eq in Hkk. subst. tauto.
  - simpl. rewrite IH by tauto. reflexivity.
Qed.

Lemma NoDup_keys_dict_set (d : dict V) (k : string) (v : V) :
  NoDup (keys d) -> NoDup (keys (dict_set d k v)).
Proof.
  intros Hd. destruct (in_dec string_dec k (keys d)) as [Hin|Hout].
  - now rewrite dict_set_length.
  - rewrite keys_dict_set_new by exact Hout.
    apply NoDup_app; [exact Hd | repeat constructor; simpl; tauto |].
    intros x Hx [<-|[]]. contradiction.
Qed.

Lemma dict_get_In (d : dict V) (k : string) (v default : V) :
  NoDup (keys d) -> In (k, v) d -> dict_get d k default = v.
Proof.
  unfold keys. induction d as [|[k0 v0] d IH]; simpl; [tauto|].
  intros Hd [Heq|Hin].
  - inversion Heq; subst. now rewrite String.eqb_refl.
  - inversion Hd as [|? ? Hk0 Hd']; subst.
    destruct (String.eqb k k0) eqn:Hk; [|now apply IH].
    apply String.eqb_eq in Hk; subst k0.
    exfalso. apply Hk0. now apply (in_map fst) in Hin.
Qed.
End Dict.

Lemma truthy_true (s : string) : truthy s = true <-> s <> "".
Proof. destruct s; simpl; split; congruence. Qed.

Lemma truthy_false (s : string) : truthy s = false <-> s = "".
Proof. destruct s; simpl; split; congruence. Qed.

Lemma mem_In (x : string) (l : list string) : mem x l = true <-> In x l.
Proof.
  unfold mem. rewrite existsb_exists. split.
  - intros [y [Hy Heq]]. apply String.eqb_eq in Heq. now subst.
  - intros Hx. exists x. split; [exact Hx | apply String.eqb_refl].
Qed.

Lemma mem_false (x : string) (l : list string) : mem x l = false <-> ~ In x l.
Proof.
  rewrite <- mem_In. destruct (mem x l); split; congruence.
Qed.

Lemma accumulate_step (d : dict Q) (k a : string) (v x : Q) :
  v == dict_get d k 0 + x ->
  dict_get (dict_set d k v) a 0 == dict_get d a 0 + (if String.eqb a k then x else 0).
Proof.
  intros Hv. rewrite dict_get_set.
  destruct (String.eqb a k) eqn:Hak.
  - apply String.eqb_eq in Hak; subst a. exact Hv.
  - ring.
Qed.

(** A loop that adds one contribution per row to the entry of the row's
    author and skips the rows without author. *)
Section Accumulate.
Context {R : Type}.
Variable body : dict Q -> R -> result (dict Q).
Variable author : R -> string.
Variable contribution : R -> Q.
Variable accepted : R -> Prop.

Hypothesis body_updates : forall d row d1,
  body d row = Ok d1 ->
  (truthy (author row) = false /\ d1 = d)
  \/ (truthy (author row) = true
      /\ exists v, d1 = dict_set d (author row) v
                   /\ v == dict_get d (author row) 0 + contribution row).
Hypothesis body_returns : forall d row, accepted row -> exists d1, body d row = Ok d1.
Hypothesis body_raises : forall d row, ~ accepted row -> body d row = Raise ValueError.

Lemma accumulate_get (rows : list R) : forall d d' a,
  for_each body rows d = Ok d' ->
  dict_get d' a 0
  == dict_get d a 0
     + (if truthy a then contributions author contribution a rows else 0).
Proof.
  unfold contributions.
  induction rows as [|row rows IH]; simpl; intros d d' a Hrun.
  - inversion Hrun; subst. destruct (truthy a); simpl; ring.
  - destruct (body d row) as [d1|e] eqn:Hbody; simpl in Hrun; [|discriminate].
    rewrite (IH _ _ a Hrun).
    destruct (body_updates _ _ _ Hbody) as [[Hno ->]|[Hyes [v [-> Hv]]]].
    + destruct (String.eqb a (author row)) eqn:Ha; [|reflexivity].
      apply String.eqb_eq in Ha; subst a. rewrite Hno. reflexivity.
    + rewrite (accumulate_step d (author row) a v (contribution row) Hv).
      destruct (String.eqb a (author row)) eqn:Ha.
      * apply String.eqb_eq in Ha; subst a. rewrite Hyes. simpl. ring.
      * destruct (truthy a); ring.
Qed.

Lemma accumulate_keys (rows : list R) : forall d d' a,
  for_each body rows d = Ok d' ->
  In a (keys d') <-> In a (keys d) \/ (a <> "" /\ In a (map author rows)).
Proof.
  induction rows as [|row rows IH]; simpl; intros d d' a Hrun.
  - inversion Hrun; subst. tauto.
  - destruct (body d row) as [d1|e] eqn:Hbody; simpl in Hrun; [|discriminate].
    rewrite (IH _ _ a Hrun).
    destruct (body_updates _ _ _ Hbody) as [[Hno ->]|[Hyes [v [-> Hv]]]].
    + apply truthy_false in Hno. intuition congruence.
    + apply truthy_true in Hyes. rewrite keys_dict_set.
      intuition (subst; auto).
Qed.

Lemma accumulate_NoDup (rows : list R) : forall d d',
  for_each body rows d = Ok d' -> NoDup (keys d) -> NoDup (keys d').
Proof.
  induction rows as [|row rows IH]; simpl; intros d d' Hrun Hd.
  - now inversion Hrun; subst.
  - destruct (body d row) as [d1|e] eqn:Hbody; simpl in Hrun; [|discriminate].
    apply (IH _ _ Hrun).
    destruct (body_updates _ _ _ Hbody) as [[Hno ->]|[Hyes [v [-> Hv]]]];
      [exact Hd | now apply NoDup_keys_dict_set].
Qed.

Lemma accumulate_returns (rows : list R) : forall d,
  Forall accepted rows -> exists d', for_each body rows d = Ok d'.
Proof.
  induction rows as [|row rows IH]; simpl; intros d Hrows.
  - now exists d.
  - inversion Hrows as [|? ? Hrow Hrest]; subst.
    destruct (body_returns d row Hrow) as [d1 ->]. simpl. now apply IH.
Qed.

Lemma accumulate_raises (rows : list R) : forall d,
  Exists (fun row => ~ accepted row) rows ->
  for_each body rows d = Raise ValueError.
Proof.
  induction rows as [|row rows IH]; simpl; intros d Hrows.
  - inversion Hrows.
  - destruct (body d row) as [d1|[]] eqn:Hbody; simpl; [|reflexivity].
    inversion Hrows as [? ? Hrow|? ? Hrest]; subst.
    + rewrite (body_raises d row Hrow) in Hbody. discriminate.
    + now apply IH.
Qed.
End Accumulate.

Lemma contributions_scaled {R : Type} (author : R -> string) (f : R -> Q) (w : Q)
  (a : string) (rows : list R) :
  contributions author (fun row => f row * w) a rows
  == contributions author f a rows * w.
Proof.
  unfold contributions.
  induction rows as [|row rows IH]; simpl; [ring|].
  destruct (String.eqb a (author row)); simpl; [rewrite IH; ring | exact IH].
Qed.

Section InfluenceLoops.
Context `{Externals}.

Lemma add_post_score_updates (d : dict Q) (row : Post) (d1 : dict Q) :
  add_post_score d row = Ok d1 ->
  (truthy (post_author row) = false /\ d1 = d)
  \/ (truthy (post_author row) = true
      /\ exists v, d1 = dict_set d (post_author row) v
                   /\ v == dict_get d (post_author row) 0
                           + score_of (post_score row)).
Proof.
  unfold add_post_score, score_of.
  destruct (py_float (post_score row)) as [score|]; [|discriminate].
  intros Hd1. inversion Hd1; subst; clear Hd1.
  destruct (truthy (post_author row)); [right | left; tauto].
  split; [reflexivity|]. eexists. split; reflexivity.
Qed.

Lemma add_comment_score_updates (d : dict Q) (row : Comment) (d1 : dict Q) :
  add_comment_score d row = Ok d1 ->
  (truthy (comment_author row) = false /\ d1 = d)
  \/ (truthy (comment_author row) = true
      /\ exists v, d1 = dict_set d (comment_author row) v
                   /\ v == dict_get d (comment_author row) 0
                           + score_of (comment_score row) * (1 # 2)).
Proof.
  unfold add_comment_score, score_of.
  destruct (py_float (comment_score row)) as [score|]; [|discriminate].
  intros Hd1. inversion Hd1; subst; clear Hd1.
  destruct (truthy (comment_author row)); [right | left; tauto].
  split; [reflexivity|]. eexists. split; reflexivity.
Qed.

Lemma add_post_score_returns (d : dict Q) (row : Post) :
  parses (post_score row) -> exists d1, add_post_score d row = Ok d1.
Proof.
  unfold parses, add_post_score.
  destruct (py_float (post_score row)); [eauto | congruence].
Qed.

Lemma add_comment_score_returns (d : dict Q) (row : Comment) :
  parses (comment_score row) -> exists d1, add_comment_score d row = Ok d1.
Proof.
  unfold parses, add_comment_score.
  destruct (py_float (comment_score row)); [eauto | congruence].
Qed.

(** The fourth loop adds [centrality[node] * 100] once per key. *)
Lemma centrality_loop_get (c : dict Q) (ks : list string) : forall d a,
  NoDup ks ->
  dict_get
    (fold_left (fun influence node =>
                  dict_set influence node
                    (dict_get influence node 0 + dict_get c node 0 * 100))
               ks d) a 0
  == dict_get d a 0 + (if mem a ks then dict_get c a 0 * 100 else 0).
Proof.
  induction ks as [|k ks IH]; simpl; intros d a Hks.
  - ring.
  - inversion Hks as [|? ? Hk Hks']; subst.
    rewrite (IH _ a Hks').
    rewrite (accumulate_step d k a _ (dict_get c k 0 * 100)) by reflexivity.
    unfold mem at 2. simpl. fold (mem a ks).
    destruct (String.eqb a k) eqn:Hak; simpl; [|ring].
    apply String.eqb_eq in Hak; subst a.
    apply mem_false in Hk. rewrite Hk. ring.
Qed.

Lemma centrality_loop_keys (c : dict Q) (ks : list string) : forall d a,
  In a (keys (fold_left (fun influence node =>
                           dict_set influence node
                             (dict_get influence node 0 + dict_get c node 0 * 100))
                        ks d))
  <-> In a (keys d) \/ In a ks.
Proof.
  induction ks as [|k ks IH]; simpl; intros d a; [tauto|].
  rewrite IH, keys_dict_set. intuition.
Qed.

Lemma centrality_loop_NoDup (c : dict Q) (ks : list string) : forall d,
  NoDup (keys d) ->
  NoDup (keys (fold_left (fun influence node =>
                            dict_set influence node
                              (dict_get influence node 0 + dict_get c node 0 * 100))
                         ks d)).
Proof.
  induction ks as [|k ks IH]; simpl; intros d Hd; [exact Hd|].
  apply IH. now apply NoDup_keys_dict_set.
Qed.

Lemma keys_betweenness_centrality (G : DiGraph) :
  keys (betweenness_centrality G) = nodes G.
Proof.
  unfold keys, betweenness_centrality. rewrite map_map. simpl. apply map_id.
Qed.

Lemma dict_get_betweenness_centrality (G : DiGraph) (a : string) :
  In a (nodes G) -> dict_get (betweenness_centrality G) a 0 = betweenness G a.
Proof.
  unfold betweenness_centrality.
  induction (nodes G) as [|v vs IH]; simpl; [tauto|].
  intros Ha. destruct (String.eqb a v) eqn:Hav.
  - apply String.eqb_eq in Hav. now subst.
  - apply String.eqb_neq in Hav. apply IH. intuition congruence.
Qed.
End InfluenceLoops.

(* ================================================================== *)
(** * The reply graph                                                  *)
(* ================================================================== *)

Lemma edge_eqb_eq (e f : string * string) : edge_eqb e f = true <-> e = f.
Proof.
  destruct e as [u v], f as [u' v']. unfold edge_eqb. simpl.
  rewrite andb_true_iff, !String.eqb_eq. split.
  - intros [-> ->]. reflexivity.
  - intros Heq. inversion Heq. tauto.
Qed.

Lemma has_edge_In (G : DiGraph) (u v : string) :
  has_edge G u v = true <-> In (u, v) (edges G).
Proof.
  unfold has_edge. rewrite existsb_exists. split.
  - intros [e [He Heq]]. apply edge_eqb_eq in Heq. now subst.
  - intros Huv. exists (u, v). split; [exact Huv | now apply edge_eqb_eq].
Qed.

Lemma edges_add_edge (G : DiGraph) (u v : string) (e : string * string) :
  In e (edges (add_edge G u v)) <-> In e (edges G) \/ e = (u, v).
Proof.
  unfold add_edge. simpl.
  destruct (has_edge G u v) eqn:Huv.
  - apply has_edge_In in Huv. split; [tauto|]. intros [He| ->]; assumption.
  - rewrite in_app_iff. simpl. intuition.
Qed.

Lemma NoDup_add_node (l : list string) (v : string) :
  NoDup l -> NoDup (add_node l v).
Proof.
  intros Hl. unfold add_node. destruct (mem v l) eqn:Hv; [exact Hl|].
  apply mem_false in Hv.
  apply NoDup_app; [exact Hl | repeat constructor; simpl; tauto |].
  intros x Hx [<-|[]]. contradiction.
Qed.

Lemma NoDup_nodes_add_edge (G : DiGraph) (u v : string) :
  NoDup (nodes G) -> NoDup (nodes (add_edge G u v)).
Proof. intros HG. simpl. now do 2 apply NoDup_add_node. Qed.

Lemma prefix_cons (a b : ascii) (p s : string) :
  String.prefix (String a p) (String b s)
  = if Ascii.eqb a b then String.prefix p s else false.
Proof.
  cbn [String.prefix].
  destruct (ascii_dec a b), (Ascii.eqb_spec a b); congruence.
Qed.

Lemma startswith_truthy (s p : string) :
  truthy p = true -> startswith s p = true -> truthy s = true.
Proof. destruct p, s; simpl; congruence. Qed.

(** When a comment row adds an edge, and which. *)
Lemma reply_edge_Some (comments : list Comment) (row : Comment) (u v : string) :
  reply_edge comments row = Some (u, v)
  <-> comment_author row <> ""
      /\ startswith (comment_parent_id row) "t1_" = true
      /\ exists parent,
           find (fun c => String.eqb (comment_id c)
                            (string_drop 3 (comment_parent_id row))) comments
           = Some parent
           /\ u = comment_author row /\ v = comment_author parent.
Proof.
  unfold reply_edge, parent_author. rewrite <- truthy_true.
  destruct (truthy (comment_author row)); simpl;
    [|split; [discriminate | intros [? _]; discriminate]].
  destruct (startswith (comment_parent_id row) "t1_") eqn:Hprefix.
  - rewrite (startswith_truthy _ "t1_" eq_refl Hprefix). simpl.
    destruct (find _ comments) as [parent|]; simpl.
    + split.
      * intros Heq. inversion Heq; subst. eauto 6.
      * intros [_ [_ [parent' [Hp [-> ->]]]]]. inversion Hp; subst. reflexivity.
    + split; [discriminate|]. intros [_ [_ [parent' [Hp _]]]]. discriminate.
  - rewrite andb_false_r.
    split; [discriminate | intros [_ [? _]]; discriminate].
Qed.

Lemma reply_edge_None (comments : list Comment) (row : Comment) :
  reply_edge comments row = None
  <-> comment_author row = ""
      \/ startswith (comment_parent_id row) "t1_" = false
      \/ find (fun c => String.eqb (comment_id c)
                          (string_drop 3 (comment_parent_id row))) comments
         = None.
Proof.
  destruct (reply_edge comments row) as [[u v]|] eqn:Hedge.
  - apply reply_edge_Some in Hedge.
    destruct Hedge as [Ha [Hp [parent [Hf _]]]].
    split; [discriminate|]. intros [?|[?|?]]; congruence.
  - split; [|reflexivity]. intros _.
    destruct (string_dec (comment_author row) "") as [?|Ha]; [tauto|].
    destruct (startswith (comment_parent_id row) "t1_") eqn:Hp; [|tauto].
    destruct (find (fun c => String.eqb (comment_id c)
                               (string_drop 3 (comment_parent_id row))) comments)
      as [parent|] eqn:Hf; [|tauto].
    assert (Hsome : reply_edge comments row
                    = Some (comment_author row, comment_author parent)).
    { apply reply_edge_Some. eauto 8. }
    congruence.
Qed.

(** The edges after the third loop has read [rows], started from [G]. *)
Lemma reply_loop_edges (all rows : list Comment) : forall G e,
  In e (edges (fold_left (fun G row =>
                            match reply_edge all row with
                            | Some (author, parent) => add_edge G author parent
                            | None => G
                            end) rows G))
  <-> In e (edges G) \/ exists row, In row rows /\ reply_edge all row = Some e.
Proof.
  induction rows as [|row rows IH]; simpl; intros G e.
  - split; [tauto|]. intros [?|[row [[] _]]]. assumption.
  - rewrite IH. destruct (reply_edge all row) as [[u v]|] eqn:Hrow.
    + rewrite edges_add_edge. split.
      * intros [[He| ->]|[r [Hr Hedge]]]; eauto.
      * intros [He|[r [[<-|Hr] Hedge]]]; eauto.
        rewrite Hrow in Hedge. inversion Hedge. tauto.
    + split.
      * intros [He|[r [Hr Hedge]]]; eauto.
      * intros [He|[r [[<-|Hr] Hedge]]]; eauto. congruence.
Qed.

Lemma reply_loop_NoDup (all rows : list Comment) : forall G,
  NoDup (nodes G) ->
  NoDup (nodes (fold_left (fun G row =>
                             match reply_edge all row with
                             | Some (author, parent) => add_edge G author parent
                             | None => G
                             end) rows G)).
Proof.
  induction rows as [|row rows IH]; simpl; intros G HG; [exact HG|].
  apply IH. destruct (reply_edge all row) as [[u v]|]; [|exact HG].
  now apply NoDup_nodes_add_edge.
Qed.

Lemma NoDup_nodes_reply_graph (comments : list Comment) :
  NoDup (nodes (reply_graph comments)).
Proof. apply reply_loop_NoDup. constructor. Qed.

Lemma reply_network_graph (comments : list Comment) :
  reply_network comments = reply_graph comments.
Proof. now destruct comments. Qed.

Lemma referenced_parent_None (comments : list Comment) (row : Comment) :
  referenced_parent comments row = None
  <-> forall c, In c comments ->
                comment_id c <> string_drop 3 (comment_parent_id row).
Proof.
  unfold referenced_parent. split.
  - intros Hnone c Hc Heq.
    apply (find_none _ _ Hnone) in Hc. apply String.eqb_neq in Hc. contradiction.
  - intros Hall.
    destruct (find _ comments) as [parent|] eqn:Hfind; [|reflexivity].
    apply find_some in Hfind. destruct Hfind as [Hin Heq].
    apply String.eqb_eq in Heq. exfalso. exact (Hall parent Hin Heq).
Qed.

(** C2. The reply graph has the edge author(child) -> author(parent) exactly
    for the comment rows that have an author, whose [parent_id] starts with
    the comment prefix ["t1_"] and whose referenced parent comment is in the
    corpus.  A row without author, a row whose [parent_id] lacks that prefix
    (in particular one with the post prefix ["t3_"]) and a row whose parent is
    not in the corpus add no edge; building the graph is a total function, so
    none of them raises. *)
Theorem reply_graph_edges (comments : list Comment) :
  (forall u v,
      In (u, v) (edges (reply_graph comments))
      <-> exists row parent,
            In row comments
            /\ comment_author row <> ""
            /\ startswith (comment_parent_id row) "t1_" = true
            /\ referenced_parent comments row = Some parent
            /\ u = comment_author row /\ v = comment_author parent)
  /\ (forall row,
         comment_author row = ""
         \/ startswith (comment_parent_id row) "t1_" = false
         \/ referenced_parent comments row = None
         -> reply_edge comments row = None)
  /\ (forall row,
         startswith (comment_parent_id row) "t3_" = true ->
         reply_edge comments row = None)
  /\ (forall row,
         referenced_parent comments row = None
         <-> forall c, In c comments ->
                       comment_id c <> string_drop 3 (comment_parent_id row)).
Proof.
  split; [|split; [|split]].
  - intros u v. unfold reply_graph. rewrite reply_loop_edges. simpl. split.
    + intros [[]|[row [Hrow Hedge]]].
      apply reply_edge_Some in Hedge.
      destruct Hedge as [Ha [Hp [parent [Hf [Hu Hv]]]]].
      exists row, parent. tauto.
    + intros [row [parent [Hrow [Ha [Hp [Hf [Hu Hv]]]]]]].
      right. exists row. split; [exact Hrow|].
      apply reply_edge_Some. eauto 8.
  - intros row Hskip. now apply reply_edge_None.
  - intros row Hpost. apply reply_edge_None. right. left.
    unfold startswith in *.
    destruct (comment_parent_id row) as [|c1 [|c2 s]]; [reflexivity| |];
      rewrite !prefix_cons in *;
      (destruct (Ascii.eqb_spec "t" c1) as [_|]; [|reflexivity]).
    + discriminate Hpost.
    + destruct (Ascii.eqb_spec "3" c2) as [Heq|];
        [subst c2; reflexivity | discriminate Hpost].
  - intros row. apply referenced_parent_None.
Qed.

Lemma reply_graph_edges_witness :
  In ("bob", "alice") (edges (reply_graph sample_comments))
  /\ reply_edge sample_comments (mkComment "a" "good" "alice" "t3_p1" "10") = None.
Proof.
  destruct (reply_graph_edges sample_comments) as [Hedges [_ [Hpost _]]].
  split.
  - apply Hedges.
    exists (mkComment "b" "bad" "bob" "t1_a" "4"),
           (mkComment "a" "good" "alice" "t3_p1" "10").
    simpl. repeat split; try reflexivity; [tauto | discriminate].
  - apply Hpost. reflexivity.
Defined.

(* ================================================================== *)
(** * The influence table                                              *)
(* ================================================================== *)

Lemma In_firstn {A : Type} (n : nat) (l : list A) (x : A) :
  In x (firstn n l) -> In x l.
Proof.
  revert n. induction l as [|y l IH]; intros [|n]; simpl; try tauto.
  intros [->|Hx]; [now left | right; eauto].
Qed.

Section InfluenceTable.
Context `{Externals}.

Lemma score_table_eq (posts : list Post) (comments : list Comment) :
  score_table posts comments
  = (influence <- for_each add_post_score posts [] ;;
     for_each add_comment_score comments influence).
Proof.
  unfold score_table. rewrite for_each_nil_guard.
  destruct (for_each add_post_score posts []) as [d|e]; simpl; [|reflexivity].
  now destruct comments.
Qed.

Lemma influence_table_eq (posts : list Post) (comments : list Comment) :
  influence_table posts comments
  = (influence <- score_table posts comments ;;
     Ok (add_centrality (betweenness_centrality (reply_graph comments)) influence)).
Proof.
  unfold influence_table. rewrite reply_network_graph.
  destruct (score_table posts comments) as [d|e]; simpl; [|reflexivity].
  unfold add_centrality. rewrite keys_betweenness_centrality.
  now destruct (nodes (reply_graph comments)).
Qed.

Lemma get_user_influence_eq (posts : list Post) (comments : list Comment)
  (limit : nat) :
  get_user_influence posts comments limit
  = (influence <- influence_table posts comments ;;
     Ok (head limit (sorted_by_score_reverse influence))).
Proof.
  unfold get_user_influence.
  destruct posts, comments; simpl; try reflexivity.
  now destruct limit.
Qed.

Lemma score_table_returns (posts : list Post) (comments : list Comment) :
  scores_parse posts comments -> exists scores, score_table posts comments = Ok scores.
Proof.
  intros [Hposts Hcomments]. rewrite score_table_eq.
  destruct (accumulate_returns add_post_score (fun p => parses (post_score p))
              (fun d row => add_post_score_returns d row) posts [] Hposts)
    as [d ->].
  simpl.
  exact (accumulate_returns add_comment_score (fun c => parses (comment_score c))
           (fun d row => add_comment_score_returns d row) comments d Hcomments).
Qed.

Lemma get_user_influence_returns (posts : list Post) (comments : list Comment)
  (limit : nat) :
  scores_parse posts comments ->
  exists out, get_user_influence posts comments limit = Ok out.
Proof.
  intros Hparse. rewrite get_user_influence_eq, influence_table_eq.
  destruct (score_table_returns posts comments Hparse) as [scores ->].
  simpl. eauto.
Qed.

(** What the first two loops leave in the table. *)
Lemma score_table_spec (posts : list Post) (comments : list Comment)
  (scores : dict Q) :
  score_table posts comments = Ok scores ->
  NoDup (keys scores)
  /\ (forall a, In a (keys scores) <-> a <> "" /\ authored a posts comments)
  /\ (forall a, dict_get scores a 0
                == if truthy a
                   then post_score_sum a posts * 1
                        + comment_score_sum a comments * (1 # 2)
                   else 0).
Proof.
  rewrite score_table_eq.
  destruct (for_each add_post_score posts []) as [d|e] eqn:Hposts; simpl;
    [|discriminate].
  intros Hcomments. split; [|split].
  - apply (accumulate_NoDup add_comment_score comment_author _
             add_comment_score_updates comments d scores Hcomments).
    apply (accumulate_NoDup add_post_score post_author _
             add_post_score_updates posts [] d Hposts).
    constructor.
  - intros a.
    rewrite (accumulate_keys add_comment_score comment_author _
               add_comment_score_updates comments d scores a Hcomments).
    rewrite (accumulate_keys add_post_score post_author _
               add_post_score_updates posts [] d a Hposts).
    unfold authored. simpl. tauto.
  - intros a.
    rewrite (accumulate_get add_comment_score comment_author _
               add_comment_score_updates comments d scores a Hcomments).
    rewrite (accumulate_get add_post_score post_author _
               add_post_score_updates posts [] d a Hposts).
    simpl. destruct (truthy a); [|ring].
    rewrite contributions_scaled.
    unfold post_score_sum, comment_score_sum. ring.
Qed.

(** What the table holds when the sort is reached. *)
Lemma influence_table_spec (posts : list Post) (comments : list Comment)
  (table : dict Q) :
  influence_table posts comments = Ok table ->
  exists scores,
    score_table posts comments = Ok scores
    /\ NoDup (keys table)
    /\ (forall a, In a (keys table)
                  <-> In a (keys scores) \/ In a (nodes (reply_graph comments)))
    /\ (forall a, dict_get table a 0
                  == dict_get scores a 0 + centrality_of a comments * 100).
Proof.
  rewrite influence_table_eq.
  destruct (score_table posts comments) as [scores|e] eqn:Hscores; simpl;
    [|discriminate].
  intros Htable. inversion Htable; subst; clear Htable.
  destruct (score_table_spec _ _ _ Hscores) as [Hnodup _].
  exists scores. unfold add_centrality.
  rewrite keys_betweenness_centrality.
  split; [reflexivity|]. split; [|split].
  - now apply centrality_loop_NoDup.
  - intros a. apply centrality_loop_keys.
  - intros a.
    rewrite centrality_loop_get by apply NoDup_nodes_reply_graph.
    unfold centrality_of.
    destruct (mem a (nodes (reply_graph comments))) eqn:Ha; [|ring].
    apply mem_In in Ha. rewrite (dict_get_betweenness_centrality _ _ Ha).
    reflexivity.
Qed.

Lemma influence_entry (posts : list Post) (comments : list Comment)
  (table : dict Q) (a : string) (s : Q) :
  influence_table posts comments = Ok table ->
  In (a, s) table -> a <> "" -> s == weighted_score a posts comments.
Proof.
  intros Htable Hin Ha.
  destruct (influence_table_spec _ _ _ Htable)
    as [scores [Hscores [Hnodup [_ Hget]]]].
  destruct (score_table_spec _ _ _ Hscores) as [_ [_ Hsum]].
  rewrite <- (dict_get_In table a s 0 Hnodup Hin).
  rewrite Hget, Hsum.
  apply truthy_true in Ha. rewrite Ha. reflexivity.
Qed.
End InfluenceTable.

Ltac evaluate_parses :=
  unfold scores_parse; split; repeat constructor; unfold parses; simpl; discriminate.

(** C8. When every score cell is a number, [get_user_influence] returns; what
    it returns is the first [limit] entries (all of them when there are
    fewer) of the (author, total_score) pairs of the influence table put in
    descending order of score, entries of equal score staying in the order
    in which the table holds them. *)
Theorem user_influence_ranking `{Externals}
  (posts : list Post) (comments : list Comment) (limit : nat) :
  (scores_parse posts comments ->
   exists out, get_user_influence posts comments limit = Ok out)
  /\ forall out,
       get_user_influence posts comments limit = Ok out ->
       exists table ranked,
         influence_table posts comments = Ok table
         /\ Permutation ranked table
         /\ StronglySorted by_score_desc ranked
         /\ (forall q, filter (tied_at q) ranked = filter (tied_at q) table)
         /\ out = firstn limit ranked
         /\ List.length out = Nat.min limit (List.length table).
Proof.
  split; [apply get_user_influence_returns|].
  intros out. rewrite get_user_influence_eq.
  destruct (influence_table posts comments) as [table|e]; simpl; [|discriminate].
  intros Hout. inversion Hout; subst; clear Hout.
  exists table, (sorted_by_score_reverse table).
  unfold sorted_by_score_reverse, head.
  split; [reflexivity|]. split; [apply stable_sort_perm|]. split; [|split; [|split]].
  - eapply StronglySorted_impl;
      [|apply stable_sort_sorted; [apply score_ge_total | apply score_ge_trans]].
    intros x y. unfold score_ge, by_score_desc. apply Qle_bool_iff.
  - intros q. apply stable_sort_stable.
    intros x y. unfold tied_at, score_ge.
    rewrite !Qeq_bool_iff, Qle_bool_iff. intros -> ->. apply Qle_refl.
  - reflexivity.
  - now rewrite length_firstn, stable_sort_length.
Qed.

Lemma user_influence_ranking_witness :
  scores_parse sample_posts sample_comments
  /\ exists out,
       get_user_influence sample_posts sample_comments 2 = Ok out
       /\ exists table ranked,
            influence_table sample_posts sample_comments = Ok table
            /\ Permutation ranked table
            /\ StronglySorted by_score_desc ranked
            /\ (forall q, filter (tied_at q) ranked = filter (tied_at q) table)
            /\ out = firstn 2 ranked
            /\ List.length out = Nat.min 2 (List.length table).
Proof.
  split; [evaluate_parses|].
  destruct (user_influence_ranking sample_posts sample_comments 2)
    as [Hreturns Hranked].
  destruct Hreturns as [out Hout]; [evaluate_parses|].
  exists out. split; [exact Hout | exact (Hranked out Hout)].
Defined.

(** C1, as it fails: the entry of the empty-string author, which the reply
    graph creates when somebody answers a comment stored without author,
    holds the centrality term only, although that author has a comment of
    score 10. *)
Lemma influence_score_formula_fails_without_author :
  exists out s,
    get_user_influence [] orphan_thread 5 = Ok out
    /\ In ("", s) out
    /\ ~ s == weighted_score "" [] orphan_thread.
Proof.
  exists [("bob", 0 + 4 * (1 # 2) + 0 * 100); ("", 0 + 0 * 100)], (0 + 0 * 100).
  split; [reflexivity|]. split; [simpl; tauto|].
  vm_compute. discriminate.
Qed.

(** C1, amended. When every score cell is a number, [get_user_influence]
    returns, and the score it gives to an author other than the empty string
    is (sum of the author's post scores) * 1.0 + (sum of the author's comment
    scores) * 0.5 + (the author's betweenness in the reply graph) * 100, a
    signal in which the author does not occur counting 0; no author is listed
    twice. *)
Theorem influence_score_formula `{Externals}
  (posts : list Post) (comments : list Comment) (limit : nat) :
  (scores_parse posts comments ->
   exists out, get_user_influence posts comments limit = Ok out)
  /\ forall out,
       get_user_influence posts comments limit = Ok out ->
       NoDup (keys out)
       /\ forall a s, In (a, s) out -> a <> "" ->
                      s == weighted_score a posts comments.
Proof.
  split; [apply get_user_influence_returns|].
  intros out. rewrite get_user_influence_eq.
  destruct (influence_table posts comments) as [table|e] eqn:Htable; simpl;
    [|discriminate].
  intros Hout. inversion Hout; subst; clear Hout.
  unfold head, sorted_by_score_reverse. split.
  - destruct (influence_table_spec _ _ _ Htable) as [_ [_ [Hnodup _]]].
    assert (Hsorted : NoDup (keys (stable_sort score_ge table))).
    { unfold keys. eapply Permutation_NoDup; [|exact Hnodup].
      apply Permutation_map, Permutation_sym, stable_sort_perm. }
    revert Hsorted. unfold keys.
    rewrite <- (firstn_skipn limit (stable_sort score_ge table)) at 1.
    rewrite map_app. apply NoDup_app_remove_r.
  - intros a s Hin Ha.
    apply In_firstn, stable_sort_In in Hin.
    exact (influence_entry _ _ _ _ _ Htable Hin Ha).
Qed.

Lemma influence_score_formula_witness :
  scores_parse sample_posts sample_comments
  /\ (exists out, get_user_influence sample_posts sample_comments 5 = Ok out)
  /\ 208 # 4 == weighted_score "bob" sample_posts sample_comments.
Proof.
  destruct (influence_score_formula sample_posts sample_comments 5)
    as [Hreturns Hformula].
  split; [evaluate_parses|]. split; [apply Hreturns; evaluate_parses|].
  apply (proj2 (Hformula [("bob", 208 # 4); ("alice", 60 # 4);
                          ("[deleted]", 5); ("carol", -6 # 4)]
                         eq_refl) "bob" (208 # 4)).
  - simpl. tauto.
  - discriminate.
Defined.

(** C6, as it fails: a post stored with the empty string as author adds
    nothing to the table and is absent from the output, while the same kind
    of post under the ["[deleted]"] sentinel is scored. *)
Lemma empty_author_is_filtered :
  get_user_influence [authorless_post] [] 5 = Ok []
  /\ get_user_influence [deleted_author_post] [] 5 = Ok [("[deleted]", 0 + 5)].
Proof. split; reflexivity. Qed.

(** C6, amended. Every author other than the empty string, the
    ["[deleted]"] sentinel included, has an entry in the influence table as
    soon as they wrote a post or a comment, and is listed in the output when
    [limit] does not cut the ranking short; the rows whose author is the empty
    string are skipped by the two score loops (the [if author] guard), so the
    score table has no entry for it. *)
Theorem influence_author_keys `{Externals}
  (posts : list Post) (comments : list Comment) (limit : nat)
  (out : list (string * Q)) :
  get_user_influence posts comments limit = Ok out ->
  exists scores table,
    score_table posts comments = Ok scores
    /\ influence_table posts comments = Ok table
    /\ (forall a, In a (keys scores) <-> a <> "" /\ authored a posts comments)
    /\ (forall a, In a (keys table)
                  <-> In a (keys scores) \/ In a (nodes (reply_graph comments)))
    /\ (authored "[deleted]" posts comments -> In "[deleted]" (keys table))
    /\ ((List.length table <= limit)%nat ->
        forall a, In a (keys out) <-> In a (keys table)).
Proof.
  rewrite get_user_influence_eq.
  destruct (influence_table posts comments) as [table|e] eqn:Htable; simpl;
    [|discriminate].
  intros Hout. inversion Hout; subst; clear Hout.
  destruct (influence_table_spec _ _ _ Htable)
    as [scores [Hscores [_ [Hkeys _]]]].
  destruct (score_table_spec _ _ _ Hscores) as [_ [Hauthors _]].
  exists scores, table.
  split; [exact Hscores|]. split; [reflexivity|].
  split; [exact Hauthors|]. split; [exact Hkeys|]. split.
  - intros Hdeleted. apply Hkeys. left. apply Hauthors.
    split; [discriminate | exact Hdeleted].
  - intros Hlimit a. unfold head, sorted_by_score_reverse.
    rewrite firstn_all2 by now rewrite stable_sort_length.
    unfold keys. rewrite !in_map_iff.
    split; intros [entry [Hentry Hin]]; exists entry; split; try exact Hentry;
      now apply (stable_sort_In score_ge).
Qed.

Lemma influence_author_keys_witness :
  In "[deleted]"
     (keys [("bob", 208 # 4); ("alice", 60 # 4); ("[deleted]", 5);
            ("carol", -6 # 4)]).
Proof.
  destruct (influence_author_keys (H := reference_routines)
              sample_posts sample_comments 5
              [("bob", 208 # 4); ("alice", 60 # 4); ("[deleted]", 5);
               ("carol", -6 # 4)] eq_refl)
    as [scores [table [_ [Htable [_ [_ [Hdeleted Hout]]]]]]].
  vm_compute in Htable. inversion Htable; subst table; clear Htable.
  apply Hout.
  - simpl. lia.
  - apply Hdeleted. left. simpl. tauto.
Defined.

(* ================================================================== *)
(** * The frequency ranker                                             *)
(* ================================================================== *)

Lemma bump_dict_set (v : string) (counts : list (string * nat)) :
  bump v counts = dict_set counts v (S (dict_get counts v 0%nat)).
Proof.
  induction counts as [|[v' n] counts IH]; simpl; [reflexivity|].
  destruct (String.eqb v v'); [reflexivity | now rewrite IH].
Qed.

Lemma count_app (a : string) (l1 l2 : list string) :
  count a (l1 ++ l2) = (count a l1 + count a l2)%nat.
Proof. unfold count. now rewrite filter_app, length_app. Qed.

Lemma count_pos (a : string) (l : list string) : (0 < count a l)%nat <-> In a l.
Proof.
  unfold count. induction l as [|x l IH]; simpl; [split; [lia | tauto]|].
  destruct (String.eqb a x) eqn:Hax; simpl.
  - apply String.eqb_eq in Hax. subst. split; [tauto | lia].
  - apply String.eqb_neq in Hax. rewrite IH. intuition congruence.
Qed.

Lemma In_dict_get {V : Type} (d : dict V) (k : string) (default : V) :
  In k (keys d) -> In (k, dict_get d k default) d.
Proof.
  unfold keys. induction d as [|[k0 v0] d IH]; simpl; [tauto|].
  destruct (String.eqb k k0) eqn:Hk.
  - apply String.eqb_eq in Hk. subst. tauto.
  - apply String.eqb_neq in Hk. intros [?|Hin]; [congruence | right; now apply IH].
Qed.

Lemma tally_loop (column : list string) : forall counts,
  let counts' := fold_left (fun counts v => bump v counts) column counts in
  (NoDup (keys counts) -> NoDup (keys counts'))
  /\ (forall a, In a (keys counts') <-> In a (keys counts) \/ In a column)
  /\ (forall a, dict_get counts' a 0 = dict_get counts a 0 + count a column)%nat.
Proof.
  induction column as [|v column IH]; simpl; intros counts.
  - split; [tauto|]. split; [tauto|]. intros a. unfold count. simpl. lia.
  - destruct (IH (bump v counts)) as [Hnodup [Hkeys Hget]].
    rewrite bump_dict_set in *.
    split; [|split].
    + intros Hcounts. now apply Hnodup, NoDup_keys_dict_set.
    + intros a. rewrite Hkeys, keys_dict_set. intuition.
    + intros a. rewrite Hget, dict_get_set.
      change (v :: column) with ([v] ++ column). rewrite count_app.
      unfold count at 2. simpl.
      destruct (String.eqb a v) eqn:Hav; simpl; [|lia].
      apply String.eqb_eq in Hav. subst. lia.
Qed.

Lemma tally_spec (column : list string) :
  NoDup (keys (tally column))
  /\ forall v c, In (v, c) (tally column) <-> (c = count v column /\ 0 < c)%nat.
Proof.
  destruct (tally_loop column []) as [Hnodup [Hkeys Hget]].
  fold (tally column) in *. simpl in *.
  assert (Hd : NoDup (keys (tally column))) by (apply Hnodup; constructor).
  split; [exact Hd|]. intros v c. split.
  - intros Hin.
    assert (Hv : In v column).
    { apply (in_map fst) in Hin. apply Hkeys in Hin. simpl in Hin. tauto. }
    rewrite <- (dict_get_In _ _ _ 0%nat Hd Hin), Hget.
    split; [reflexivity | now apply count_pos].
  - intros [-> Hpos]. apply count_pos in Hpos.
    rewrite <- Hget. apply In_dict_get. apply Hkeys. now right.
Qed.

Lemma value_counts_ranked (column : list string) (limit : nat) :
  ranked_counts column limit (head limit (value_counts column)).
Proof.
  destruct (tally_spec column) as [Hnodup Hcount].
  exists (value_counts column). unfold value_counts, head.
  split; [reflexivity|]. split; [|split].
  - eapply StronglySorted_impl;
      [|apply stable_sort_sorted; [apply count_ge_total | apply count_ge_trans]].
    intros x y. unfold count_ge, by_count_desc. apply Nat.leb_le.
  - eapply Permutation_NoDup; [|exact Hnodup].
    apply Permutation_map, Permutation_sym, stable_sort_perm.
  - intros v c. rewrite stable_sort_In. apply Hcount.
Qed.

(** C9, as it fails: a post stored with the empty string as author is
    counted, its value is ranked like any other. *)
Lemma empty_author_is_counted :
  get_top_authors [authorless_post] 5 = [("", 1%nat)].
Proof. reflexivity. Qed.

(** C9, amended. For every posts corpus and limit, [get_top_subreddits] and
    [get_top_authors] return the first [limit] (value, count) pairs of the
    ranking by descending count of the distinct values of the column, where
    every value stored in the column, the empty string included, is counted
    with its number of occurrences; on an empty corpus both return the empty
    sequence. *)
Theorem top_values_ranking (posts : list Post) (limit : nat) :
  ranked_counts (map post_subreddit posts) limit (get_top_subreddits posts limit)
  /\ ranked_counts (map post_author posts) limit (get_top_authors posts limit)
  /\ get_top_subreddits [] limit = []
  /\ get_top_authors [] limit = [].
Proof.
  assert (Hnil : ranked_counts [] limit []).
  { pose proof (value_counts_ranked [] limit) as Hranked.
    unfold head in Hranked. simpl in Hranked.
    now rewrite firstn_nil in Hranked. }
  split; [|split; [|split; reflexivity]];
    (destruct posts as [|p posts]; [exact Hnil | apply value_counts_ranked]).
Qed.

(* ================================================================== *)
(** * Engagement means                                                 *)
(* ================================================================== *)

Section Engagement.
Context `{Externals}.

Lemma astype_float_Ok (column : list string) : forall qs,
  map py_float column = map Some qs -> astype_float column = Ok qs.
Proof.
  induction column as [|s column IH]; intros [|q qs]; simpl; try discriminate.
  - reflexivity.
  - intros Heq. inversion Heq as [[Hs Hrest]].
    now rewrite Hs, (IH qs Hrest).
Qed.

Lemma astype_float_raises (column : list string) :
  Exists (fun s => ~ parses s) column -> astype_float column = Raise ValueError.
Proof.
  unfold parses. induction 1 as [s column Hs|s column _ IH]; simpl.
  - destruct (py_float s); [exfalso; apply Hs; discriminate | reflexivity].
  - rewrite IH. now destruct (py_float s).
Qed.

Lemma astype_float_result (column : list string) :
  (exists qs, astype_float column = Ok qs) \/ astype_float column = Raise ValueError.
Proof.
  destruct (astype_float column) as [qs|[]]; eauto.
Qed.
End Engagement.

(** C5, as it fails: one score cell that is not a number makes the whole
    call raise, where the claim has the mean of the remaining record. *)
Lemma malformed_score_raises :
  get_engagement_metrics malformed_posts = Raise ValueError
  /\ get_engagement_metrics (firstn 1 malformed_posts)
     = Ok (mkEngagement (Float (10 / 1)) (Float (3 / 1))).
Proof. split; reflexivity. Qed.

(** C5, amended. On a non-empty posts corpus whose score and num_comments
    cells all parse as numbers, [get_engagement_metrics] returns the
    arithmetic means of the two columns over all records; as soon as one of
    these cells does not parse, the call raises [ValueError] instead of
    leaving the record out; on the empty corpus both fields are 0. *)
Theorem engagement_means `{Externals} (posts : list Post) :
  get_engagement_metrics [] = Ok (mkEngagement (Int 0) (Int 0))
  /\ (forall scores counts,
         posts <> [] ->
         map py_float (map post_score posts) = map Some scores ->
         map py_float (map post_num_comments posts) = map Some counts ->
         get_engagement_metrics posts
         = Ok (mkEngagement
                 (Float (Qsum scores / of_nat (List.length posts)))
                 (Float (Qsum counts / of_nat (List.length posts)))))
  /\ (Exists (fun p => ~ parses (post_score p) \/ ~ parses (post_num_comments p))
             posts ->
      get_engagement_metrics posts = Raise ValueError).
Proof.
  split; [reflexivity|]. split.
  - intros scores counts Hposts Hscores Hcounts.
    unfold get_engagement_metrics.
    destruct posts as [|p posts]; [congruence|].
    cbn [empty].
    rewrite (astype_float_Ok _ _ Hscores), (astype_float_Ok _ _ Hcounts).
    cbn [bind]. unfold mean, of_nat.
    apply (f_equal (@List.length _)) in Hscores, Hcounts.
    rewrite !length_map in Hscores, Hcounts.
    now rewrite <- Hscores, <- Hcounts.
  - intros Hbad. unfold get_engagement_metrics.
    destruct posts as [|p posts]; [inversion Hbad|].
    cbn [empty].
    apply Exists_or_inv in Hbad. destruct Hbad as [Hscore|Hcount].
    + rewrite astype_float_raises; [reflexivity|]. now apply Exists_map.
    + destruct (astype_float_result (map post_score (p :: posts)))
        as [[scores ->]| ->]; [|reflexivity].
      cbn [bind].
      rewrite astype_float_raises; [reflexivity|]. now apply Exists_map.
Qed.

Lemma engagement_means_witness :
  get_engagement_metrics sample_posts
  = Ok (mkEngagement (Float (Qsum [10; 20; 5] / of_nat 3))
                     (Float (Qsum [3; 1; 2] / of_nat 3)))
  /\ get_engagement_metrics malformed_posts = Raise ValueError.
Proof.
  split.
  - apply (proj1 (proj2 (engagement_means sample_posts)));
      [discriminate | reflexivity | reflexivity].
  - apply (proj2 (proj2 (engagement_means malformed_posts))).
    apply Exists_cons_tl, Exists_cons_hd. left.
    unfold parses. simpl. tauto.
Defined.

(* ================================================================== *)
(** * Sentiment shares                                                 *)
(* ================================================================== *)

Section SentimentCounts.
Context `{Externals}.

Lemma classify_loop (texts : list string) : forall pos neu neg,
  fold_left classify texts (pos, neu, neg)
  = ((pos + Z.of_nat (List.length (filter is_positive texts)))%Z,
     (neu + Z.of_nat (List.length (filter is_neutral texts)))%Z,
     (neg + Z.of_nat (List.length (filter is_negative texts)))%Z).
Proof.
  induction texts as [|text texts IH]; intros pos neu neg.
  - simpl. now rewrite !Z.add_0_r.
  - cbn [fold_left filter]. unfold classify at 2.
    unfold is_positive at 1, is_neutral at 1, is_negative at 1.
    destruct (Qlt_bool 0 (polarity text)); cbn [negb andb];
      [|destruct (Qlt_bool (polarity text) 0); cbn [negb andb]];
      rewrite IH; cbn [List.length]; repeat apply (f_equal2 pair); lia.
Qed.

Lemma classes_partition (texts : list string) :
  (List.length (filter is_positive texts)
   + List.length (filter is_neutral texts)
   + List.length (filter is_negative texts))%nat
  = List.length texts.
Proof.
  induction texts as [|text texts IH]; simpl; [reflexivity|].
  unfold is_positive at 1, is_neutral at 1, is_negative at 1.
  destruct (Qlt_bool 0 (polarity text)); cbn [negb andb];
    [|destruct (Qlt_bool (polarity text) 0); cbn [negb andb]];
    simpl; lia.
Qed.
End SentimentCounts.

Lemma shares_sum (p n g : nat) :
  (0 < p + n + g)%nat ->
  of_nat p / of_nat (p + n + g) + of_nat n / of_nat (p + n + g)
  + of_nat g / of_nat (p + n + g) == 1.
Proof.
  intros Hpos. unfold of_nat.
  rewrite !Nat2Z.inj_add, !inject_Z_plus.
  field. rewrite <- !inject_Z_plus, <- !Nat2Z.inj_add.
  change 0 with (inject_Z 0). rewrite inject_Z_injective. lia.
Qed.

(** C3. When [get_sentiment_trends] classifies at least one text, the three
    values it returns are floats, each the share of the texts of both corpora
    that fell in its class, and they sum to 1; when it classifies none, it
    returns the three integer counts, all 0. *)
Theorem sentiment_distribution `{Externals}
  (posts : list Post) (comments : list Comment) :
  (classified_texts posts comments <> [] ->
   exists p n g,
     get_sentiment_trends posts comments = mkSentiment (Float p) (Float n) (Float g)
     /\ p == share is_positive (classified_texts posts comments)
     /\ n == share is_neutral (classified_texts posts comments)
     /\ g == share is_negative (classified_texts posts comments)
     /\ p + n + g == 1)
  /\ (classified_texts posts comments = [] ->
      get_sentiment_trends posts comments = mkSentiment (Int 0) (Int 0) (Int 0)).
Proof.
  unfold classified_texts. split.
  - intros Htexts. unfold get_sentiment_trends.
    assert (Hempty : empty posts && empty comments = false).
    { destruct posts, comments; simpl in *; congruence. }
    rewrite Hempty, <- fold_left_app, classify_loop.
    set (texts := map post_title posts ++ map comment_text comments) in *.
    pose proof (classes_partition texts) as Hparts.
    assert (Hlen : (0 < List.length texts)%nat).
    { destruct texts; [congruence | simpl; lia]. }
    cbn [Z.add].
    replace (Z.of_nat (List.length (filter is_positive texts))
             + Z.of_nat (List.length (filter is_neutral texts))
             + Z.of_nat (List.length (filter is_negative texts)))%Z
      with (Z.of_nat (List.length texts)) by lia.
    replace (0 <? Z.of_nat (List.length texts))%Z with true
      by (symmetry; apply Z.ltb_lt; lia).
    do 3 eexists.
    split; [reflexivity|].
    unfold share, of_nat.
    split; [reflexivity|]. split; [reflexivity|]. split; [reflexivity|].
    rewrite <- Hparts. apply shares_sum. lia.
  - intros Htexts. apply app_eq_nil in Htexts. destruct Htexts as [Hp Hc].
    destruct posts, comments; try discriminate. reflexivity.
Qed.

Lemma sentiment_distribution_witness :
  (exists p n g,
      get_sentiment_trends sample_posts sample_comments
      = mkSentiment (Float p) (Float n) (Float g)
      /\ p + n + g == 1)
  /\ get_sentiment_trends [] [] = mkSentiment (Int 0) (Int 0) (Int 0).
Proof.
  split.
  - destruct (proj1 (sentiment_distribution sample_posts sample_comments))
      as [p [n [g [Hresult [_ [_ [_ Hsum]]]]]]]; [discriminate|].
    exists p, n, g. split; [exact Hresult | exact Hsum].
  - apply (proj2 (sentiment_distribution [] [])). reflexivity.
Defined.

(* ================================================================== *)
(** * Topic extraction                                                 *)
(* ================================================================== *)

Lemma StronglySorted_map {A B : Type} (R : A -> A -> Prop) (S : B -> B -> Prop)
  (f : A -> B) (l : list A) :
  (forall x y, In x l -> In y l -> R x y -> S (f x) (f y)) ->
  StronglySorted R l -> StronglySorted S (map f l).
Proof.
  intros HRS Hl. induction Hl as [|x l Hl IH Hx]; simpl; constructor.
  - apply IH. intros y z Hy Hz. apply HRS; now right.
  - rewrite Forall_forall in Hx |- *. intros b Hb.
    apply in_map_iff in Hb. destruct Hb as [y [<- Hy]].
    apply HRS; [now left | now right | now apply Hx].
Qed.

Lemma In_combine_seq (a : list Q) : forall start i w,
  In (i, w) (combine (seq start (List.length a)) a) ->
  (start <= i)%nat /\ nth (i - start) a 0 = w.
Proof.
  induction a as [|x a IH]; simpl; intros start i w; [tauto|].
  intros [Heq|Hin].
  - inversion Heq; subst. now rewrite Nat.sub_diag.
  - apply IH in Hin. destruct Hin as [Hle Hnth].
    split; [lia|].
    replace (i - start)%nat with (S (i - S start)) by lia. exact Hnth.
Qed.

Lemma nth_error_combine_seq {A : Type} (l : list A) : forall start i,
  nth_error (combine (seq start (List.length l)) l) i
  = option_map (pair (start + i)%nat) (nth_error l i).
Proof.
  induction l as [|x l IH]; intros start [|i]; simpl; try reflexivity.
  - now rewrite Nat.add_0_r.
  - rewrite IH. now rewrite Nat.add_succ_r.
Qed.

Lemma weight_le_total (x y : nat * Q) : weight_le x y = false -> weight_le y x = true.
Proof.
  unfold weight_le. intros Hxy. apply Qle_bool_iff.
  destruct (Qlt_le_dec (snd y) (snd x)) as [Hlt|Hle].
  - now apply Qlt_le_weak.
  - apply Qle_bool_iff in Hle. congruence.
Qed.

Lemma weight_le_trans (x y z : nat * Q) :
  weight_le x y = true -> weight_le y z = true -> weight_le x z = true.
Proof.
  unfold weight_le. rewrite !Qle_bool_iff. intros Hxy Hyz.
  eapply Qle_trans; eassumption.
Qed.

Lemma argsort_length (a : list Q) : List.length (argsort a) = List.length a.
Proof.
  unfold argsort.
  now rewrite length_map, stable_sort_length, length_combine, length_seq, Nat.min_id.
Qed.

(** [argsort] lists the indices by increasing value. *)
Lemma argsort_sorted (a : list Q) :
  StronglySorted (fun i j => nth i a 0 <= nth j a 0) (argsort a).
Proof.
  unfold argsort.
  apply StronglySorted_map
    with (R := fun x y : nat * Q => weight_le x y = true);
    [|apply stable_sort_sorted; [apply weight_le_total | apply weight_le_trans]].
  intros [i w] [j v] Hi Hj Hle.
  apply stable_sort_In, In_combine_seq in Hi, Hj.
  destruct Hi as [_ Hi], Hj as [_ Hj]. rewrite Nat.sub_0_r in Hi, Hj.
  simpl. rewrite Hi, Hj. unfold weight_le in Hle. now apply Qle_bool_iff.
Qed.

(** The indices kept for a topic: at most five, by decreasing weight. *)
Lemma top_indices_spec (topic : list Q) :
  List.length (top_indices topic) = Nat.min 5 (List.length topic)
  /\ StronglySorted (fun i j => nth j topic 0 <= nth i topic 0) (top_indices topic).
Proof.
  unfold top_indices. split.
  - now rewrite length_firstn, length_rev, argsort_length.
  - apply StronglySorted_firstn.
    apply (StronglySorted_rev (fun i j => nth i topic 0 <= nth j topic 0)).
    apply argsort_sorted.
Qed.

Section Topics.
Context `{Externals}.

Lemma lda_fit_shape (global : RandomState) (lda : LatentDirichletAllocation)
  (X : Matrix) (components : list (list Q)) :
  lda_fit global lda X = Ok components ->
  List.length components = n_components lda
  /\ (1 <= n_components lda)%nat
  /\ Forall (fun topic => List.length topic = snd (shape X)) components.
Proof.
  unfold lda_fit.
  destruct (Nat.eqb (n_components lda) 0) eqn:Hk; [discriminate|].
  apply Nat.eqb_neq in Hk.
  intros Hfit. inversion Hfit; subst; clear Hfit.
  split; [now rewrite length_map, length_seq|]. split; [lia|].
  apply Forall_forall. intros topic Htopic.
  apply in_map_iff in Htopic. destruct Htopic as [k [<- _]].
  now rewrite length_map, length_seq.
Qed.

(** The three ways [get_topics] can return. *)
Lemma get_topics_Ok (global : RandomState) (posts : list Post)
  (num_topics : nat) (topics : list string) :
  get_topics global posts num_topics = Ok topics ->
  topics = []
  \/ exists feature_names X components,
       fit_transform (map post_title posts) = Ok (feature_names, X)
       /\ lda_fit global (mkLDA num_topics (Some 42%Z)) X = Ok components
       /\ topics
          = map (fun '(topic_idx, topic) =>
                   format_topic topic_idx
                     (map (fun i => nth i feature_names "") (top_indices topic)))
                (enumerate components).
Proof.
  unfold get_topics.
  destruct (empty posts); [intros Hok; inversion Hok; tauto|].
  destruct (fit_transform (map post_title posts)) as [[feature_names X]|e];
    simpl; [|discriminate].
  destruct (Nat.eqb (fst (shape X)) 0); [intros Hok; inversion Hok; tauto|].
  destruct (lda_fit global (mkLDA num_topics (Some 42%Z)) X) as [components|e]
    eqn:Hfit; simpl; [|discriminate].
  intros Hok. inversion Hok; subst; clear Hok. right.
  exists feature_names, X, components. tauto.
Qed.
End Topics.

(** C10. Whenever [get_topics] returns a non-empty result, it holds exactly
    [num_topics] strings, one per row of [lda.components_]; the string at
    position [i] is ["Topic <i+1>: "] followed by the names of at most five
    features, listed by decreasing weight in that row.  The number of posts
    and of features plays no part. *)
Theorem topics_shape `{Externals} (global : RandomState)
  (posts : list Post) (num_topics : nat) (topics : list string) :
  get_topics global posts num_topics = Ok topics ->
  topics <> [] ->
  List.length topics = num_topics
  /\ exists feature_names X components,
       fit_transform (map post_title posts) = Ok (feature_names, X)
       /\ lda_fit global (mkLDA num_topics (Some 42%Z)) X = Ok components
       /\ List.length components = num_topics
       /\ forall i topic,
            nth_error components i = Some topic ->
            nth_error topics i
            = Some (format_topic i
                      (map (fun j => nth j feature_names "") (top_indices topic)))
            /\ (List.length (top_indices topic) <= 5)%nat
            /\ StronglySorted (fun a b => nth b topic 0 <= nth a topic 0)
                              (top_indices topic).
Proof.
  intros Hok Hnonempty.
  destruct (get_topics_Ok _ _ _ _ Hok)
    as [Hnil|[feature_names [X [components [Hfit [Hlda Htopics]]]]]];
    [contradiction|].
  destruct (lda_fit_shape _ _ _ _ Hlda) as [Hlen _]. simpl in Hlen.
  split.
  - subst topics. unfold enumerate.
    now rewrite length_map, length_combine, length_seq, Nat.min_id.
  - exists feature_names, X, components.
    split; [exact Hfit|]. split; [exact Hlda|]. split; [exact Hlen|].
    intros i topic Hi. destruct (top_indices_spec topic) as [Htop Hsorted].
    split; [|split; [lia | exact Hsorted]].
    subst topics. unfold enumerate.
    rewrite nth_error_map, nth_error_combine_seq, Hi. reflexivity.
Qed.

Lemma topics_shape_witness :
  exists topics,
    get_topics 0%Z sample_posts 7 = Ok topics
    /\ topics <> []
    /\ List.length topics = 7%nat.
Proof.
  exists ["Topic 1: news, morning"; "Topic 2: news, morning";
          "Topic 3: news, morning"; "Topic 4: news, morning";
          "Topic 5: news, morning"; "Topic 6: morning, news";
          "Topic 7: morning, news"].
  split; [reflexivity|]. split; [discriminate|].
  apply (topics_shape (H := reference_routines) 0%Z sample_posts 7);
    [reflexivity | discriminate].
Defined.

(** Without a seed the fitted weights follow the state of the global
    generator, which is what passing [random_state=42] rules out. *)
Remark unseeded_fit_depends_on_run :
  lda_fit 0%Z (mkLDA 1 None) (mkMatrix (1, 1)%nat [[1%nat]])
  <> lda_fit 1%Z (mkLDA 1 None) (mkMatrix (1, 1)%nat [[1%nat]]).
Proof. vm_compute. discriminate. Qed.

(** C7. Topic extraction is deterministic: two runs of [get_topics] on the
    same posts corpus with the same topic count return the same result,
    whatever the state of the global random generator in each run. *)
Theorem topics_deterministic `{Externals} (run1 run2 : RandomState)
  (posts : list Post) (num_topics : nat) :
  get_topics run1 posts num_topics = get_topics run2 posts num_topics.
Proof.
  unfold get_topics.
  destruct (empty posts); [reflexivity|].
  destruct (fit_transform (map post_title posts)) as [[feature_names X]|e];
    simpl; [|reflexivity].
  destruct (Nat.eqb (fst (shape X)) 0); [reflexivity|].
  assert (Hfit : lda_fit run1 (mkLDA num_topics (Some 42%Z)) X
                 = lda_fit run2 (mkLDA num_topics (Some 42%Z)) X)
    by reflexivity.
  now rewrite Hfit.
Qed.

(** C4. On the empty posts corpus [get_topics] returns the empty list.  On a
    corpus that has posts but whose vocabulary is empty after stop-word
    removal and the document-frequency cut-offs it does not: the vectoriser
    raises [ValueError] before the test on [X.shape[0]] is reached, and
    [get_topics] raises with it. *)
Theorem empty_vocabulary_raises `{Externals} (global : RandomState)
  (posts : list Post) (num_topics : nat) :
  get_topics global [] num_topics = Ok []
  /\ (posts <> [] ->
      remaining_vocabulary posts = [] ->
      get_topics global posts num_topics = Raise ValueError).
Proof.
  split; [reflexivity|].
  intros Hposts Hvocabulary.
  unfold get_topics, fit_transform.
  destruct posts as [|p posts]; [congruence|]. cbn [empty].
  unfold remaining_vocabulary, analysed_titles in Hvocabulary.
  destruct (empty (distinct (List.concat (map analyze (map post_title (p :: posts))))));
    [reflexivity|].
  destruct (Qlt_bool _ _); [reflexivity|].
  now rewrite Hvocabulary.
Qed.

Lemma empty_vocabulary_raises_witness :
  unrelated_posts <> []
  /\ remaining_vocabulary unrelated_posts = []
  /\ get_topics 0%Z unrelated_posts 5 = Raise ValueError.
Proof.
  split; [discriminate|]. split; [reflexivity|].
  apply (proj2 (empty_vocabulary_raises (H := reference_routines)
                  0%Z unrelated_posts 5));
    [discriminate | reflexivity].
Defined.

(* ================================================================== *)
(** * Further properties of the analytics                              *)
(* ================================================================== *)

Section ScoreCells.
Context `{Externals}.

Lemma parses_dec (cell : string) : {parses cell} + {~ parses cell}.
Proof.
  unfold parses. destruct (py_float cell); [left; discriminate | right; tauto].
Qed.

Lemma add_post_score_raises (d : dict Q) (row : Post) :
  ~ parses (post_score row) -> add_post_score d row = Raise ValueError.
Proof.
  unfold parses, add_post_score.
  destruct (py_float (post_score row)); [intros Hbad; exfalso; apply Hbad; discriminate|].
  reflexivity.
Qed.

Lemma add_comment_score_raises (d : dict Q) (row : Comment) :
  ~ parses (comment_score row) -> add_comment_score d row = Raise ValueError.
Proof.
  unfold parses, add_comment_score.
  destruct (py_float (comment_score row));
    [intros Hbad; exfalso; apply Hbad; discriminate|].
  reflexivity.
Qed.

Lemma score_table_raises (posts : list Post) (comments : list Comment) :
  ~ scores_parse posts comments -> score_table posts comments = Raise ValueError.
Proof.
  intros Hbad. rewrite score_table_eq.
  destruct (Forall_Exists_dec (fun p => parses (post_score p))
              (fun p => parses_dec (post_score p)) posts) as [Hposts|Hposts].
  - destruct (accumulate_returns add_post_score (fun p => parses (post_score p))
                (fun d row => add_post_score_returns d row) posts [] Hposts)
      as [d ->].
    simpl.
    destruct (Forall_Exists_dec (fun c => parses (comment_score c))
                (fun c => parses_dec (comment_score c)) comments)
      as [Hcomments|Hcomments].
    + exfalso. apply Hbad. now split.
    + exact (accumulate_raises add_comment_score (fun c => parses (comment_score c))
               (fun d row => add_comment_score_raises d row) comments d Hcomments).
  - now rewrite (accumulate_raises add_post_score (fun p => parses (post_score p))
                   (fun d row => add_post_score_raises d row) posts [] Hposts).
Qed.
End ScoreCells.

(** X1. [get_user_influence] returns exactly when every score cell of both
    corpora is accepted by [float], and raises [ValueError] otherwise: the
    score of a row is converted before its author is looked at, so a
    malformed score aborts the call even on a row without author. *)
Theorem user_influence_returns_iff `{Externals}
  (posts : list Post) (comments : list Comment) (limit : nat) :
  (scores_parse posts comments
   <-> exists out, get_user_influence posts comments limit = Ok out)
  /\ (~ scores_parse posts comments ->
      get_user_influence posts comments limit = Raise ValueError).
Proof.
  assert (Hraise : ~ scores_parse posts comments ->
                   get_user_influence posts comments limit = Raise ValueError).
  { intros Hbad. rewrite get_user_influence_eq, influence_table_eq.
    now rewrite (score_table_raises _ _ Hbad). }
  split; [|exact Hraise]. split.
  - apply get_user_influence_returns.
  - intros [out Hout].
    destruct (Forall_Exists_dec (fun p => parses (post_score p))
                (fun p => parses_dec (post_score p)) posts) as [Hposts|Hposts];
      [destruct (Forall_Exists_dec (fun c => parses (comment_score c))
                   (fun c => parses_dec (comment_score c)) comments)
         as [Hcomments|Hcomments]; [now split|]|];
      rewrite Hraise in Hout; try discriminate;
      intros [Hp Hc]; apply Exists_exists in Hposts || apply Exists_exists in Hcomments.
    + destruct Hcomments as [c [Hin Hc']].
      rewrite Forall_forall in Hc. exact (Hc' (Hc c Hin)).
    + destruct Hposts as [p [Hin Hp']].
      rewrite Forall_forall in Hp. exact (Hp' (Hp p Hin)).
Qed.

Lemma user_influence_returns_iff_witness :
  get_user_influence [authorless_malformed_post] [] 5 = Raise ValueError
  /\ exists out, get_user_influence sample_posts sample_comments 5 = Ok out.
Proof.
  split.
  - apply (proj2 (user_influence_returns_iff [authorless_malformed_post] [] 5)).
    intros [Hposts _]. inversion Hposts as [|? ? Hp _]; subst.
    apply Hp. reflexivity.
  - apply (proj1 (user_influence_returns_iff sample_posts sample_comments 5)).
    evaluate_parses.
Defined.

Lemma In_add_node (l : list string) (v a : string) :
  In a (add_node l v) <-> In a l \/ a = v.
Proof.
  unfold add_node. destruct (mem v l) eqn:Hv.
  - apply mem_In in Hv. split; [tauto|]. intros [Ha| ->]; assumption.
  - rewrite in_app_iff. simpl. intuition.
Qed.

Lemma NoDup_edges_add_edge (G : DiGraph) (u v : string) :
  NoDup (edges G) -> NoDup (edges (add_edge G u v)).
Proof.
  intros HG. unfold add_edge. simpl.
  destruct (has_edge G u v) eqn:Huv; [exact HG|].
  apply NoDup_app; [exact HG | repeat constructor; simpl; tauto |].
  intros e He [<-|[]]. apply has_edge_In in He. congruence.
Qed.

Lemma edge_built_add_edge (G : DiGraph) (u v : string) :
  edge_built G -> edge_built (add_edge G u v).
Proof.
  intros [Hnodes [Hedges [Hends Hcover]]].
  split; [now apply NoDup_nodes_add_edge|].
  split; [now apply NoDup_edges_add_edge|]. split.
  - intros a b Hab. apply edges_add_edge in Hab.
    cbn [nodes add_edge]. rewrite !In_add_node.
    destruct Hab as [Hab|Heq].
    + destruct (Hends a b Hab). tauto.
    + inversion Heq; subst. tauto.
  - intros a Ha. cbn [nodes add_edge] in Ha. rewrite !In_add_node in Ha.
    destruct Ha as [[Ha| ->]| ->].
    + destruct (Hcover a Ha) as [b [Hab|Hba]]; exists b;
        [left | right]; apply edges_add_edge; now left.
    + exists v. left. apply edges_add_edge. now right.
    + exists u. right. apply edges_add_edge. now right.
Qed.

Lemma length_edges_add_edge (G : DiGraph) (u v : string) :
  (List.length (edges (add_edge G u v)) <= S (List.length (edges G)))%nat.
Proof.
  unfold add_edge. simpl. destruct (has_edge G u v); [lia|].
  rewrite length_app. simpl. lia.
Qed.

Lemma reply_loop_built (all rows : list Comment) : forall G,
  edge_built G ->
  let G' := fold_left (fun G row =>
                         match reply_edge all row with
                         | Some (author, parent) => add_edge G author parent
                         | None => G
                         end) rows G in
  edge_built G'
  /\ (List.length (edges G') <= List.length (edges G) + List.length rows)%nat.
Proof.
  induction rows as [|row rows IH]; intros G HG; simpl.
  - split; [exact HG | lia].
  - destruct (reply_edge all row) as [[u v]|].
    + destruct (IH (add_edge G u v) (edge_built_add_edge G u v HG)) as [Hbuilt Hlen].
      split; [exact Hbuilt|].
      pose proof (length_edges_add_edge G u v). lia.
    + destruct (IH G HG) as [Hbuilt Hlen]. split; [exact Hbuilt | lia].
Qed.

(** X2. The reply graph [get_user_influence] hands to networkx never repeats
    a node or an edge (several replies between the same two authors give one
    edge), has no isolated node, has at most as many edges as there are
    comments, and every edge starts at a non-empty author name. *)
Theorem reply_graph_invariants (comments : list Comment) :
  edge_built (reply_graph comments)
  /\ (List.length (edges (reply_graph comments)) <= List.length comments)%nat
  /\ forall u v, In (u, v) (edges (reply_graph comments)) -> u <> "".
Proof.
  destruct (reply_loop_built comments comments empty_graph) as [Hbuilt Hlen].
  { repeat split; simpl; try constructor; tauto. }
  split; [exact Hbuilt|]. split; [exact Hlen|].
  intros u v Huv. unfold reply_graph in Huv.
  apply reply_loop_edges in Huv. destruct Huv as [[]|[row [_ Hedge]]].
  apply reply_edge_Some in Hedge.
  destruct Hedge as [Ha [_ [parent [_ [-> _]]]]]. exact Ha.
Qed.

Lemma reply_graph_invariants_witness :
  "bob" <> ""
  /\ exists b, In ("alice", b) (edges (reply_graph sample_comments))
               \/ In (b, "alice") (edges (reply_graph sample_comments)).
Proof.
  destruct (reply_graph_invariants sample_comments)
    as [[_ [_ [_ Hcover]]] [_ Hsource]].
  split.
  - apply (Hsource "bob" "alice"). simpl. tauto.
  - apply Hcover. simpl. tauto.
Defined.

Lemma Permutation_filter_length {A : Type} (p : A -> bool) (l l' : list A) :
  Permutation l l' -> List.length (filter p l) = List.length (filter p l').
Proof.
  induction 1 as [|x l l' _ IH|x y l|l l' l'' _ IH1 _ IH2]; simpl.
  - reflexivity.
  - destruct (p x); simpl; now rewrite IH.
  - destruct (p x), (p y); reflexivity.
  - now rewrite IH1.
Qed.

Lemma Permutation_empty {A : Type} (l l' : list A) :
  Permutation l l' -> empty l = empty l'.
Proof.
  intros Hperm. destruct l, l'; try reflexivity.
  - apply Permutation_nil in Hperm. discriminate.
  - apply Permutation_sym, Permutation_nil in Hperm. discriminate.
Qed.

Lemma both_empty_texts (posts : list Post) (comments : list Comment) :
  empty posts && empty comments = empty (classified_texts posts comments).
Proof. now destruct posts, comments. Qed.

(** X3. The sentiment shares depend only on which texts the two corpora
    hold together, not on their order nor on the corpus a text sits in:
    corpora whose classified texts are permutations of each other get the
    same result. *)
Theorem sentiment_order_irrelevant `{Externals}
  (posts posts' : list Post) (comments comments' : list Comment) :
  Permutation (classified_texts posts comments) (classified_texts posts' comments') ->
  get_sentiment_trends posts comments = get_sentiment_trends posts' comments'.
Proof.
  intros Hperm. unfold get_sentiment_trends.
  rewrite !both_empty_texts, (Permutation_empty _ _ Hperm).
  rewrite <- !fold_left_app, !classify_loop.
  fold (classified_texts posts comments) (classified_texts posts' comments').
  now rewrite (Permutation_filter_length is_positive _ _ Hperm),
              (Permutation_filter_length is_neutral _ _ Hperm),
              (Permutation_filter_length is_negative _ _ Hperm).
Qed.

Lemma sentiment_order_irrelevant_witness :
  get_sentiment_trends sample_posts sample_comments
  = get_sentiment_trends (rev sample_posts) (rev sample_comments).
Proof.
  apply sentiment_order_irrelevant.
  unfold classified_texts. rewrite !map_rev.
  apply Permutation_app; apply Permutation_rev.
Defined.

(* ------------------------------------------------------------------ *)

Lemma NoDup_distinct (l : list string) : NoDup (distinct l).
Proof.
  induction l as [|x l IH]; simpl; constructor.
  - rewrite filter_In, String.eqb_refl. simpl. intros [_ Hx]. discriminate.
  - now apply NoDup_filter.
Qed.

Lemma In_distinct (l : list string) (a : string) : In a (distinct l) <-> In a l.
Proof.
  induction l as [|x l IH]; simpl; [tauto|].
  rewrite filter_In, IH, negb_true_iff, String.eqb_neq.
  destruct (string_dec x a); intuition.
Qed.

Lemma total_count_bump (v : string) (counts : list (string * nat)) :
  total_count (bump v counts) = S (total_count counts).
Proof.
  induction counts as [|[v' n] counts IH]; simpl; [reflexivity|].
  destruct (String.eqb v v'); simpl; [reflexivity | rewrite IH; lia].
Qed.

Lemma total_count_tally_loop (column : list string) : forall counts,
  total_count (fold_left (fun counts v => bump v counts) column counts)
  = (total_count counts + List.length column)%nat.
Proof.
  induction column as [|v column IH]; simpl; intros counts; [lia|].
  rewrite IH, total_count_bump. lia.
Qed.

Lemma total_count_perm {K : Type} (l l' : list (K * nat)) :
  Permutation l l' -> total_count l = total_count l'.
Proof.
  induction 1 as [|x l l' _ IH|x y l|l l' l'' _ IH1 _ IH2]; simpl; lia.
Qed.

Lemma total_count_firstn {K : Type} (n : nat) (l : list (K * nat)) :
  (total_count (firstn n l) <= total_count l)%nat.
Proof.
  revert n. induction l as [|x l IH]; intros [|n]; simpl; try lia.
  specialize (IH n). lia.
Qed.

Lemma length_tally (column : list string) :
  List.length (tally column) = List.length (distinct column).
Proof.
  destruct (tally_loop column []) as [Hnodup [Hkeys _]].
  fold (tally column) in *.
  rewrite <- (length_map fst (tally column)).
  apply Permutation_length, NoDup_Permutation.
  - apply Hnodup. constructor.
  - apply NoDup_distinct.
  - intros a. fold (keys (tally column)). rewrite Hkeys, In_distinct.
    simpl. tauto.
Qed.

Lemma value_counts_totals (column : list string) (limit : nat) :
  List.length (head limit (value_counts column))
  = Nat.min limit (List.length (distinct column))
  /\ (total_count (head limit (value_counts column)) <= List.length column)%nat
  /\ ((List.length (distinct column) <= limit)%nat ->
      total_count (head limit (value_counts column)) = List.length column).
Proof.
  assert (Htotal : total_count (value_counts column) = List.length column).
  { unfold value_counts.
    rewrite (total_count_perm _ _ (stable_sort_perm count_ge (tally column))).
    unfold tally. now rewrite total_count_tally_loop. }
  assert (Hlen : List.length (value_counts column) = List.length (distinct column)).
  { unfold value_counts. now rewrite stable_sort_length, length_tally. }
  unfold head. split; [now rewrite length_firstn, Hlen|]. split.
  - rewrite <- Htotal. apply total_count_firstn.
  - intros Hlimit. rewrite firstn_all2 by lia. exact Htotal.
Qed.

(** X4. [get_top_subreddits] and [get_top_authors] return
    min(limit, number of distinct values) entries; their counts never add up
    to more than the number of posts, and add up to exactly that number when
    [limit] is at least the number of distinct values. *)
Theorem top_values_totals (posts : list Post) (limit : nat) :
  (List.length (get_top_subreddits posts limit)
   = Nat.min limit (List.length (distinct (map post_subreddit posts)))
   /\ (total_count (get_top_subreddits posts limit) <= List.length posts)%nat
   /\ ((List.length (distinct (map post_subreddit posts)) <= limit)%nat ->
       total_count (get_top_subreddits posts limit) = List.length posts))
  /\ (List.length (get_top_authors posts limit)
      = Nat.min limit (List.length (distinct (map post_author posts)))
      /\ (total_count (get_top_authors posts limit) <= List.length posts)%nat
      /\ ((List.length (distinct (map post_author posts)) <= limit)%nat ->
          total_count (get_top_authors posts limit) = List.length posts)).
Proof.
  unfold get_top_subreddits, get_top_authors.
  destruct posts as [|p posts].
  - simpl. rewrite Nat.min_0_r. repeat split; lia.
  - cbn [empty].
    pose proof (value_counts_totals (map post_subreddit (p :: posts)) limit) as Hs.
    pose proof (value_counts_totals (map post_author (p :: posts)) limit) as Ha.
    rewrite length_map in Hs, Ha. tauto.
Qed.

Lemma top_values_totals_witness :
  total_count (get_top_authors sample_posts 5) = 3%nat
  /\ total_count (get_top_subreddits sample_posts 2) = 3%nat.
Proof.
  destruct (top_values_totals sample_posts 5) as [_ [_ [_ Hauthors]]].
  destruct (top_values_totals sample_posts 2) as [[_ [_ Hsubreddits]] _].
  split; [apply Hauthors | apply Hsubreddits]; simpl; lia.
Defined.

(* ------------------------------------------------------------------ *)

Section Vectoriser.
Context `{Externals}.

(** What [fit_transform] returns when it returns. *)
Lemma fit_transform_Ok (raw_documents : list string)
  (feature_names : list string) (X : Matrix) :
  fit_transform raw_documents = Ok (feature_names, X) ->
  let docs := map analyze raw_documents in
  feature_names
  = stable_sort String.leb (limit_features docs (distinct (List.concat docs)))
  /\ feature_names <> []
  /\ Qlt_bool (max_df * of_nat (List.length docs)) (of_nat min_df) = false
  /\ X = mkMatrix (List.length docs, List.length feature_names)
                  (map (fun doc => map (fun t => count t doc) feature_names) docs).
Proof.
  unfold fit_transform. cbv zeta.
  destruct (empty (distinct (List.concat (map analyze raw_documents))));
    [discriminate|].
  destruct (Qlt_bool _ _) eqn:Hcut; [discriminate|].
  destruct (empty (limit_features _ _)) eqn:Hkept; [discriminate|].
  intros Hok. inversion Hok; subst; clear Hok.
  split; [reflexivity|]. split; [|split; reflexivity].
  intros Hnil. apply (f_equal (@List.length _)) in Hnil.
  rewrite stable_sort_length in Hnil.
  destruct (limit_features _ _); discriminate.
Qed.

Lemma In_limit_features (docs : list (list string)) (vocabulary : list string)
  (t : string) :
  In t (limit_features docs vocabulary) ->
  In t vocabulary
  /\ (min_df <= document_frequency docs t)%nat
  /\ of_nat (document_frequency docs t) <= max_df * of_nat (List.length docs).
Proof.
  unfold limit_features. rewrite filter_In, andb_true_iff, Qle_bool_iff, Nat.leb_le.
  tauto.
Qed.
End Vectoriser.

Lemma In_argsort (a : list Q) (i : nat) : In i (argsort a) -> (i < List.length a)%nat.
Proof.
  unfold argsort. rewrite in_map_iff. intros [[j w] [<- Hin]].
  apply stable_sort_In, in_combine_l, in_seq in Hin. simpl. lia.
Qed.

Lemma In_top_indices (topic : list Q) (i : nat) :
  In i (top_indices topic) -> (i < List.length topic)%nat.
Proof.
  unfold top_indices. intros Hin.
  apply In_firstn in Hin. apply in_rev in Hin. now apply In_argsort.
Qed.

(** X5. [get_topics] raises [ValueError] on every corpus of one or two
    posts, whatever their titles (the vectoriser finds either no term or
    [max_df * n_doc < min_df]); a non-empty topic list therefore needs at
    least three posts, and it needs [num_topics >= 1]. *)
Theorem topics_need_three_posts `{Externals} (global : RandomState)
  (posts : list Post) (num_topics : nat) :
  ((1 <= List.length posts <= 2)%nat ->
   get_topics global posts num_topics = Raise ValueError)
  /\ forall topics,
       get_topics global posts num_topics = Ok topics ->
       topics <> [] ->
       (3 <= List.length posts)%nat /\ (1 <= num_topics)%nat.
Proof.
  assert (Hfew : (1 <= List.length posts <= 2)%nat ->
                 get_topics global posts num_topics = Raise ValueError).
  { intros Hlen. unfold get_topics, fit_transform.
    destruct posts as [|p [|q [|r posts]]]; simpl in Hlen; try lia;
      cbn [empty map];
      (destruct (empty (distinct (List.concat _))); [reflexivity|]);
      reflexivity. }
  split; [exact Hfew|].
  intros topics Hok Hnonempty.
  destruct (get_topics_Ok _ _ _ _ Hok)
    as [Hnil|[feature_names [X [components [_ [Hlda _]]]]]]; [contradiction|].
  destruct (lda_fit_shape _ _ _ _ Hlda) as [_ [Hk _]]. simpl in Hk.
  split; [|exact Hk].
  destruct posts as [|p [|q [|r posts]]]; simpl; try lia.
  - unfold get_topics in Hok. simpl in Hok. inversion Hok. congruence.
  - rewrite Hfew in Hok by (simpl; lia). discriminate.
  - rewrite Hfew in Hok by (simpl; lia). discriminate.
Qed.

Lemma topics_need_three_posts_witness :
  get_topics 0%Z (firstn 2 sample_posts) 5 = Raise ValueError
  /\ (3 <= List.length sample_posts)%nat /\ (1 <= 7)%nat.
Proof.
  split.
  - apply (proj1 (topics_need_three_posts (H := reference_routines)
                    0%Z (firstn 2 sample_posts) 5)).
    simpl. lia.
  - apply (proj2 (topics_need_three_posts (H := reference_routines)
                    0%Z sample_posts 7)
             ["Topic 1: news, morning"; "Topic 2: news, morning";
              "Topic 3: news, morning"; "Topic 4: news, morning";
              "Topic 5: news, morning"; "Topic 6: morning, news";
              "Topic 7: morning, news"]);
      [reflexivity | discriminate].
Defined.

(** X6. When [get_topics] returns topics, the vocabulary they are drawn from
    is not empty and has no repeated term, every term of it occurs in at
    least two titles and in at most 95% of them, and every index the topic
    loop reads from [feature_names] is in range. *)
Theorem topic_terms_are_features `{Externals} (global : RandomState)
  (posts : list Post) (num_topics : nat) (topics : list string) :
  get_topics global posts num_topics = Ok topics ->
  topics <> [] ->
  exists feature_names X components,
    fit_transform (map post_title posts) = Ok (feature_names, X)
    /\ lda_fit global (mkLDA num_topics (Some 42%Z)) X = Ok components
    /\ feature_names <> []
    /\ NoDup feature_names
    /\ (forall t, In t feature_names ->
                  (2 <= document_frequency (analysed_titles posts) t)%nat
                  /\ of_nat (document_frequency (analysed_titles posts) t)
                     <= (95 # 100) * of_nat (List.length posts))
    /\ forall topic i,
         In topic components -> In i (top_indices topic) ->
         (i < List.length feature_names)%nat.
Proof.
  intros Hok Hnonempty.
  destruct (get_topics_Ok _ _ _ _ Hok)
    as [Hnil|[feature_names [X [components [Hfit [Hlda _]]]]]]; [contradiction|].
  exists feature_names, X, components.
  destruct (fit_transform_Ok _ _ _ Hfit) as [Hnames [Hne [_ HX]]].
  destruct (lda_fit_shape _ _ _ _ Hlda) as [_ [_ Hrows]].
  split; [exact Hfit|]. split; [exact Hlda|]. split; [exact Hne|].
  split; [|split].
  - rewrite Hnames.
    eapply Permutation_NoDup; [apply Permutation_sym, stable_sort_perm|].
    unfold limit_features. apply NoDup_filter, NoDup_distinct.
  - intros t Ht. rewrite Hnames in Ht.
    apply stable_sort_In, In_limit_features in Ht.
    destruct Ht as [_ [Hmin Hmax]].
    unfold analysed_titles. rewrite !length_map in Hmax.
    split; [exact Hmin | exact Hmax].
  - intros topic i Htopic Hi.
    rewrite Forall_forall in Hrows. specialize (Hrows topic Htopic).
    apply In_top_indices in Hi. rewrite HX in Hrows. simpl in Hrows. lia.
Qed.

Lemma topic_terms_are_features_witness :
  exists feature_names X components,
    fit_transform (map post_title sample_posts) = Ok (feature_names, X)
    /\ lda_fit 0%Z (mkLDA 3 (Some 42%Z)) X = Ok components
    /\ feature_names <> []
    /\ NoDup feature_names
    /\ (forall t, In t feature_names ->
                  (2 <= document_frequency (analysed_titles sample_posts) t)%nat
                  /\ of_nat (document_frequency (analysed_titles sample_posts) t)
                     <= (95 # 100) * of_nat (List.length sample_posts))
    /\ forall topic i,
         In topic components -> In i (top_indices topic) ->
         (i < List.length feature_names)%nat.
Proof.
  apply (topic_terms_are_features (H := reference_routines) 0%Z sample_posts 3
           ["Topic 1: news, morning"; "Topic 2: news, morning";
            "Topic 3: news, morning"]);
    [reflexivity | discriminate].
Defined.

(* ================================================================== *)
(** * The store                                                        *)
(* ================================================================== *)

Section Lookup.
Context {V : Type}.

Lemma dict_lookup_set (d : dict V) (k : string) (v : V) (k' : string) :
  dict_lookup (dict_set d k v) k'
  = if String.eqb k' k then Some v else dict_lookup d k'.
Proof.
  induction d as [|[k0 v0] d IH]; simpl.
  - now destruct (String.eqb k' k).
  - destruct (String.eqb k k0) eqn:Hk; simpl.
    + apply String.eqb_eq in Hk; subst k0. now destruct (String.eqb k' k).
    + destruct (String.eqb k' k0) eqn:Hk'; [|exact IH].
      apply String.eqb_eq in Hk'; subst k0.
      rewrite String.eqb_sym in Hk. now rewrite Hk.
Qed.

Lemma dict_lookup_Some_In (d : dict V) (k : string) (v : V) :
  dict_lookup d k = Some v -> In (k, v) d.
Proof.
  induction d as [|[k0 v0] d IH]; simpl; [discriminate|].
  destruct (String.eqb k k0) eqn:Hk.
  - apply String.eqb_eq in Hk. intros Heq. inversion Heq; subst. now left.
  - intros Hd. right. now apply IH.
Qed.

Lemma dict_lookup_keys (d : dict V) (k : string) :
  dict_lookup d k <> None <-> In k (keys d).
Proof.
  unfold keys. induction d as [|[k0 v0] d IH]; simpl; [tauto|].
  destruct (String.eqb k k0) eqn:Hk.
  - apply String.eqb_eq in Hk. subst. split; [tauto | discriminate].
  - apply String.eqb_neq in Hk. rewrite IH. intuition congruence.
Qed.

Lemma In_dict_lookup (d : dict V) (k : string) (v : V) :
  NoDup (keys d) -> In (k, v) d -> dict_lookup d k = Some v.
Proof.
  unfold keys. induction d as [|[k0 v0] d IH]; simpl; [tauto|].
  intros Hd [Heq|Hin].
  - inversion Heq; subst. now rewrite String.eqb_refl.
  - inversion Hd as [|? ? Hk0 Hd']; subst.
    destruct (String.eqb k k0) eqn:Hk; [|now apply IH].
    apply String.eqb_eq in Hk; subst k0.
    exfalso. apply Hk0. now apply (in_map fst) in Hin.
Qed.

Lemma dict_get_lookup (d : dict V) (k : string) (default : V) :
  dict_get d k default = get_or (dict_lookup d k) default.
Proof.
  induction d as [|[k0 v0] d IH]; simpl; [reflexivity|].
  now destruct (String.eqb k k0).
Qed.

Lemma In_dict_set (d : dict V) (k0 : string) (v0 : V) (k : string) (v : V) :
  In (k, v) (dict_set d k0 v0) -> (k = k0 /\ v = v0) \/ In (k, v) d.
Proof.
  induction d as [|[k1 v1] d IH]; simpl.
  - intros [Heq|[]]. inversion Heq. tauto.
  - destruct (String.eqb k0 k1) eqn:Hk; simpl.
    + apply String.eqb_eq in Hk; subst k1.
      intros [Heq|Hin]; [inversion Heq; tauto | tauto].
    + intros [Heq|Hin]; [tauto|]. apply IH in Hin. tauto.
Qed.
End Lookup.

Lemma keys_put_cells (data : Cells) : forall cells col,
  In col (keys (put_cells cells data)) <-> In col (keys cells) \/ In col (keys data).
Proof.
  unfold put_cells.
  induction data as [|[c v] data IH]; simpl; intros cells col; [tauto|].
  rewrite IH, keys_dict_set. intuition.
Qed.

Lemma NoDup_keys_put_cells (data : Cells) : forall cells,
  NoDup (keys cells) -> NoDup (keys (put_cells cells data)).
Proof.
  unfold put_cells.
  induction data as [|[c v] data IH]; simpl; intros cells Hcells; [exact Hcells|].
  apply IH. now apply NoDup_keys_dict_set.
Qed.

Lemma lookup_put_cells_other (data : Cells) : forall cells col,
  ~ In col (keys data) ->
  dict_lookup (put_cells cells data) col = dict_lookup cells col.
Proof.
  unfold put_cells.
  induction data as [|[c v] data IH]; simpl; intros cells col Hcol; [reflexivity|].
  rewrite IH by tauto. rewrite dict_lookup_set.
  destruct (String.eqb col c) eqn:Heq; [|reflexivity].
  apply String.eqb_eq in Heq. subst. tauto.
Qed.

(** A column written by [put] holds the value that was put. *)
Lemma lookup_put_cells (data : Cells) : forall cells col v,
  NoDup (keys data) -> In (col, v) data ->
  dict_lookup (put_cells cells data) col = Some v.
Proof.
  unfold put_cells.
  induction data as [|[c x] data IH]; simpl; intros cells col v Hnodup Hin; [tauto|].
  inversion Hnodup as [|? ? Hc Hrest]; subst.
  destruct Hin as [Heq|Hin].
  - inversion Heq; subst.
    fold (put_cells (dict_set cells col v) data).
    rewrite lookup_put_cells_other by exact Hc.
    now rewrite dict_lookup_set, String.eqb_refl.
  - now apply IH.
Qed.

Lemma append_inj_l (p a b : string) : (p ++ a = p ++ b)%string -> a = b.
Proof.
  induction p as [|c p IH]; simpl; [tauto|].
  intros Heq. inversion Heq. now apply IH.
Qed.

Lemma posts_comments_differ (prefix : string) :
  String.eqb (prefix ++ "comments") (prefix ++ "posts") = false.
Proof.
  apply String.eqb_neq. intros Heq. apply append_inj_l in Heq. discriminate.
Qed.

Lemma table_scan_In (table : HTable) (row : string * Cells) :
  In row (table_scan table) <-> In row table.
Proof. apply stable_sort_In. Qed.

Lemma NoDup_keys_table_delete (table : HTable) (row_key : string) :
  NoDup (keys table) -> NoDup (keys (table_delete table row_key)).
Proof.
  unfold keys, table_delete. induction table as [|[k cells] table IH]; simpl;
    [constructor|].
  intros Hnodup. inversion Hnodup as [|? ? Hk Hrest]; subst.
  destruct (negb (String.eqb row_key k)); simpl; [|now apply IH].
  constructor; [|now apply IH].
  rewrite in_map_iff. intros [[k' c'] [Hfst Hin]]. simpl in Hfst. subst k'.
  apply filter_In in Hin. apply Hk. apply in_map_iff.
  exists (k, c'). tauto.
Qed.

Lemma table_complete_delete (columns : list string) (table : HTable)
  (row_key : string) :
  table_complete columns table -> table_complete columns (table_delete table row_key).
Proof.
  intros Hcomplete key cells Hin. unfold table_delete in Hin.
  apply filter_In in Hin. apply (Hcomplete key). tauto.
Qed.

(** Writing a full set of columns keeps a table complete. *)
Lemma table_complete_put_all (columns : list string) (table : HTable)
  (row_key : string) (data : Cells) :
  table_complete columns table ->
  (forall col, In col (keys data) <-> In col columns) ->
  table_complete columns (table_put table row_key data).
Proof.
  intros Hcomplete Hdata key cells Hin.
  unfold table_put in Hin. apply In_dict_set in Hin.
  destruct Hin as [[-> ->]|Hin]; [|now apply (Hcomplete key)].
  rewrite dict_get_lookup.
  destruct (dict_lookup table row_key) as [old|] eqn:Hold; simpl.
  - apply dict_lookup_Some_In, Hcomplete in Hold. destruct Hold as [Hnodup Hold].
    split; [now apply NoDup_keys_put_cells|].
    intros col. rewrite keys_put_cells, Hdata, Hold. tauto.
  - split; [apply NoDup_keys_put_cells; constructor|].
    intros col. rewrite keys_put_cells, Hdata. simpl. tauto.
Qed.

(** Writing some of the columns of an existing row keeps a table complete. *)
Lemma table_complete_put_some (columns : list string) (table : HTable)
  (row_key : string) (data : Cells) :
  table_complete columns table ->
  In row_key (keys table) ->
  (forall col, In col (keys data) -> In col columns) ->
  table_complete columns (table_put table row_key data).
Proof.
  intros Hcomplete Hkey Hdata key cells Hin.
  unfold table_put in Hin. apply In_dict_set in Hin.
  destruct Hin as [[-> ->]|Hin]; [|now apply (Hcomplete key)].
  pose proof (In_dict_get table row_key [] Hkey) as Hold.
  apply Hcomplete in Hold. destruct Hold as [Hnodup Hold].
  split; [now apply NoDup_keys_put_cells|].
  intros col. rewrite keys_put_cells, Hold. specialize (Hdata col). tauto.
Qed.

Lemma well_stored_set_posts (prefix : string) (conn : Connection) (posts' : HTable) :
  well_stored prefix conn ->
  NoDup (keys posts') ->
  table_complete (tl post_columns) posts' ->
  well_stored prefix (dict_set conn (prefix ++ "posts") posts').
Proof.
  intros [posts [comments [Hp [Hc [Hnp [Hnc [Hcp Hcc]]]]]]] Hnodup Hcomplete.
  exists posts', comments. rewrite !dict_lookup_set.
  rewrite String.eqb_refl, posts_comments_differ. tauto.
Qed.

Lemma well_stored_set_comments (prefix : string) (conn : Connection)
  (comments' : HTable) :
  well_stored prefix conn ->
  NoDup (keys comments') ->
  table_complete (tl comment_columns) comments' ->
  well_stored prefix (dict_set conn (prefix ++ "comments") comments').
Proof.
  intros [posts [comments [Hp [Hc [Hnp [Hnc [Hcp Hcc]]]]]]] Hnodup Hcomplete.
  exists posts, comments'. rewrite !dict_lookup_set.
  rewrite String.eqb_refl, String.eqb_sym, posts_comments_differ. tauto.
Qed.

Lemma well_stored_new (prefix : string) : well_stored prefix (ensure_tables prefix []).
Proof.
  exists [], []. unfold ensure_tables. simpl.
  rewrite posts_comments_differ. simpl.
  rewrite String.eqb_refl, posts_comments_differ, String.eqb_refl.
  repeat split; try constructor; intros; contradiction.
Qed.

Lemma fold_table_delete (columns : list string) (row_keys : list string) :
  forall table,
    NoDup (keys table) -> table_complete columns table ->
    NoDup (keys (fold_left table_delete row_keys table))
    /\ table_complete columns (fold_left table_delete row_keys table).
Proof.
  induction row_keys as [|k row_keys IH]; simpl; intros table Hnodup Hcomplete;
    [tauto|].
  apply IH; [now apply NoDup_keys_table_delete | now apply table_complete_delete].
Qed.

(** The key the forms find in a fresh frame is the key of a stored row. *)
Lemma first_row_key_stored (columns : list string) (table : HTable)
  (id_column id row_key : string) :
  table_complete columns table ->
  ~ In "row_key" columns ->
  first_row_key (map frame_row (table_scan table)) id_column id = Some row_key ->
  In row_key (keys table).
Proof.
  intros Hcomplete Hreserved. unfold first_row_key.
  destruct (find _ _) as [row|] eqn:Hfind; [|discriminate].
  apply find_some in Hfind. destruct Hfind as [Hrow _].
  apply in_map_iff in Hrow. destruct Hrow as [[key cells] [<- Hin]].
  apply (proj1 (table_scan_In _ _)) in Hin.
  unfold frame_row. simpl.
  rewrite lookup_put_cells_other.
  - simpl. intros Heq. injection Heq as Heq.
    unfold keys. apply in_map_iff. exists (key, cells). now split.
  - rewrite (proj2 (Hcomplete key cells Hin) "row_key"). exact Hreserved.
Qed.

(** The connections the repository's writers and forms produce keep both
    tables in existence, one row per key, and in every row exactly the
    columns the writers write. *)
Lemma maintained_well_stored `{Conversions} (prefix : string) (conn : Connection) :
  maintained prefix conn -> well_stored prefix conn.
Proof.
  induction 1 as [|conn conn' post _ IH Hstore
                  |conn conn' comment post_id _ IH Hstore
                  |conn update_id new_title new_score _ IH
                  |conn posts_df delete_id confirm _ IH
                  |conn _ IH].
  - apply well_stored_new.
  - unfold store_post, connection_put in Hstore.
    destruct IH as [posts [comments [Hp [Hc [Hnp [Hnc [Hcp Hcc]]]]]]].
    rewrite Hp in Hstore. inversion Hstore; subst; clear Hstore.
    apply well_stored_set_posts;
      [exists posts, comments; tauto | now apply NoDup_keys_dict_set|].
    apply table_complete_put_all; [exact Hcp | reflexivity].
  - unfold store_comment, connection_put in Hstore.
    destruct IH as [posts [comments [Hp [Hc [Hnp [Hnc [Hcp Hcc]]]]]]].
    rewrite Hc in Hstore. inversion Hstore; subst; clear Hstore.
    apply well_stored_set_comments;
      [exists posts, comments; tauto | now apply NoDup_keys_dict_set|].
    apply table_complete_put_all; [exact Hcc | reflexivity].
  - unfold update_post. destruct (truthy update_id); [|exact IH].
    destruct (first_row_key _ _ _) as [row_key|] eqn:Hkey; [|exact IH].
    pose proof IH as [posts [comments [Hp [Hc [Hnp [Hnc [Hcp Hcc]]]]]]].
    unfold fetch_table_data in Hkey. rewrite Hp in Hkey.
    apply (first_row_key_stored _ _ _ _ _ Hcp) in Hkey;
      [|simpl; intuition discriminate].
    unfold connection_put. rewrite Hp. simpl.
    apply well_stored_set_posts;
      [exact IH | now apply NoDup_keys_dict_set|].
    apply table_complete_put_some; [exact Hcp | exact Hkey|].
    simpl. intuition.
  - unfold delete_post. destruct (truthy delete_id && confirm); [|exact IH].
    destruct (first_row_key _ _ _) as [row_key|]; [|exact IH].
    pose proof IH as [posts [comments [Hp [Hc [Hnp [Hnc [Hcp Hcc]]]]]]].
    unfold connection_delete. rewrite Hp. simpl.
    apply well_stored_set_posts;
      [exact IH | now apply NoDup_keys_table_delete
       | now apply table_complete_delete].
  - unfold delete_all_data, clear_table.
    pose proof IH as [posts [comments [Hp [Hc [Hnp [Hnc [Hcp Hcc]]]]]]].
    rewrite Hp.
    rewrite dict_lookup_set, posts_comments_differ, Hc. simpl.
    destruct (fold_table_delete _ (map fst (table_scan posts)) posts Hnp Hcp).
    destruct (fold_table_delete _ (map fst (table_scan comments)) comments Hnc Hcc).
    apply well_stored_set_comments; [|assumption|assumption].
    now apply well_stored_set_posts.
Qed.

(* ================================================================== *)
(** * Temporal trends                                                  *)
(* ================================================================== *)

Section CountValues.
Context {K : Type}.
Variable eqb : K -> K -> bool.




End CountValues.




Section Datetimes.
Context `{Conversions}.


Lemma to_datetimes_raises (column : list string) :
  Exists (fun s => to_datetime s = Raise ValueError) column ->
  to_datetimes column = Raise ValueError.
Proof.
  induction 1 as [s column Hs|s column _ IH]; simpl.
  - now rewrite Hs.
  - rewrite IH. now destruct (to_datetime s) as [t|[]].
Qed.
End Datetimes.



(* ================================================================== *)
(** * The analysis run                                                 *)
(* ================================================================== *)

Section Run.
Context `{Externals} `{Conversions}.

Lemma get_topics_few_posts (global : RandomState) (posts : list Post)
  (num_topics : nat) :
  (1 <= List.length posts <= 2)%nat ->
  get_topics global posts num_topics = Raise ValueError.
Proof.
  intros Hlen. unfold get_topics, fit_transform.
  destruct posts as [|p [|q [|r posts]]]; simpl in Hlen; try lia;
    cbn [empty map];
    (destruct (empty (distinct (List.concat _))); [reflexivity|]);
    reflexivity.
Qed.

Lemma get_user_influence_malformed (posts : list Post) (comments : list Comment)
  (limit : nat) :
  ~ scores_parse posts comments ->
  get_user_influence posts comments limit = Raise ValueError.
Proof.
  intros Hbad. rewrite get_user_influence_eq, influence_table_eq.
  now rewrite (score_table_raises _ _ Hbad).
Qed.

(** A raising step of the [try] branch gives the defaults. *)
Lemma perform_analysis_raise (global : RandomState) (posts : list PostRow)
  (comments : list Comment) :
  get_engagement_metrics (map row_post posts) = Raise ValueError
  \/ get_topics global (map row_post posts) 5 = Raise ValueError
  \/ get_user_influence (map row_post posts) comments 5 = Raise ValueError
  \/ get_temporal_trends (map row_created_utc posts) = Raise ValueError ->
  perform_analysis global posts comments = default_report.
Proof.
  unfold perform_analysis, analyse, consume.
  destruct (get_engagement_metrics (map row_post posts)) as [engagement|[]];
    simpl; [|reflexivity].
  destruct (get_topics global (map row_post posts) 5) as [topics|[]];
    simpl; [|reflexivity].
  destruct (get_user_influence (map row_post posts) comments 5) as [influence|[]];
    simpl; [|reflexivity].
  destruct (get_temporal_trends (map row_created_utc posts)) as [temporal|[]];
    simpl; [|reflexivity].
  intros [Hbad|[Hbad|[Hbad|Hbad]]]; discriminate.
Qed.
End Run.

(** X8. [perform_analysis] never raises and is all or nothing: with one or
    two posts in the store (where [get_topics] raises), with a score cell
    that is not a number, or with a creation time that is not a time stamp,
    every result is replaced by its default, the rankings and the sentiment
    shares included; a report that differs from the defaults holds the
    results of all the analytics. *)
Theorem perform_analysis_all_or_nothing `{Externals} `{Conversions}
  (global : RandomState) (posts : list PostRow) (comments : list Comment) :
  ((1 <= List.length posts <= 2)%nat ->
   perform_analysis global posts comments = default_report)
  /\ (~ scores_parse (map row_post posts) comments ->
      perform_analysis global posts comments = default_report)
  /\ (Exists (fun row => to_datetime (row_created_utc row) = Raise ValueError) posts ->
      perform_analysis global posts comments = default_report)
  /\ (perform_analysis global posts comments <> default_report ->
      let report := perform_analysis global posts comments in
      report_top_authors report = get_top_authors (map row_post posts) 5
      /\ get_engagement_metrics (map row_post posts) = Ok (report_engagement report)
      /\ report_sentiment report
         = Some (get_sentiment_trends (map row_post posts) comments)
      /\ get_topics global (map row_post posts) 5 = Ok (report_topics report)
      /\ get_user_influence (map row_post posts) comments 5
         = Ok (report_influence report)
      /\ get_temporal_trends (map row_created_utc posts)
         = Ok (report_temporal report)).
Proof.
  split; [|split; [|split]].
  - intros Hlen. apply perform_analysis_raise. right. left.
    apply get_topics_few_posts. now rewrite length_map.
  - intros Hbad. apply perform_analysis_raise. right. right. left.
    now apply get_user_influence_malformed.
  - intros Hbad. apply perform_analysis_raise. right. right. right.
    apply (proj2 (Exists_map row_created_utc
                    (fun s => to_datetime s = Raise ValueError) posts)) in Hbad.
    unfold get_temporal_trends.
    destruct (map row_created_utc posts) as [|s column]; [inversion Hbad|].
    cbn [empty]. now rewrite (to_datetimes_raises _ Hbad).
  - unfold perform_analysis, analyse, consume.
    destruct (get_engagement_metrics (map row_post posts)) as [engagement|[]];
      simpl; [|congruence].
    destruct (get_topics global (map row_post posts) 5) as [topics|[]];
      simpl; [|congruence].
    destruct (get_user_influence (map row_post posts) comments 5)
      as [influence|[]]; simpl; [|congruence].
    destruct (get_temporal_trends (map row_created_utc posts)) as [temporal|[]];
      simpl; [|congruence].
    intros _. repeat split.
Qed.

Lemma perform_analysis_all_or_nothing_witness :
  perform_analysis 0%Z (firstn 2 sample_post_rows) sample_comments = default_report
  /\ get_topics 0%Z (map row_post sample_post_rows) 5
     = Ok (report_topics (perform_analysis 0%Z sample_post_rows sample_comments)).
Proof.
  split.
  - apply (proj1 (perform_analysis_all_or_nothing
                    (H := reference_routines) (H0 := reference_conversions)
                    0%Z (firstn 2 sample_post_rows) sample_comments)).
    simpl. lia.
  - apply (proj2 (proj2 (proj2 (perform_analysis_all_or_nothing
                    (H := reference_routines) (H0 := reference_conversions)
                    0%Z sample_post_rows sample_comments)))).
    vm_compute. discriminate.
Defined.

(** X9. Whatever the store holds, the [top_subreddits] object that
    [perform_analysis] returns yields nothing: it is the iterator of
    [Series.items()], used up by the [list(...)] calls of the run (or the
    empty list, or the default), so only the line written during the run
    shows the ranking; the author ranking, which the run does not read, is
    returned whole. *)
Theorem returned_subreddit_ranking_is_spent `{Externals} `{Conversions}
  (global : RandomState) (posts : list PostRow) (comments : list Comment) :
  report_top_subreddits (perform_analysis global posts comments) = []
  /\ forall report written,
       analyse global posts comments = Ok (report, written) ->
       written = get_top_subreddits (map row_post posts) 5
       /\ report_top_subreddits report = []
       /\ report_top_authors report = get_top_authors (map row_post posts) 5.
Proof.
  unfold perform_analysis, analyse, consume.
  destruct (get_engagement_metrics (map row_post posts)) as [engagement|[]];
    simpl; [|split; [reflexivity | discriminate]].
  destruct (get_topics global (map row_post posts) 5) as [topics|[]];
    simpl; [|split; [reflexivity | discriminate]].
  destruct (get_user_influence (map row_post posts) comments 5) as [influence|[]];
    simpl; [|split; [reflexivity | discriminate]].
  destruct (get_temporal_trends (map row_created_utc posts)) as [temporal|[]];
    simpl; [|split; [reflexivity | discriminate]].
  split; [reflexivity|].
  intros report written Hok. inversion Hok; subst. repeat split.
Qed.

Lemma returned_subreddit_ranking_is_spent_witness :
  [("news", 2%nat); ("pics", 1%nat)]
  = get_top_subreddits (map row_post sample_post_rows) 5
  /\ report_top_subreddits (perform_analysis 0%Z sample_post_rows sample_comments)
     = [].
Proof.
  destruct (returned_subreddit_ranking_is_spent
              (H := reference_routines) (H0 := reference_conversions)
              0%Z sample_post_rows sample_comments) as [Hspent Hrun].
  split; [|exact Hspent].
  refine (proj1 (Hrun _ _ _)). vm_compute. reflexivity.
Defined.

(* ================================================================== *)
(** * Frames of a maintained store                                     *)
(* ================================================================== *)

Lemma lookup_put_cells_NoDup (data cells : Cells) (col : string) :
  NoDup (keys data) ->
  dict_lookup (put_cells cells data) col
  = match dict_lookup data col with
    | Some v => Some v
    | None => dict_lookup cells col
    end.
Proof.
  intros Hnodup. destruct (dict_lookup data col) as [v|] eqn:Hcol.
  - apply lookup_put_cells; [exact Hnodup | now apply dict_lookup_Some_In].
  - apply lookup_put_cells_other. intros Hin.
    apply dict_lookup_keys in Hin. congruence.
Qed.

(** The cells of a frame row: the row key, and the cells of the stored row. *)
Lemma frame_row_lookup (key : string) (cells : Cells) :
  NoDup (keys cells) -> ~ In "row_key" (keys cells) ->
  dict_lookup (frame_row (key, cells)) "row_key" = Some key
  /\ forall col, In col (keys cells) ->
                 dict_lookup (frame_row (key, cells)) col = dict_lookup cells col.
Proof.
  intros Hnodup Hreserved. unfold frame_row. simpl. split.
  - rewrite lookup_put_cells_other by exact Hreserved. reflexivity.
  - intros col Hcol. rewrite lookup_put_cells_NoDup by exact Hnodup.
    apply dict_lookup_keys in Hcol.
    destruct (dict_lookup cells col); [reflexivity | congruence].
Qed.

Lemma frame_complete (columns : list string) (table : HTable) :
  table_complete columns table ->
  ~ In "row_key" columns ->
  complete ("row_key" :: columns) (map frame_row (table_scan table)).
Proof.
  intros Hcomplete Hreserved. unfold complete.
  apply Forall_forall. intros row Hrow.
  apply in_map_iff in Hrow. destruct Hrow as [[key cells] [<- Hin]].
  apply (proj1 (table_scan_In _ _)) in Hin.
  destruct (Hcomplete key cells Hin) as [Hnodup Hcolumns].
  destruct (frame_row_lookup key cells Hnodup) as [Hkey Hcells].
  { now rewrite Hcolumns. }
  intros col [<-|Hcol]; [congruence|].
  rewrite Hcells by now apply Hcolumns.
  apply dict_lookup_keys. now apply Hcolumns.
Qed.

Lemma complete_post_of_row (df : list Cells) :
  complete post_columns df -> Forall (fun row => post_of_row row <> None) df.
Proof.
  unfold complete. apply Forall_impl. intros row Hrow. unfold post_of_row.
  pose proof (Hrow "post_data:id") as H1.
  pose proof (Hrow "post_data:title") as H2.
  pose proof (Hrow "post_data:subreddit") as H3.
  pose proof (Hrow "post_data:author") as H4.
  pose proof (Hrow "metrics:score") as H5.
  pose proof (Hrow "metrics:num_comments") as H6.
  destruct (dict_lookup row "post_data:id"); [|exfalso; apply H1; simpl; tauto].
  destruct (dict_lookup row "post_data:title"); [|exfalso; apply H2; simpl; tauto].
  destruct (dict_lookup row "post_data:subreddit");
    [|exfalso; apply H3; simpl; tauto].
  destruct (dict_lookup row "post_data:author"); [|exfalso; apply H4; simpl; tauto].
  destruct (dict_lookup row "metrics:score"); [|exfalso; apply H5; simpl; tauto].
  destruct (dict_lookup row "metrics:num_comments");
    [|exfalso; apply H6; simpl; tauto].
  discriminate.
Qed.

Lemma complete_comment_of_row (df : list Cells) :
  complete comment_columns df -> Forall (fun row => comment_of_row row <> None) df.
Proof.
  unfold complete. apply Forall_impl. intros row Hrow. unfold comment_of_row.
  pose proof (Hrow "comment_data:id") as H1.
  pose proof (Hrow "comment_data:text") as H2.
  pose proof (Hrow "comment_data:author") as H3.
  pose proof (Hrow "comment_data:parent_id") as H4.
  pose proof (Hrow "metrics:score") as H5.
  destruct (dict_lookup row "comment_data:id"); [|exfalso; apply H1; simpl; tauto].
  destruct (dict_lookup row "comment_data:text"); [|exfalso; apply H2; simpl; tauto].
  destruct (dict_lookup row "comment_data:author");
    [|exfalso; apply H3; simpl; tauto].
  destruct (dict_lookup row "comment_data:parent_id");
    [|exfalso; apply H4; simpl; tauto].
  destruct (dict_lookup row "metrics:score"); [|exfalso; apply H5; simpl; tauto].
  discriminate.
Qed.

Ltac not_row_key := simpl; intuition discriminate.

(** X10. In every store that [HBaseManager], [store_post], [store_comment]
    and the post forms of the admin page produce from an empty one, both
    tables exist and every row of both frames holds every column the writers
    write, so each row reads back as a full record; with the default prefix
    ["reddit_"] these are the frames [to_dataframe] returns. *)
Theorem maintained_frames_complete `{Conversions} (prefix : string)
  (conn : Connection) :
  maintained prefix conn ->
  complete post_columns (fetch_table_data prefix conn "posts")
  /\ complete comment_columns (fetch_table_data prefix conn "comments")
  /\ Forall (fun row => post_of_row row <> None)
            (fetch_table_data prefix conn "posts")
  /\ Forall (fun row => comment_of_row row <> None)
            (fetch_table_data prefix conn "comments")
  /\ (prefix = "reddit_" ->
      to_dataframe conn "posts" = Some (fetch_table_data prefix conn "posts")
      /\ to_dataframe conn "comments"
         = Some (fetch_table_data prefix conn "comments")).
Proof.
  intros Hconn. apply maintained_well_stored in Hconn.
  destruct Hconn as [posts [comments [Hp [Hc [Hnp [Hnc [Hcp Hcc]]]]]]].
  assert (Hposts : complete post_columns (fetch_table_data prefix conn "posts")).
  { unfold fetch_table_data. rewrite Hp.
    apply (frame_complete (tl post_columns)); [exact Hcp | not_row_key]. }
  assert (Hcomments : complete comment_columns
                        (fetch_table_data prefix conn "comments")).
  { unfold fetch_table_data. rewrite Hc.
    apply (frame_complete (tl comment_columns)); [exact Hcc | not_row_key]. }
  split; [exact Hposts|]. split; [exact Hcomments|].
  split; [now apply complete_post_of_row|].
  split; [now apply complete_comment_of_row|].
  intros ->. unfold to_dataframe, fetch_table_data. now rewrite Hp, Hc.
Qed.

Lemma maintained_frames_complete_witness :
  exists conn,
    sample_store = Some conn
    /\ complete post_columns (fetch_table_data "reddit_" conn "posts")
    /\ to_dataframe conn "posts" = Some (fetch_table_data "reddit_" conn "posts").
Proof.
  destruct sample_store as [conn|] eqn:Hstore; [|discriminate].
  exists conn. split; [reflexivity|].
  assert (Hconn : maintained "reddit_" conn).
  { unfold sample_store in Hstore.
    destruct (store_post "reddit_" (ensure_tables "reddit_" []) sample_post_dict)
      as [conn1|] eqn:H1; [|discriminate].
    destruct (store_post "reddit_" conn1 bare_post_dict) as [conn2|] eqn:H2;
      [|discriminate].
    eapply maintained_store_comment; [|exact Hstore].
    eapply maintained_store_post; [|exact H2].
    eapply maintained_store_post; [|exact H1].
    apply maintained_new. }
  destruct (maintained_frames_complete "reddit_" conn Hconn)
    as [Hposts [_ [_ [_ Hframes]]]].
  split; [exact Hposts | now apply Hframes].
Defined.

(* ================================================================== *)
(** * Writing and reading back                                         *)
(* ================================================================== *)

Lemma In_table_lookup (table : HTable) (key : string) (cells : Cells) :
  NoDup (keys table) ->
  In (key, cells) table <-> dict_lookup table key = Some cells.
Proof.
  intros Hnodup. split; [now apply In_dict_lookup | apply dict_lookup_Some_In].
Qed.

(** The rows of the frame of a complete table, by row key. *)
Lemma frame_rows (columns : list string) (table : HTable) (row : Cells) :
  NoDup (keys table) -> table_complete columns table -> ~ In "row_key" columns ->
  In row (map frame_row (table_scan table))
  <-> exists key cells,
        dict_lookup table key = Some cells /\ row = frame_row (key, cells).
Proof.
  intros Hnodup Hcomplete Hreserved. rewrite in_map_iff. split.
  - intros [[key cells] [<- Hin]]. apply (proj1 (table_scan_In _ _)) in Hin.
    exists key, cells. split; [now apply In_table_lookup | reflexivity].
  - intros [key [cells [Hlookup ->]]]. exists (key, cells).
    split; [reflexivity|]. apply table_scan_In. now apply In_table_lookup.
Qed.

Lemma frame_has_row_key (columns : list string) (table : HTable) (row_key : string) :
  NoDup (keys table) -> table_complete columns table -> ~ In "row_key" columns ->
  has_row_key (map frame_row (table_scan table)) row_key <-> In row_key (keys table).
Proof.
  intros Hnodup Hcomplete Hreserved. unfold has_row_key. split.
  - intros [row [Hrow Hkey]].
    apply (frame_rows columns) in Hrow; try assumption.
    destruct Hrow as [key [cells [Hlookup ->]]].
    pose proof (dict_lookup_Some_In _ _ _ Hlookup) as Hin.
    destruct (Hcomplete key cells Hin) as [Hcells Hcolumns].
    destruct (frame_row_lookup key cells Hcells) as [Hrk _];
      [now rewrite Hcolumns|].
    rewrite Hrk in Hkey. injection Hkey as <-.
    apply dict_lookup_keys. congruence.
  - intros Hin. apply dict_lookup_keys in Hin.
    destruct (dict_lookup table row_key) as [cells|] eqn:Hlookup; [|congruence].
    exists (frame_row (row_key, cells)). split.
    + apply (frame_rows columns); try assumption. eauto.
    + pose proof (dict_lookup_Some_In _ _ _ Hlookup) as Hrow.
      destruct (Hcomplete row_key cells Hrow) as [Hcells Hcolumns].
      apply frame_row_lookup; [exact Hcells | now rewrite Hcolumns].
Qed.

Lemma NoDup_post_cells `{Conversions} (post : PostDict) : NoDup (keys (post_cells post)).
Proof. simpl. repeat constructor; simpl; intuition discriminate. Qed.

Lemma NoDup_comment_cells `{Conversions} (comment : CommentDict) (post_id : string) :
  NoDup (keys (comment_cells comment post_id)).
Proof. simpl. repeat constructor; simpl; intuition discriminate. Qed.

(** What one [put] of a row leaves in a complete table, seen in its frame. *)
Lemma put_then_scan (columns : list string) (table : HTable) (key : string)
  (data : Cells) :
  NoDup (keys table) ->
  table_complete columns (table_put table key data) ->
  ~ In "row_key" columns ->
  NoDup (keys data) ->
  let df := map frame_row (table_scan (table_put table key data)) in
  exists row,
    In row df
    /\ dict_lookup row "row_key" = Some key
    /\ (forall col v, In (col, v) data -> dict_lookup row col = Some v)
    /\ (forall col, ~ In col (keys data) -> col <> "row_key" ->
                    dict_lookup row col = dict_lookup (dict_get table key []) col)
    /\ (forall row', In row' df -> dict_lookup row' "row_key" = Some key ->
                     row' = row)
    /\ (forall key' cells, key' <> key -> dict_lookup table key' = Some cells ->
                           In (frame_row (key', cells)) df).
Proof.
  intros Hnodup Hcomplete Hreserved Hdata df.
  set (cells := put_cells (dict_get table key []) data).
  assert (Hnodup' : NoDup (keys (table_put table key data)))
    by now apply NoDup_keys_dict_set.
  assert (Hlookup : dict_lookup (table_put table key data) key = Some cells).
  { unfold table_put. now rewrite dict_lookup_set, String.eqb_refl. }
  pose proof (dict_lookup_Some_In _ _ _ Hlookup) as Hin.
  destruct (Hcomplete key cells Hin) as [Hcells Hcolumns].
  destruct (frame_row_lookup key cells Hcells) as [Hkey Hcols];
    [now rewrite Hcolumns|].
  exists (frame_row (key, cells)).
  split; [apply (frame_rows columns); eauto|].
  split; [exact Hkey|]. split; [|split; [|split]].
  - intros col v Hv. rewrite Hcols.
    + now apply lookup_put_cells.
    + unfold cells. apply keys_put_cells. right.
      unfold keys. apply in_map_iff. now exists (col, v).
  - intros col Hcol Hother.
    destruct (in_dec string_dec col (keys cells)) as [Hc|Hc].
    + rewrite Hcols by exact Hc. unfold cells.
      now apply lookup_put_cells_other.
    + assert (Hrow : dict_lookup (frame_row (key, cells)) col = None).
      { unfold frame_row. simpl. rewrite lookup_put_cells_other by exact Hc.
        simpl. destruct (String.eqb col "row_key") eqn:Heq; [|reflexivity].
        apply String.eqb_eq in Heq. contradiction. }
      rewrite Hrow. symmetry.
      destruct (dict_lookup (dict_get table key []) col) eqn:Hold; [|reflexivity].
      exfalso. apply Hc. unfold cells. apply keys_put_cells. left.
      apply dict_lookup_keys. congruence.
  - intros row' Hrow' Hkey'.
    apply (frame_rows columns) in Hrow'; try assumption.
    destruct Hrow' as [key' [cells' [Hlookup' ->]]].
    pose proof (dict_lookup_Some_In _ _ _ Hlookup') as Hin'.
    destruct (Hcomplete key' cells' Hin') as [Hcells' Hcolumns'].
    destruct (frame_row_lookup key' cells' Hcells') as [Hrk _];
      [now rewrite Hcolumns'|].
    rewrite Hrk in Hkey'. injection Hkey' as ->. congruence.
  - intros key' cells' Hother Hlookup'.
    apply (frame_rows columns); try assumption.
    exists key', cells'. split; [|reflexivity].
    unfold table_put. rewrite dict_lookup_set.
    apply String.eqb_neq in Hother. now rewrite Hother.
Qed.

Lemma length_table_put (table : HTable) (key : string) (data : Cells) :
  (In key (keys table) ->
   List.length (table_put table key data) = List.length table)
  /\ (~ In key (keys table) ->
      List.length (table_put table key data) = S (List.length table)).
Proof.
  unfold table_put. split; intros Hkey.
  - rewrite <- (length_map fst), <- (length_map fst table).
    fold (keys (dict_set table key (put_cells (dict_get table key []) data))).
    fold (keys table). now rewrite dict_set_length.
  - rewrite <- (length_map fst), <- (length_map fst table).
    fold (keys (dict_set table key (put_cells (dict_get table key []) data))).
    fold (keys table). rewrite keys_dict_set_new by exact Hkey.
    rewrite length_app. simpl. lia.
Qed.

(** X11. In a maintained store [store_post] succeeds, and the posts frame
    read afterwards has exactly one row under the key ["post_" + id]; that
    row holds every cell of the stored dict (absent author and selftext as
    the empty string, absent metrics as ["0"]) and reads back as the record
    of the post; the comments frame is the same as before. *)
Theorem store_post_round_trip `{Conversions} (conn : Connection) (post : PostDict) :
  maintained "reddit_" conn ->
  exists conn' df row,
    store_post "reddit_" conn post = Some conn'
    /\ to_dataframe conn' "posts" = Some df
    /\ In row df
    /\ dict_lookup row "row_key" = Some ("post_" ++ pd_id post)%string
    /\ (forall col v, In (col, v) (post_cells post) -> dict_lookup row col = Some v)
    /\ post_of_row row = Some (stored_post post)
    /\ (forall row', In row' df ->
                     dict_lookup row' "row_key" = Some ("post_" ++ pd_id post)%string ->
                     row' = row)
    /\ to_dataframe conn' "comments" = to_dataframe conn "comments".
Proof.
  intros Hconn.
  pose proof (maintained_well_stored _ _ Hconn)
    as [posts [comments [Hp [Hc [Hnp [Hnc [Hcp Hcc]]]]]]].
  assert (Hstore : store_post "reddit_" conn post
                   = Some (dict_set conn ("reddit_" ++ "posts")
                             (table_put posts ("post_" ++ pd_id post)
                                        (post_cells post)))).
  { unfold store_post, connection_put. now rewrite Hp. }
  pose proof (maintained_store_post _ _ _ _ Hconn Hstore) as Hconn'.
  apply maintained_well_stored in Hconn'.
  destruct Hconn' as [posts' [comments' [Hp' [_ [_ [_ [Hcp' _]]]]]]].
  rewrite dict_lookup_set, String.eqb_refl in Hp'. injection Hp' as <-.
  destruct (put_then_scan (tl post_columns) posts ("post_" ++ pd_id post)
              (post_cells post) Hnp Hcp')
    as [row [Hin [Hkey [Hcells [_ [Hunique _]]]]]];
    [not_row_key | apply NoDup_post_cells|].
  exists (dict_set conn ("reddit_" ++ "posts")
            (table_put posts ("post_" ++ pd_id post) (post_cells post))),
         (map frame_row
            (table_scan (table_put posts ("post_" ++ pd_id post) (post_cells post)))),
         row.
  split; [exact Hstore|]. split.
  { unfold to_dataframe. now rewrite dict_lookup_set, String.eqb_refl. }
  split; [exact Hin|]. split; [exact Hkey|]. split; [exact Hcells|].
  split; [|split; [exact Hunique|]].
  - unfold post_of_row, stored_post.
    rewrite (Hcells "post_data:id" (pd_id post)) by (simpl; tauto).
    rewrite (Hcells "post_data:title" (pd_title post)) by (simpl; tauto).
    rewrite (Hcells "post_data:subreddit" (pd_subreddit post)) by (simpl; tauto).
    rewrite (Hcells "post_data:author" (get_or (pd_author post) ""))
      by (simpl; tauto).
    rewrite (Hcells "metrics:score" (str_of_Z (get_or (pd_score post) 0%Z)))
      by (simpl; tauto).
    rewrite (Hcells "metrics:num_comments"
               (str_of_Z (get_or (pd_num_comments post) 0%Z)))
      by (simpl; tauto).
    reflexivity.
  - unfold to_dataframe. rewrite dict_lookup_set.
    now rewrite (posts_comments_differ "reddit_").
Qed.

Lemma store_post_round_trip_witness :
  exists conn' df row,
    store_post "reddit_" (ensure_tables "reddit_" []) bare_post_dict = Some conn'
    /\ to_dataframe conn' "posts" = Some df
    /\ In row df
    /\ post_of_row row = Some (mkPost "p2" "morning world news" "pics" "" "0" "0").
Proof.
  destruct (store_post_round_trip (ensure_tables "reddit_" []) bare_post_dict
              (maintained_new "reddit_"))
    as [conn' [df [row [Hstore [Hdf [Hin [_ [_ [Hrecord _]]]]]]]]].
  exists conn', df, row. repeat split; assumption.
Defined.

(** X12. [store_post] is an upsert: storing a post whose key is already in
    the posts frame leaves the number of rows as it is, storing a new one
    adds exactly one row, and in both cases every row stored under another
    key is kept unchanged. *)
Theorem store_post_upsert `{Conversions} (prefix : string)
  (conn conn' : Connection) (post : PostDict) :
  maintained prefix conn ->
  store_post prefix conn post = Some conn' ->
  let row_key := ("post_" ++ pd_id post)%string in
  let df := fetch_table_data prefix conn "posts" in
  let df' := fetch_table_data prefix conn' "posts" in
  (has_row_key df row_key -> List.length df' = List.length df)
  /\ (~ has_row_key df row_key -> List.length df' = S (List.length df))
  /\ (forall row, In row df -> dict_lookup row "row_key" <> Some row_key ->
                  In row df').
Proof.
  intros Hconn Hstore row_key df df'.
  pose proof (maintained_well_stored _ _ Hconn)
    as [posts [comments [Hp [Hc [Hnp [Hnc [Hcp Hcc]]]]]]].
  pose proof (maintained_store_post _ _ _ _ Hconn Hstore) as Hconn'.
  apply maintained_well_stored in Hconn'.
  destruct Hconn' as [posts' [comments' [Hp' [_ [_ [_ [Hcp' _]]]]]]].
  unfold store_post, connection_put in Hstore. rewrite Hp in Hstore.
  injection Hstore as <-.
  rewrite dict_lookup_set, String.eqb_refl in Hp'. injection Hp' as <-.
  subst df df'. unfold fetch_table_data.
  rewrite Hp, dict_lookup_set, String.eqb_refl.
  rewrite !length_map. unfold table_scan. rewrite !stable_sort_length.
  fold (table_scan posts).
  destruct (length_table_put posts row_key (post_cells post)) as [Hold Hnew].
  assert (Hreserved : ~ In "row_key" (tl post_columns)) by not_row_key.
  split; [|split].
  - intros Hhas. apply Hold.
    now apply (frame_has_row_key (tl post_columns)) in Hhas.
  - intros Hhas. apply Hnew. intros Hin. apply Hhas.
    now apply (frame_has_row_key (tl post_columns)).
  - intros row Hrow Hother.
    apply (frame_rows (tl post_columns)) in Hrow; try assumption.
    destruct Hrow as [key [cells [Hlookup ->]]].
    destruct (put_then_scan (tl post_columns) posts row_key (post_cells post)
                Hnp Hcp' Hreserved (NoDup_post_cells post))
      as [_ [_ [_ [_ [_ [_ Hkept]]]]]].
    apply Hkept; [|exact Hlookup].
    intros ->. apply Hother.
    pose proof (dict_lookup_Some_In _ _ _ Hlookup) as Hin.
    destruct (Hcp row_key cells Hin) as [Hcells Hcolumns].
    apply frame_row_lookup; [exact Hcells | now rewrite Hcolumns].
Qed.

Lemma store_post_upsert_witness :
  exists conn1 conn2,
    store_post "reddit_" (ensure_tables "reddit_" []) sample_post_dict = Some conn1
    /\ store_post "reddit_" conn1 sample_post_dict = Some conn2
    /\ List.length (fetch_table_data "reddit_" conn2 "posts")
       = List.length (fetch_table_data "reddit_" conn1 "posts").
Proof.
  destruct (store_post "reddit_" (ensure_tables "reddit_" []) sample_post_dict)
    as [conn1|] eqn:H1; [|discriminate].
  destruct (store_post "reddit_" conn1 sample_post_dict) as [conn2|] eqn:H2;
    [|vm_compute in H1; injection H1 as <-; discriminate].
  exists conn1, conn2. split; [reflexivity|]. split; [exact H2|].
  assert (Hconn1 : maintained "reddit_" conn1)
    by (eapply maintained_store_post; [apply maintained_new | exact H1]).
  apply (proj1 (store_post_upsert "reddit_" conn1 conn2 sample_post_dict
                  Hconn1 H2)).
  vm_compute in H1. injection H1 as <-.
  eexists. split; [left; reflexivity | reflexivity].
Defined.

(** X13. In a maintained store [store_comment] succeeds; the comments frame
    read afterwards has exactly one row under the key
    ["comment_" + id + "_post_" + post_id], which reads back as the record of
    the comment and names its post; the posts frame is the same as before.
    The key depends on the post: the same comment stored under another post
    id goes to another row. *)
Theorem store_comment_round_trip `{Conversions} (conn : Connection)
  (comment : CommentDict) (post_id : string) :
  maintained "reddit_" conn ->
  let row_key := ("comment_" ++ cd_id comment ++ "_post_" ++ post_id)%string in
  (exists conn' df row,
      store_comment "reddit_" conn comment post_id = Some conn'
      /\ to_dataframe conn' "comments" = Some df
      /\ In row df
      /\ dict_lookup row "row_key" = Some row_key
      /\ dict_lookup row "comment_data:post_id" = Some post_id
      /\ comment_of_row row = Some (stored_comment comment)
      /\ (forall row', In row' df -> dict_lookup row' "row_key" = Some row_key ->
                       row' = row)
      /\ to_dataframe conn' "posts" = to_dataframe conn "posts")
  /\ forall other_post,
       other_post <> post_id ->
       ("comment_" ++ cd_id comment ++ "_post_" ++ other_post)%string <> row_key.
Proof.
  intros Hconn row_key. split.
  - pose proof (maintained_well_stored _ _ Hconn)
      as [posts [comments [Hp [Hc [Hnp [Hnc [Hcp Hcc]]]]]]].
    assert (Hstore : store_comment "reddit_" conn comment post_id
                     = Some (dict_set conn ("reddit_" ++ "comments")
                               (table_put comments row_key
                                          (comment_cells comment post_id)))).
    { unfold store_comment, connection_put. now rewrite Hc. }
    pose proof (maintained_store_comment _ _ _ _ _ Hconn Hstore) as Hconn'.
    apply maintained_well_stored in Hconn'.
    destruct Hconn' as [posts' [comments' [_ [Hc' [_ [_ [_ Hcc']]]]]]].
    rewrite dict_lookup_set, String.eqb_refl in Hc'. injection Hc' as <-.
    destruct (put_then_scan (tl comment_columns) comments row_key
                (comment_cells comment post_id) Hnc Hcc')
      as [row [Hin [Hkey [Hcells [_ [Hunique _]]]]]];
      [not_row_key | apply NoDup_comment_cells|].
    exists (dict_set conn ("reddit_" ++ "comments")
              (table_put comments row_key (comment_cells comment post_id))),
           (map frame_row
              (table_scan (table_put comments row_key
                                     (comment_cells comment post_id)))),
           row.
    split; [exact Hstore|]. split.
    { unfold to_dataframe. now rewrite dict_lookup_set, String.eqb_refl. }
    split; [exact Hin|]. split; [exact Hkey|].
    split; [apply Hcells; simpl; tauto|].
    split; [|split; [exact Hunique|]].
    + unfold comment_of_row, stored_comment.
      rewrite (Hcells "comment_data:id" (cd_id comment)) by (simpl; tauto).
      rewrite (Hcells "comment_data:text" (cd_body comment)) by (simpl; tauto).
      rewrite (Hcells "comment_data:author" (get_or (cd_author comment) ""))
        by (simpl; tauto).
      rewrite (Hcells "comment_data:parent_id" (get_or (cd_parent_id comment) ""))
        by (simpl; tauto).
      rewrite (Hcells "metrics:score" (str_of_Z (get_or (cd_score comment) 0%Z)))
        by (simpl; tauto).
      reflexivity.
    + unfold to_dataframe. rewrite dict_lookup_set.
      now rewrite String.eqb_sym, (posts_comments_differ "reddit_").
  - intros other_post Hother Heq. apply Hother. unfold row_key in Heq.
    apply (append_inj_l "comment_") in Heq.
    apply append_inj_l in Heq. now apply (append_inj_l "_post_") in Heq.
Qed.

Lemma store_comment_round_trip_witness :
  exists conn' df row,
    store_comment "reddit_" (ensure_tables "reddit_" []) sample_comment_dict "p1"
    = Some conn'
    /\ to_dataframe conn' "comments" = Some df
    /\ In row df
    /\ comment_of_row row = Some (mkComment "a" "good" "alice" "t3_p1" "10").
Proof.
  destruct (proj1 (store_comment_round_trip (ensure_tables "reddit_" [])
                     sample_comment_dict "p1" (maintained_new "reddit_")))
    as [conn' [df [row [Hstore [Hdf [Hin [_ [_ [Hrecord _]]]]]]]]].
  exists conn', df, row. repeat split; assumption.
Defined.

(* ------------------------------------------------------------------ *)

Lemma fold_table_delete_filter (row_keys : list string) : forall table,
  fold_left table_delete row_keys table
  = filter (fun row => negb (mem (fst row) row_keys)) table.
Proof.
  induction row_keys as [|k row_keys IH]; intros table; simpl.
  - symmetry. apply forallb_filter_id. now apply forallb_forall.
  - rewrite IH. unfold table_delete.
    induction table as [|[key cells] table IHt]; simpl; [reflexivity|].
    unfold mem in *. simpl.
    rewrite (String.eqb_sym key k).
    destruct (String.eqb k key); simpl; [exact IHt|].
    destruct (existsb (String.eqb key) row_keys); simpl; [exact IHt|].
    now rewrite IHt.
Qed.

Lemma filter_none {A : Type} (p : A -> bool) (l : list A) :
  (forall x, In x l -> p x = false) -> filter p l = [].
Proof.
  induction l as [|x l IH]; simpl; intros Hall; [reflexivity|].
  rewrite (Hall x) by now left. apply IH. intros y Hy. apply Hall. now right.
Qed.

Lemma clear_all_rows (table : HTable) :
  fold_left table_delete (map fst (table_scan table)) table = [].
Proof.
  rewrite fold_table_delete_filter. apply filter_none.
  intros row Hrow. apply negb_false_iff, mem_In, in_map.
  now apply table_scan_In.
Qed.

(** X14. After [delete_all_data] on a maintained store both frames are
    empty, and both tables still exist. *)
Theorem delete_all_data_empties `{Conversions} (prefix : string) (conn : Connection) :
  maintained prefix conn ->
  dict_lookup (delete_all_data prefix conn) (prefix ++ "posts") = Some []
  /\ dict_lookup (delete_all_data prefix conn) (prefix ++ "comments") = Some []
  /\ fetch_table_data prefix (delete_all_data prefix conn) "posts" = []
  /\ fetch_table_data prefix (delete_all_data prefix conn) "comments" = [].
Proof.
  intros Hconn.
  pose proof (maintained_well_stored _ _ Hconn)
    as [posts [comments [Hp [Hc _]]]].
  assert (Htables :
            dict_lookup (delete_all_data prefix conn) (prefix ++ "posts") = Some []
            /\ dict_lookup (delete_all_data prefix conn) (prefix ++ "comments")
               = Some []).
  { unfold delete_all_data, clear_table. rewrite Hp.
    rewrite dict_lookup_set, posts_comments_differ, Hc. simpl.
    rewrite !clear_all_rows, !dict_lookup_set.
    rewrite String.eqb_refl, String.eqb_sym, posts_comments_differ,
            String.eqb_refl.
    tauto. }
  destruct Htables as [Hposts Hcomments].
  unfold fetch_table_data. rewrite Hposts, Hcomments. tauto.
Qed.

Lemma delete_all_data_empties_witness :
  exists conn,
    sample_store = Some conn
    /\ fetch_table_data "reddit_" conn "posts" <> []
    /\ fetch_table_data "reddit_" (delete_all_data "reddit_" conn) "posts" = [].
Proof.
  destruct sample_store as [conn|] eqn:Hstore; [|discriminate].
  exists conn. split; [reflexivity|].
  assert (Hconn : maintained "reddit_" conn).
  { unfold sample_store in Hstore.
    destruct (store_post "reddit_" (ensure_tables "reddit_" []) sample_post_dict)
      as [conn1|] eqn:H1; [|discriminate].
    destruct (store_post "reddit_" conn1 bare_post_dict) as [conn2|] eqn:H2;
      [|discriminate].
    eapply maintained_store_comment; [|exact Hstore].
    eapply maintained_store_post; [|exact H2].
    eapply maintained_store_post; [|exact H1].
    apply maintained_new. }
  split.
  - vm_compute in Hstore. injection Hstore as <-. discriminate.
  - apply (delete_all_data_empties "reddit_" conn Hconn).
Defined.

(* ------------------------------------------------------------------ *)

Lemma length_column_values (df : list Cells) (col : string) :
  (List.length (column_values df col) <= List.length df)%nat
  /\ (complete [col] df -> List.length (column_values df col) = List.length df).
Proof.
  unfold column_values, complete. induction df as [|row df [IHle IHeq]]; simpl.
  - split; [lia | reflexivity].
  - rewrite length_app. split.
    + destruct (dict_lookup row col); simpl; lia.
    + intros Hcomplete. inversion Hcomplete as [|? ? Hrow Hrest]; subst.
      rewrite (IHeq Hrest).
      destruct (dict_lookup row col) eqn:Hcol; [reflexivity|].
      exfalso. apply (Hrow col); [now left | exact Hcol].
Qed.

Lemma length_distinct (l : list string) :
  (List.length (distinct l) <= List.length l)%nat.
Proof.
  induction l as [|x l IH]; simpl; [lia|].
  pose proof (filter_length_le (fun y => negb (String.eqb x y)) (distinct l)). lia.
Qed.

Lemma complete_column (columns : list string) (df : list Cells) (col : string) :
  complete columns df -> In col columns -> complete [col] df.
Proof.
  unfold complete. intros Hcomplete Hcol. eapply Forall_impl; [|exact Hcomplete].
  intros row Hrow c [<-|[]]. now apply Hrow.
Qed.

(** X15. In the statistics of the admin page the number of unique
    subreddits is the number of entries of [posts_per_subreddit], no unique
    count exceeds the number of rows, and the sizes in [posts_per_subreddit]
    add up to at most [total_posts], to exactly [total_posts] on a
    maintained store. *)
Theorem table_stats_consistent `{Conversions} (prefix : string) (conn : Connection) :
  let stats := get_table_stats prefix conn in
  unique_subreddits stats = List.length (posts_per_subreddit stats)
  /\ (unique_subreddits stats <= total_posts stats)%nat
  /\ (unique_post_authors stats <= total_posts stats)%nat
  /\ (unique_comment_authors stats <= total_comments stats)%nat
  /\ (total_count (posts_per_subreddit stats) <= total_posts stats)%nat
  /\ (maintained prefix conn ->
      total_count (posts_per_subreddit stats) = total_posts stats).
Proof.
  cbv zeta. unfold get_table_stats. cbn [unique_subreddits posts_per_subreddit
    total_posts unique_post_authors unique_comment_authors total_comments].
  set (posts_df := fetch_table_data prefix conn "posts").
  set (comments_df := fetch_table_data prefix conn "comments").
  assert (Htotal : total_count (group_sizes posts_df "post_data:subreddit")
                   = List.length (column_values posts_df "post_data:subreddit")).
  { unfold group_sizes.
    rewrite (total_count_perm _ _ (stable_sort_perm key_le _)).
    unfold tally. now rewrite total_count_tally_loop. }
  unfold nunique.
  pose proof (length_distinct (column_values posts_df "post_data:subreddit")).
  pose proof (length_distinct (column_values posts_df "post_data:author")).
  pose proof (length_distinct (column_values comments_df "comment_data:author")).
  destruct (length_column_values posts_df "post_data:subreddit") as [Hs Hs'].
  destruct (length_column_values posts_df "post_data:author") as [Ha _].
  destruct (length_column_values comments_df "comment_data:author") as [Hc _].
  split; [|repeat split; try lia].
  - unfold group_sizes. now rewrite stable_sort_length, length_tally.
  - intros Hconn. rewrite Htotal. apply Hs'.
    apply (complete_column post_columns); [|simpl; tauto].
    apply maintained_well_stored in Hconn.
    destruct Hconn as [posts [comments [Hp [_ [_ [_ [Hcp _]]]]]]].
    unfold posts_df, fetch_table_data. rewrite Hp.
    apply (frame_complete (tl post_columns)); [exact Hcp | not_row_key].
Qed.

Lemma sample_store_maintained (conn : Connection) :
  sample_store = Some conn -> maintained "reddit_" conn.
Proof.
  unfold sample_store. intros Hstore.
  destruct (store_post "reddit_" (ensure_tables "reddit_" []) sample_post_dict)
    as [conn1|] eqn:H1; [|discriminate].
  destruct (store_post "reddit_" conn1 bare_post_dict) as [conn2|] eqn:H2;
    [|discriminate].
  eapply maintained_store_comment; [|exact Hstore].
  eapply maintained_store_post; [|exact H2].
  eapply maintained_store_post; [|exact H1].
  apply maintained_new.
Qed.

Lemma table_stats_consistent_witness :
  exists conn,
    sample_store = Some conn
    /\ total_count (posts_per_subreddit (get_table_stats "reddit_" conn))
       = total_posts (get_table_stats "reddit_" conn).
Proof.
  destruct sample_store as [conn|] eqn:Hstore; [|discriminate].
  exists conn. split; [reflexivity|].
  apply (table_stats_consistent "reddit_" conn).
  now apply sample_store_maintained.
Defined.

(* ------------------------------------------------------------------ *)

Lemma list_ascii_of_append (a b : string) :
  list_ascii_of_string (a ++ b)
  = list_ascii_of_string a ++ list_ascii_of_string b.
Proof. induction a as [|c a IH]; simpl; [reflexivity | now rewrite IH]. Qed.

Lemma append_inj_r (a b s : string) : (a ++ s = b ++ s)%string -> a = b.
Proof.
  intros Heq. apply (f_equal list_ascii_of_string) in Heq.
  rewrite !list_ascii_of_append in Heq. apply app_inv_tail in Heq.
  apply (f_equal string_of_list_ascii) in Heq.
  now rewrite !string_of_list_ascii_of_string in Heq.
Qed.

Lemma posts_is_not_comments (a b : string) :
  (a ++ "posts")%string <> (b ++ "comments")%string.
Proof.
  intros Heq. apply (f_equal list_ascii_of_string) in Heq.
  rewrite !list_ascii_of_append in Heq.
  apply (f_equal (@rev ascii)) in Heq. rewrite !rev_app_distr in Heq.
  simpl in Heq. discriminate.
Qed.

(** The tables of a maintained connection are the two that [ensure_tables]
    created. *)
Lemma maintained_tables `{Conversions} (prefix : string) (conn : Connection) :
  maintained prefix conn ->
  keys conn = [(prefix ++ "posts")%string; (prefix ++ "comments")%string].
Proof.
  assert (Hset : forall (c : Connection) name table,
             dict_lookup c name <> None -> keys (dict_set c name table) = keys c).
  { intros c name table Hname. apply dict_set_length.
    now apply dict_lookup_keys. }
  assert (Hput : forall (c : Connection) name key data,
             keys (get_or (connection_put c name key data) c) = keys c).
  { intros c name key data. unfold connection_put.
    destruct (dict_lookup c name) eqn:Hname; simpl; [|reflexivity].
    apply Hset. congruence. }
  induction 1 as [|conn conn' post _ IH Hstore
                  |conn conn' comment post_id _ IH Hstore
                  |conn update_id new_title new_score _ IH
                  |conn posts_df delete_id confirm _ IH
                  |conn _ IH].
  - unfold ensure_tables. simpl. rewrite posts_comments_differ. reflexivity.
  - rewrite <- IH. unfold store_post in Hstore.
    specialize (Hput conn (prefix ++ "posts")%string
                     ("post_" ++ pd_id post)%string (post_cells post)).
    now rewrite Hstore in Hput.
  - rewrite <- IH. unfold store_comment in Hstore.
    specialize (Hput conn (prefix ++ "comments")%string
                     ("comment_" ++ cd_id comment ++ "_post_" ++ post_id)%string
                     (comment_cells comment post_id)).
    now rewrite Hstore in Hput.
  - rewrite <- IH. unfold update_post.
    destruct (truthy update_id); [|reflexivity].
    destruct (first_row_key _ _ _); [apply Hput | reflexivity].
  - rewrite <- IH. unfold delete_post.
    destruct (truthy delete_id && confirm); [|reflexivity].
    destruct (first_row_key _ _ _); [|reflexivity].
    unfold connection_delete.
    destruct (dict_lookup conn (prefix ++ "posts")) eqn:Hname; simpl;
      [|reflexivity].
    apply Hset. congruence.
  - rewrite <- IH. unfold delete_all_data, clear_table.
    destruct (dict_lookup conn (prefix ++ "posts")) eqn:Hp; [|reflexivity].
    destruct (dict_lookup (dict_set conn (prefix ++ "posts") _)
                          (prefix ++ "comments")) eqn:Hc; simpl.
    + rewrite Hset by congruence. apply Hset. congruence.
    + apply Hset. congruence.
Qed.

(** X16. [to_dataframe] reads the tables named ["reddit_posts"] and
    ["reddit_comments"] whatever prefix is configured: in a store maintained
    under another prefix these tables do not exist, so every analytics call
    fails on its first read, while the admin page, which uses the configured
    prefix, reads the stored rows. *)
Theorem analytics_ignore_configured_prefix `{Conversions} (prefix : string)
  (conn : Connection) :
  maintained prefix conn ->
  prefix <> "reddit_" ->
  to_dataframe conn "posts" = None
  /\ to_dataframe conn "comments" = None
  /\ dict_lookup conn (prefix ++ "posts") <> None
  /\ dict_lookup conn (prefix ++ "comments") <> None.
Proof.
  intros Hconn Hprefix.
  pose proof (maintained_tables prefix conn Hconn) as Hkeys.
  assert (Hmissing : forall name,
             ~ In name (keys conn) -> dict_lookup conn name = None).
  { intros name Hname. destruct (dict_lookup conn name) eqn:Hlookup;
      [|reflexivity].
    exfalso. apply Hname. apply dict_lookup_keys. congruence. }
  assert (Hposts : ~ In ("reddit_" ++ "posts")%string (keys conn)).
  { rewrite Hkeys. simpl. intros [Heq|[Heq|[]]].
    - apply (append_inj_r prefix "reddit_" "posts") in Heq. congruence.
    - exact (posts_is_not_comments "reddit_" prefix (eq_sym Heq)). }
  assert (Hcomments : ~ In ("reddit_" ++ "comments")%string (keys conn)).
  { rewrite Hkeys. simpl. intros [Heq|[Heq|[]]].
    - exact (posts_is_not_comments prefix "reddit_" Heq).
    - apply (append_inj_r prefix "reddit_" "comments") in Heq. congruence. }
  unfold to_dataframe.
  rewrite (Hmissing _ Hposts), (Hmissing _ Hcomments).
  split; [reflexivity|]. split; [reflexivity|].
  split; apply dict_lookup_keys; rewrite Hkeys; simpl; tauto.
Qed.

Lemma analytics_ignore_configured_prefix_witness :
  to_dataframe (ensure_tables "test_" []) "posts" = None
  /\ fetch_table_data "test_" (ensure_tables "test_" []) "posts" = [].
Proof.
  split; [|reflexivity].
  apply (analytics_ignore_configured_prefix "test_" (ensure_tables "test_" [])
           (maintained_new "test_")).
  discriminate.
Defined.

(* ------------------------------------------------------------------ *)

Lemma frame_row_lookup_other (key : string) (cells : Cells) (col : string) :
  NoDup (keys cells) -> ~ In "row_key" (keys cells) -> col <> "row_key" ->
  dict_lookup (frame_row (key, cells)) col = dict_lookup cells col.
Proof.
  intros Hnodup Hreserved Hcol.
  destruct (in_dec string_dec col (keys cells)) as [Hin|Hout].
  - now apply frame_row_lookup.
  - unfold frame_row. simpl. rewrite lookup_put_cells_other by exact Hout.
    simpl. apply String.eqb_neq in Hcol. rewrite Hcol.
    destruct (dict_lookup cells col) eqn:Hlookup; [|reflexivity].
    exfalso. apply Hout. apply dict_lookup_keys. congruence.
Qed.

(** X17. The "Update Post" form, given the current frame and the id of a
    stored post, rewrites the title and the score of the row of that post
    and nothing else: the other cells of the row, the other rows and the
    number of rows stay as they are.  With an empty id, or an id the frame
    does not hold, the store is left unchanged. *)
Theorem update_post_effect `{Conversions} (prefix : string) (conn : Connection)
  (update_id new_title : string) (new_score : nat) :
  maintained prefix conn ->
  let df := fetch_table_data prefix conn "posts" in
  let conn' := update_post prefix conn df update_id new_title new_score in
  let df' := fetch_table_data prefix conn' "posts" in
  (update_id = "" \/ first_row_key df "post_data:id" update_id = None ->
   conn' = conn)
  /\ forall row_key,
       update_id <> "" ->
       first_row_key df "post_data:id" update_id = Some row_key ->
       List.length df' = List.length df
       /\ (forall row, In row df -> dict_lookup row "row_key" <> Some row_key ->
                       In row df')
       /\ exists old new,
            In old df /\ In new df'
            /\ dict_lookup old "row_key" = Some row_key
            /\ dict_lookup new "row_key" = Some row_key
            /\ dict_lookup new "post_data:title" = Some new_title
            /\ dict_lookup new "metrics:score" = Some (str_of_nat new_score)
            /\ forall col, col <> "post_data:title" -> col <> "metrics:score" ->
                           dict_lookup new col = dict_lookup old col.
Proof.
  intros Hconn df conn' df'. split.
  - subst conn'. unfold update_post.
    intros [-> | Hnone]; [reflexivity|].
    rewrite Hnone. now destruct (truthy update_id).
  - intros row_key Hid Hkey.
    pose proof (maintained_well_stored _ _ Hconn)
      as [posts [comments [Hp [Hc [Hnp [Hnc [Hcp Hcc]]]]]]].
    pose proof (maintained_update_post prefix conn update_id new_title new_score
                  Hconn) as Hconn'.
    apply maintained_well_stored in Hconn'.
    destruct Hconn' as [posts' [comments' [Hp' [_ [_ [_ [Hcp' _]]]]]]].
    fold df in Hp'. fold conn' in Hp'.
    assert (Hreserved : ~ In "row_key" (tl post_columns)) by not_row_key.
    assert (Hstored : In row_key (keys posts)).
    { subst df. unfold fetch_table_data in Hkey. rewrite Hp in Hkey.
      now apply (first_row_key_stored (tl post_columns)) in Hkey. }
    set (data := [("post_data:title", new_title);
                  ("metrics:score", str_of_nat new_score)]) in *.
    assert (Hconn'_eq : conn' = dict_set conn (prefix ++ "posts")
                                  (table_put posts row_key data)).
    { subst conn'. unfold update_post.
      apply truthy_true in Hid. rewrite Hid, Hkey.
      unfold connection_put. now rewrite Hp. }
    rewrite Hconn'_eq, dict_lookup_set, String.eqb_refl in Hp'.
    injection Hp' as <-.
    assert (Hdata : NoDup (keys data))
      by (simpl; repeat constructor; simpl; intuition discriminate).
    destruct (put_then_scan (tl post_columns) posts row_key data
                Hnp Hcp' Hreserved Hdata)
      as [new [Hnew [Hnew_key [Hcells [Hkept_cells [_ Hkept_rows]]]]]].
    assert (Hdf : df = map frame_row (table_scan posts)).
    { subst df. unfold fetch_table_data. now rewrite Hp. }
    assert (Hdf' : df' = map frame_row
                           (table_scan (table_put posts row_key data))).
    { subst df'. unfold fetch_table_data.
      now rewrite Hconn'_eq, dict_lookup_set, String.eqb_refl. }
    rewrite Hdf, Hdf'. split; [|split].
    + rewrite !length_map. unfold table_scan. rewrite !stable_sort_length.
      now apply length_table_put.
    + intros row Hrow Hother.
      apply (frame_rows (tl post_columns)) in Hrow; try assumption.
      destruct Hrow as [key [cells [Hlookup ->]]].
      apply Hkept_rows; [|exact Hlookup].
      intros ->. apply Hother.
      pose proof (dict_lookup_Some_In _ _ _ Hlookup) as Hin.
      destruct (Hcp row_key cells Hin) as [Hcells' Hcolumns].
      apply frame_row_lookup; [exact Hcells' | now rewrite Hcolumns].
    + pose proof (In_dict_get posts row_key [] Hstored) as Hold.
      destruct (Hcp _ _ Hold) as [Hold_cells Hold_columns].
      assert (Hold_reserved : ~ In "row_key" (keys (dict_get posts row_key [])))
        by now rewrite Hold_columns.
      exists (frame_row (row_key, dict_get posts row_key [])), new.
      split.
      { apply (frame_rows (tl post_columns)); try assumption.
        exists row_key, (dict_get posts row_key []).
        split; [now apply In_dict_lookup | reflexivity]. }
      split; [exact Hnew|].
      split; [now apply frame_row_lookup|].
      split; [exact Hnew_key|].
      split; [apply Hcells; simpl; tauto|].
      split; [apply Hcells; simpl; tauto|].
      intros col Htitle Hscore.
      destruct (string_dec col "row_key") as [->|Hcol].
      * rewrite Hnew_key. symmetry. now apply frame_row_lookup.
      * rewrite frame_row_lookup_other by assumption.
        apply Hkept_cells; [|exact Hcol].
        simpl. intuition congruence.
Qed.

Lemma update_post_effect_witness :
  exists conn,
    sample_store = Some conn
    /\ List.length
         (fetch_table_data "reddit_"
            (update_post "reddit_" conn (fetch_table_data "reddit_" conn "posts")
                         "p2" "evening news" 7)
            "posts")
       = List.length (fetch_table_data "reddit_" conn "posts").
Proof.
  destruct sample_store as [conn|] eqn:Hstore; [|discriminate].
  exists conn. split; [reflexivity|].
  pose proof (sample_store_maintained conn Hstore) as Hconn.
  apply (proj2 (update_post_effect "reddit_" conn "p2" "evening news" 7 Hconn)
           "post_p2"); [discriminate|].
  vm_compute in Hstore. injection Hstore as <-. reflexivity.
Defined.

(* ================================================================== *)
(** * Fetching                                                         *)
(* ================================================================== *)

Section Fetching.
Context `{Conversions} `{RedditConnector}.

Lemma store_post_keeps (prefix : string) (conn conn' : Connection) (post : PostDict) :
  store_post prefix conn post = Some conn' ->
  post_key_stored prefix conn' ("post_" ++ pd_id post)
  /\ forall key, post_key_stored prefix conn key -> post_key_stored prefix conn' key.
Proof.
  unfold store_post, connection_put, post_key_stored.
  destruct (dict_lookup conn (prefix ++ "posts")) as [posts|] eqn:Hp;
    [|discriminate].
  intros Hstore. injection Hstore as <-.
  rewrite dict_lookup_set, String.eqb_refl. split.
  - eexists. split; [reflexivity|]. unfold table_put.
    apply keys_dict_set. now left.
  - intros key [posts0 [Hp0 Hkey]]. injection Hp0 as <-.
    eexists. split; [reflexivity|]. unfold table_put.
    apply keys_dict_set. now right.
Qed.

Lemma store_comments_keeps (prefix : string) (comments : list RedditComment)
  (post_id : string) : forall conn,
  maintained prefix conn ->
  maintained prefix (store_comments prefix conn comments post_id)
  /\ dict_lookup (store_comments prefix conn comments post_id) (prefix ++ "posts")
     = dict_lookup conn (prefix ++ "posts").
Proof.
  induction comments as [|comment comments IH]; simpl; intros conn Hconn;
    [tauto|].
  destruct (store_comment prefix conn (comment_dict_of comment) post_id)
    as [conn'|] eqn:Hstore; [|tauto].
  destruct (IH conn' (maintained_store_comment _ _ _ _ _ Hconn Hstore))
    as [Hconn' Hposts].
  split; [exact Hconn'|]. rewrite Hposts.
  unfold store_comment, connection_put in Hstore.
  destruct (dict_lookup conn (prefix ++ "comments")); [|discriminate].
  injection Hstore as <-.
  now rewrite dict_lookup_set, String.eqb_sym, posts_comments_differ.
Qed.

Lemma store_fetched_keeps (prefix : string) (posts : list Submission) :
  forall conn,
    maintained prefix conn ->
    maintained prefix (snd (store_fetched prefix conn posts))
    /\ (forall key, post_key_stored prefix conn key ->
                    post_key_stored prefix (snd (store_fetched prefix conn posts)) key)
    /\ (fst (store_fetched prefix conn posts) = true ->
        forall post, In post posts ->
                     post_key_stored prefix (snd (store_fetched prefix conn posts))
                                     ("post_" ++ sub_id post)).
Proof.
  induction posts as [|post posts IH]; simpl; intros conn Hconn.
  - split; [exact Hconn|]. split; [tauto|]. intros _ post [].
  - destruct (store_post prefix conn (post_dict_of post)) as [conn1|] eqn:Hstore;
      simpl; [|split; [exact Hconn|]; split; [tauto | discriminate]].
    pose proof (maintained_store_post _ _ _ _ Hconn Hstore) as Hconn1.
    destruct (store_post_keeps _ _ _ _ Hstore) as [Hnew Hold].
    set (conn2 := match get_post_comments (sub_id post) with
                  | Some comments =>
                      store_comments prefix conn1 comments (sub_id post)
                  | None => conn1
                  end).
    assert (Hconn2 : maintained prefix conn2
                     /\ dict_lookup conn2 (prefix ++ "posts")
                        = dict_lookup conn1 (prefix ++ "posts")).
    { unfold conn2. destruct (get_post_comments (sub_id post));
        [now apply store_comments_keeps | tauto]. }
    destruct Hconn2 as [Hconn2 Hsame].
    assert (Hstep : forall key, post_key_stored prefix conn1 key ->
                                post_key_stored prefix conn2 key).
    { intros key [t [Ht Hkey]]. exists t. now rewrite Hsame. }
    destruct (IH conn2 Hconn2) as [Hfinal [Hkeep Hall]].
    split; [exact Hfinal|]. split; [auto|].
    intros Hok p [<-|Hp]; [|now apply Hall].
    apply Hkeep, Hstep. exact Hnew.
Qed.

Lemma post_key_stored_frame (prefix : string) (conn : Connection) (key : string) :
  maintained prefix conn ->
  post_key_stored prefix conn key ->
  has_row_key (fetch_table_data prefix conn "posts") key.
Proof.
  intros Hconn [posts [Hp Hkey]].
  apply maintained_well_stored in Hconn.
  destruct Hconn as [posts' [comments [Hp' [_ [Hnp [_ [Hcp _]]]]]]].
  rewrite Hp in Hp'. injection Hp' as <-.
  unfold fetch_table_data. rewrite Hp.
  apply (frame_has_row_key (tl post_columns)); try assumption. not_row_key.
Qed.
End Fetching.

(** X18. [fetch_and_store_data] returns [False] and leaves the store as it
    is unless exactly one of its three inputs is given; it does the same
    whenever neither a subreddit nor a query is given, so a fetch by post id
    never stores anything ([RedditConnector] has no [get_post_by_id]). *)
Theorem fetch_needs_subreddit_or_query `{Conversions} `{RedditConnector}
  (prefix : string) (conn : Connection)
  (subreddit_name query post_id : option string) (limit : nat) :
  (inputs_given subreddit_name query post_id <> 1%nat ->
   fetch_and_store_data prefix conn subreddit_name query post_id limit
   = (false, conn))
  /\ (given subreddit_name = false -> given query = false ->
      fetch_and_store_data prefix conn subreddit_name query post_id limit
      = (false, conn)).
Proof.
  unfold fetch_and_store_data. split.
  - intros Hinputs. apply Nat.eqb_neq in Hinputs. now rewrite Hinputs.
  - intros -> ->. now destruct (negb _).
Qed.

Lemma fetch_needs_subreddit_or_query_witness :
  fetch_and_store_data "reddit_" (ensure_tables "reddit_" [])
                       None None (Some "p9") 10
  = (false, ensure_tables "reddit_" [])
  /\ fetch_and_store_data "reddit_" (ensure_tables "reddit_" [])
                          (Some "python") (Some "typing") None 10
     = (false, ensure_tables "reddit_" []).
Proof.
  split.
  - apply (proj2 (fetch_needs_subreddit_or_query "reddit_"
                    (ensure_tables "reddit_" []) None None (Some "p9") 10));
      reflexivity.
  - apply (proj1 (fetch_needs_subreddit_or_query "reddit_"
                    (ensure_tables "reddit_" [])
                    (Some "python") (Some "typing") None 10)).
    discriminate.
Defined.

(** X19. On a maintained store [fetch_and_store_data] leaves a maintained
    store, whether it succeeds or not, and never removes a posts row; when
    it returns [True], the connector returned a non-empty list of
    submissions and the posts frame has a row under ["post_" + id] for each
    of them. *)
Theorem fetch_stores_every_post `{Conversions} `{RedditConnector}
  (prefix : string) (conn : Connection)
  (subreddit_name query post_id : option string) (limit : nat) :
  maintained prefix conn ->
  let result :=
    fetch_and_store_data prefix conn subreddit_name query post_id limit in
  maintained prefix (snd result)
  /\ (forall key, has_row_key (fetch_table_data prefix conn "posts") key ->
                  has_row_key (fetch_table_data prefix (snd result) "posts") key)
  /\ (fst result = true ->
      exists posts,
        posts <> []
        /\ (get_subreddit_posts (get_or subreddit_name "") limit = Some posts
            \/ search_posts (get_or query "") limit = Some posts)
        /\ forall post, In post posts ->
                        has_row_key (fetch_table_data prefix (snd result) "posts")
                                    ("post_" ++ sub_id post)).
Proof.
  intros Hconn result.
  assert (Hframe : forall key,
             has_row_key (fetch_table_data prefix conn "posts") key ->
             post_key_stored prefix conn key).
  { intros key Hkey.
    pose proof (maintained_well_stored _ _ Hconn)
      as [posts [comments [Hp [_ [Hnp [_ [Hcp _]]]]]]].
    exists posts. split; [exact Hp|].
    unfold fetch_table_data in Hkey. rewrite Hp in Hkey.
    apply (frame_has_row_key (tl post_columns)) in Hkey; try assumption.
    not_row_key. }
  assert (Hunchanged :
            maintained prefix (snd (false, conn))
            /\ (forall key,
                   has_row_key (fetch_table_data prefix conn "posts") key ->
                   has_row_key
                     (fetch_table_data prefix (snd (false, conn)) "posts") key)
            /\ (fst (false, conn) = true ->
                exists posts,
                  posts <> []
                  /\ (get_subreddit_posts (get_or subreddit_name "") limit
                      = Some posts
                      \/ search_posts (get_or query "") limit = Some posts)
                  /\ forall post, In post posts ->
                       has_row_key
                         (fetch_table_data prefix (snd (false, conn)) "posts")
                         ("post_" ++ sub_id post))).
  { simpl. split; [exact Hconn|]. split; [tauto | discriminate]. }
  subst result. unfold fetch_and_store_data.
  destruct (negb (Nat.eqb (inputs_given subreddit_name query post_id) 1));
    [exact Hunchanged|].
  set (fetched := if given subreddit_name
                  then get_subreddit_posts (get_or subreddit_name "") limit
                  else if given query
                       then search_posts (get_or query "") limit
                       else None).
  assert (Hfetched : forall posts, fetched = Some posts ->
             get_subreddit_posts (get_or subreddit_name "") limit = Some posts
             \/ search_posts (get_or query "") limit = Some posts).
  { unfold fetched. intros posts.
    destruct (given subreddit_name); [tauto|].
    destruct (given query); [tauto | discriminate]. }
  destruct fetched as [posts|]; [|exact Hunchanged].
  destruct (Nat.eqb (List.length posts) 0) eqn:Hlen; [exact Hunchanged|].
  destruct (store_fetched_keeps prefix posts conn Hconn) as [Hfinal [Hkeep Hall]].
  split; [exact Hfinal|]. split.
  - intros key Hkey. apply post_key_stored_frame; [exact Hfinal|].
    apply Hkeep, Hframe, Hkey.
  - intros Hok. exists posts. split; [|split].
    + intros ->. discriminate.
    + now apply Hfetched.
    + intros post Hpost. apply post_key_stored_frame; [exact Hfinal|].
      now apply Hall.
Qed.

Lemma fetch_stores_every_post_witness :
  has_row_key
    (fetch_table_data "reddit_"
       (snd (fetch_and_store_data "reddit_" (ensure_tables "reddit_" [])
                                  (Some "python") None None 10))
       "posts")
    "post_p9".
Proof.
  destruct (fetch_stores_every_post "reddit_" (ensure_tables "reddit_" [])
              (Some "python") None None 10 (maintained_new "reddit_"))
    as [_ [_ Hfetched]].
  destruct (Hfetched eq_refl) as [posts [_ [[Hposts|Hposts] Hrows]]];
    [|discriminate].
  apply (Hrows sample_submission).
  vm_compute in Hposts. injection Hposts as <-. now left.
Defined.

(* ================================================================== *)
(** * Corpora without replies between comments                         *)
(* ================================================================== *)

Lemma reply_loop_no_edge (all rows : list Comment) (G : DiGraph) :
  Forall (fun row => reply_edge all row = None) rows ->
  fold_left (fun G row =>
               match reply_edge all row with
               | Some (author, parent) => add_edge G author parent
               | None => G
               end) rows G
  = G.
Proof.
  induction 1 as [|row rows Hrow _ IH]; simpl; [reflexivity|].
  now rewrite Hrow.
Qed.

(** X20. When no comment of the corpus answers another comment (every
    [parent_id] lacks the ["t1_"] prefix, as for a corpus of top-level
    comments), the reply graph is empty and [get_user_influence] ranks the
    authors by their post and comment scores alone. *)
Theorem influence_without_replies `{Externals}
  (posts : list Post) (comments : list Comment) (limit : nat) :
  Forall (fun c => startswith (comment_parent_id c) "t1_" = false) comments ->
  reply_graph comments = empty_graph
  /\ influence_table posts comments = score_table posts comments
  /\ get_user_influence posts comments limit
     = (scores <- score_table posts comments ;;
        Ok (head limit (sorted_by_score_reverse scores))).
Proof.
  intros Htop.
  assert (Hgraph : reply_graph comments = empty_graph).
  { unfold reply_graph. apply reply_loop_no_edge.
    eapply Forall_impl; [|exact Htop].
    intros row Hrow. apply reply_edge_None. tauto. }
  assert (Htable : influence_table posts comments = score_table posts comments).
  { rewrite influence_table_eq, Hgraph.
    now destruct (score_table posts comments). }
  split; [exact Hgraph|]. split; [exact Htable|].
  now rewrite get_user_influence_eq, Htable.
Qed.

Lemma influence_without_replies_witness :
  reply_graph (firstn 1 sample_comments) = empty_graph
  /\ influence_table sample_posts (firstn 1 sample_comments)
     = score_table sample_posts (firstn 1 sample_comments).
Proof.
  destruct (influence_without_replies sample_posts (firstn 1 sample_comments) 5)
    as [Hgraph [Htable _]].
  - repeat constructor.
  - split; [exact Hgraph | exact Htable].
Defined.

(* ================================================================== *)
(** * Opening the store                                                *)
(* ================================================================== *)

Lemma dict_set_new_lookup {V : Type} (d : dict V) (k : string) (v : V) (k' : string) :
  dict_lookup d k' <> None ->
  ~ In k (keys d) ->
  dict_lookup (dict_set d k v) k' = dict_lookup d k'.
Proof.
  intros Hpresent Hnew. rewrite dict_lookup_set.
  destruct (String.eqb k' k) eqn:Heq; [|reflexivity].
  apply String.eqb_eq in Heq. subst k'.
  exfalso. apply Hnew. now apply dict_lookup_keys.
Qed.

(** X21. [ensure_tables], run each time an [HBaseManager] is built, keeps
    every table that exists with its rows, makes both tables of the prefix
    exist, and changes nothing when run again. *)
Theorem ensure_tables_keeps_data (prefix : string) (conn : Connection) :
  (forall name, dict_lookup conn name <> None ->
                dict_lookup (ensure_tables prefix conn) name = dict_lookup conn name)
  /\ dict_lookup (ensure_tables prefix conn) (prefix ++ "posts") <> None
  /\ dict_lookup (ensure_tables prefix conn) (prefix ++ "comments") <> None
  /\ ensure_tables prefix (ensure_tables prefix conn) = ensure_tables prefix conn.
Proof.
  assert (Hstep : forall (c : Connection) (table : string),
             let c' := if mem table (keys c) then c else dict_set c table [] in
             (forall name, dict_lookup c name <> None ->
                           dict_lookup c' name = dict_lookup c name)
             /\ In table (keys c')).
  { intros c table. cbv zeta. destruct (mem table (keys c)) eqn:Hmem.
    - apply mem_In in Hmem. tauto.
    - apply mem_false in Hmem. split.
      + intros name Hname. now apply dict_set_new_lookup.
      + apply keys_dict_set. now left. }
  unfold ensure_tables. simpl.
  set (c1 := if mem (prefix ++ "posts") (keys conn) then conn
             else dict_set conn (prefix ++ "posts") []).
  set (c2 := if mem (prefix ++ "comments") (keys c1) then c1
             else dict_set c1 (prefix ++ "comments") []).
  destruct (Hstep conn (prefix ++ "posts")%string) as [Hkeep1 Hin1].
  destruct (Hstep c1 (prefix ++ "comments")%string) as [Hkeep2 Hin2].
  fold c1 in Hkeep1, Hin1. fold c2 in Hkeep2, Hin2.
  assert (Hposts : dict_lookup c2 (prefix ++ "posts") <> None).
  { rewrite Hkeep2; now apply dict_lookup_keys. }
  assert (Hcomments : dict_lookup c2 (prefix ++ "comments") <> None)
    by now apply dict_lookup_keys.
  split; [|split; [exact Hposts|]; split; [exact Hcomments|]].
  - intros name Hname. rewrite Hkeep2; [now apply Hkeep1|].
    now rewrite Hkeep1.
  - apply dict_lookup_keys in Hposts, Hcomments.
    change (ensure_tables prefix c2 = c2). clearbody c2.
    unfold ensure_tables. cbn [fold_left].
    do 2 match goal with
         | |- context [if ?present then c2 else _] =>
             let Hmem := fresh "Hmem" in
             destruct present eqn:Hmem;
             [|apply mem_false in Hmem; contradiction]
         end.
    reflexivity.
Qed.

Lemma ensure_tables_keeps_data_witness :
  exists conn,
    sample_store = Some conn
    /\ dict_lookup (ensure_tables "reddit_" conn) "reddit_posts"
       = dict_lookup conn "reddit_posts".
Proof.
  destruct sample_store as [conn|] eqn:Hstore; [|discriminate].
  exists conn. split; [reflexivity|].
  apply (proj1 (ensure_tables_keeps_data "reddit_" conn)).
  vm_compute in Hstore. injection Hstore as <-. discriminate.
Defined.

(* ================================================================== *)
(** * The comment forms                                                *)
(* ================================================================== *)

Lemma insert_sorted_map {A : Type} (before : A -> A -> bool) (f : A -> A)
  (x : A) (l : list A) :
  (forall x y, before (f x) (f y) = before x y) ->
  insert_sorted before (f x) (map f l) = map f (insert_sorted before x l).
Proof.
  intros Hf. induction l as [|y l IH]; simpl; [reflexivity|].
  rewrite Hf. destruct (before x y); simpl; [reflexivity | now rewrite IH].
Qed.

(** Sorting commutes with a change of the rows that keeps their order. *)
Lemma stable_sort_map {A : Type} (before : A -> A -> bool) (f : A -> A)
  (l : list A) :
  (forall x y, before (f x) (f y) = before x y) ->
  stable_sort before (map f l) = map f (stable_sort before l).
Proof.
  intros Hf. unfold stable_sort. induction l as [|x l IH]; simpl; [reflexivity|].
  rewrite IH. now apply insert_sorted_map.
Qed.

(** The entry of key [k] replaced by [v], the others kept. *)
Lemma dict_set_existing {V : Type} (d : dict V) (k : string) (v : V) :
  NoDup (keys d) -> In k (keys d) ->
  dict_set d k v = map (fun e => if String.eqb k (fst e) then (fst e, v) else e) d.
Proof.
  unfold keys. induction d as [|[k0 v0] d IH]; simpl; [tauto|].
  intros Hnodup Hin. inversion Hnodup as [|? ? Hk0 Hd]; subst.
  destruct (String.eqb k k0) eqn:Hk.
  - apply String.eqb_eq in Hk. subst k0. f_equal.
    transitivity (map (fun e : string * V => e) d); [symmetry; apply map_id|].
    apply map_ext_in. intros [k1 v1] Hin1. simpl.
    destruct (String.eqb k k1) eqn:Hk1; [|reflexivity].
    apply String.eqb_eq in Hk1. subst k1.
    exfalso. apply Hk0. apply in_map_iff. now exists (k, v1).
  - apply String.eqb_neq in Hk. f_equal. apply IH; [exact Hd|].
    destruct Hin as [Heq|Hin]; [congruence | exact Hin].
Qed.

(** The scan after a [put] on a stored row: the same rows in the same
    order, the cells of that row apart. *)
Lemma table_scan_put (table : HTable) (key : string) (data : Cells) :
  NoDup (keys table) -> In key (keys table) ->
  table_scan (table_put table key data)
  = map (fun e => if String.eqb key (fst e)
                  then (fst e, put_cells (dict_get table key []) data)
                  else e)
        (table_scan table).
Proof.
  intros Hnodup Hin. unfold table_put, table_scan.
  rewrite dict_set_existing by assumption.
  apply stable_sort_map. intros x y. unfold row_key_le.
  now destruct (String.eqb key (fst x)), (String.eqb key (fst y)).
Qed.

Lemma column_values_ext (col : string) (f g : string * Cells -> Cells)
  (l : list (string * Cells)) :
  (forall e, In e l -> dict_lookup (f e) col = dict_lookup (g e) col) ->
  column_values (map f l) col = column_values (map g l) col.
Proof.
  unfold column_values. induction l as [|e l IH]; simpl; [reflexivity|].
  intros Hl. rewrite (Hl e) by now left. f_equal. apply IH.
  intros e' He'. apply Hl. now right.
Qed.

(** A [put] on a stored row leaves every column it does not write as it
    was, in every row of the frame. *)
Lemma put_keeps_column (columns : list string) (table : HTable) (key : string)
  (data : Cells) (col : string) :
  NoDup (keys table) -> table_complete columns table -> ~ In "row_key" columns ->
  In key (keys table) -> ~ In col (keys data) ->
  column_values (map frame_row (table_scan (table_put table key data))) col
  = column_values (map frame_row (table_scan table)) col.
Proof.
  intros Hnodup Hcomplete Hreserved Hkey Hcol.
  rewrite table_scan_put by assumption. rewrite map_map.
  apply column_values_ext. intros [k cells] Hin. simpl.
  destruct (String.eqb key k) eqn:Hk; [|reflexivity].
  apply String.eqb_eq in Hk. subst k.
  apply (proj1 (table_scan_In _ _)) in Hin.
  rewrite dict_get_lookup, (In_dict_lookup _ _ _ Hnodup Hin). simpl.
  destruct (Hcomplete key cells Hin) as [Hcells Hcolumns].
  unfold frame_row. simpl.
  pose proof (NoDup_keys_put_cells data cells Hcells) as Hnew.
  fold (put_cells [("row_key", key)] (put_cells cells data)).
  fold (put_cells [("row_key", key)] cells).
  rewrite (lookup_put_cells_NoDup (put_cells cells data) [("row_key", key)] col Hnew).
  rewrite (lookup_put_cells_NoDup cells [("row_key", key)] col Hcells).
  now rewrite lookup_put_cells_other by exact Hcol.
Qed.
(** X22. The "Update Comment" form writes the new text to the column
    [comment_data:body], which [store_comment] never writes and no analytics
    reads: the column [comment_data:text] of the comments frame, which the
    sentiment analysis reads, is the same before and after, whatever text is
    entered.  The score of the selected row is rewritten, the number of rows
    and the posts frame stay as they are. *)
Theorem update_comment_keeps_text `{Conversions} (prefix : string)
  (conn : Connection) (update_comment_id new_text : string)
  (new_comment_score : nat) :
  maintained prefix conn ->
  let df := fetch_table_data prefix conn "comments" in
  let conn' := update_comment prefix conn df update_comment_id new_text
                              new_comment_score in
  let df' := fetch_table_data prefix conn' "comments" in
  column_values df' "comment_data:text" = column_values df "comment_data:text"
  /\ List.length df' = List.length df
  /\ fetch_table_data prefix conn' "posts" = fetch_table_data prefix conn "posts"
  /\ forall row_key,
       update_comment_id <> "" ->
       first_row_key df "comment_data:id" update_comment_id = Some row_key ->
       exists new,
         In new df'
         /\ dict_lookup new "row_key" = Some row_key
         /\ dict_lookup new "comment_data:body" = Some new_text
         /\ dict_lookup new "metrics:score" = Some (str_of_nat new_comment_score).
Proof.
  intros Hconn df conn' df'.
  pose proof (maintained_well_stored _ _ Hconn)
    as [posts [comments [Hp [Hc [Hnp [Hnc [Hcp Hcc]]]]]]].
  assert (Hreserved : ~ In "row_key" (tl comment_columns)) by not_row_key.
  assert (Hdf : df = map frame_row (table_scan comments)).
  { subst df. unfold fetch_table_data. now rewrite Hc. }
  set (data := [("comment_data:body", new_text);
                ("metrics:score", str_of_nat new_comment_score)]).
  assert (Hcases :
            (conn' = conn
             /\ (update_comment_id = ""
                 \/ first_row_key df "comment_data:id" update_comment_id = None))
            \/ exists row_key,
                 first_row_key df "comment_data:id" update_comment_id
                 = Some row_key
                 /\ In row_key (keys comments)
                 /\ conn' = dict_set conn (prefix ++ "comments")
                                     (table_put comments row_key data)).
  { subst conn'. unfold update_comment.
    destruct (truthy update_comment_id) eqn:Hid;
      [|apply truthy_false in Hid; tauto].
    destruct (first_row_key df "comment_data:id" update_comment_id)
      as [row_key|] eqn:Hkey; [|tauto].
    right. exists row_key. split; [reflexivity|]. split.
    - rewrite Hdf in Hkey.
      now apply (first_row_key_stored (tl comment_columns)) in Hkey.
    - unfold connection_put. now rewrite Hc. }
  destruct Hcases as [[Hsame Hnone] | [row_key [Hkey [Hstored Hconn']]]].
  - subst df'. rewrite Hsame. fold df.
    split; [reflexivity|]. split; [reflexivity|]. split; [reflexivity|].
    intros row_key Hid Hkey. destruct Hnone; congruence.
  - assert (Hdf' : df' = map frame_row
                           (table_scan (table_put comments row_key data))).
    { subst df'. unfold fetch_table_data.
      now rewrite Hconn', dict_lookup_set, String.eqb_refl. }
    rewrite Hdf, Hdf'. split; [|split; [|split]].
    + apply (put_keeps_column (tl comment_columns)); try assumption.
      simpl. intuition discriminate.
    + rewrite !length_map. unfold table_scan. rewrite !stable_sort_length.
      now apply length_table_put.
    + unfold fetch_table_data. rewrite Hconn', dict_lookup_set.
      rewrite String.eqb_sym, posts_comments_differ. reflexivity.
    + intros row_key' Hid' Hkey'.
      assert (row_key' = row_key) as -> by congruence.
      pose proof (In_dict_get comments row_key [] Hstored) as Hold.
      destruct (Hcc _ _ Hold) as [Hold_cells Hold_columns].
      set (cells := put_cells (dict_get comments row_key []) data).
      assert (Hcells : NoDup (keys cells)) by now apply NoDup_keys_put_cells.
      assert (Hfree : ~ In "row_key" (keys cells)).
      { unfold cells. rewrite keys_put_cells, Hold_columns.
        simpl. intuition discriminate. }
      assert (Hdata : NoDup (keys data))
        by (simpl; repeat constructor; simpl; intuition discriminate).
      destruct (frame_row_lookup row_key cells Hcells Hfree) as [Hrk Hcols].
      exists (frame_row (row_key, cells)). split; [|split; [exact Hrk|split]].
      * apply in_map. apply table_scan_In. unfold table_put.
        fold cells. apply dict_lookup_Some_In.
        now rewrite dict_lookup_set, String.eqb_refl.
      * rewrite Hcols.
        -- apply lookup_put_cells; [exact Hdata | simpl; tauto].
        -- apply keys_put_cells. right. simpl. tauto.
      * rewrite Hcols.
        -- apply lookup_put_cells; [exact Hdata | simpl; tauto].
        -- apply keys_put_cells. right. simpl. tauto.
Qed.

Lemma update_comment_keeps_text_witness :
  exists conn,
    sample_store = Some conn
    /\ column_values
         (fetch_table_data "reddit_"
            (update_comment "reddit_" conn
               (fetch_table_data "reddit_" conn "comments") "a" "bad" 1)
            "comments")
         "comment_data:text"
       = ["good"].
Proof.
  destruct sample_store as [conn|] eqn:Hstore; [|discriminate].
  exists conn. split; [reflexivity|].
  pose proof (sample_store_maintained conn Hstore) as Hconn.
  rewrite (proj1 (update_comment_keeps_text "reddit_" conn "a" "bad" 1 Hconn)).
  vm_compute in Hstore. injection Hstore as <-. reflexivity.
Defined.

(** The frame of a complete table has the columns of the table and
    [row_key], and no other. *)
Lemma frame_lacks_column (columns : list string) (table : HTable) (col : string) :
  table_complete columns table -> ~ In col ("row_key" :: columns) ->
  has_column (map frame_row (table_scan table)) col = false.
Proof.
  intros Hcomplete Hcol. unfold has_column.
  destruct (existsb _ _) eqn:Hsome; [|reflexivity].
  apply existsb_exists in Hsome. destruct Hsome as [row [Hrow Hcell]].
  apply in_map_iff in Hrow. destruct Hrow as [[key cells] [<- Hin]].
  apply (proj1 (table_scan_In _ _)) in Hin.
  destruct (Hcomplete key cells Hin) as [Hcells Hcolumns].
  unfold frame_row in Hcell. simpl in Hcell.
  fold (put_cells [("row_key", key)] cells) in Hcell.
  rewrite (lookup_put_cells_NoDup cells [("row_key", key)] col Hcells) in Hcell.
  destruct (dict_lookup cells col) eqn:Hlookup.
  - exfalso. apply Hcol. right. apply Hcolumns.
    apply dict_lookup_keys. congruence.
  - simpl in Hcell. destruct (String.eqb col "row_key") eqn:Heq; [|discriminate].
    apply String.eqb_eq in Heq. exfalso. apply Hcol. now left.
Qed.

(** X23. The "Delete Comment" form builds the mask of the row to delete from
    the posts frame, [posts_df['comment_data:id']].  No posts frame read
    from a maintained store has that column, so the lookup raises and the
    form leaves every table as it is, whatever comment is selected and
    confirmed. *)
Theorem delete_comment_never_deletes `{Conversions} (prefix : string)
  (shown conn : Connection) (comments_df : list Cells)
  (delete_comment_id : string) (confirm_comment_delete : bool) :
  maintained prefix shown ->
  delete_comment prefix conn (fetch_table_data prefix shown "posts") comments_df
                 delete_comment_id confirm_comment_delete
  = conn.
Proof.
  intros Hshown. apply maintained_well_stored in Hshown.
  destruct Hshown as [posts [comments [Hp [_ [_ [_ [Hcp _]]]]]]].
  unfold delete_comment, fetch_table_data. rewrite Hp.
  rewrite (frame_lacks_column (tl post_columns)) by (exact Hcp || not_row_key).
  now destruct (truthy delete_comment_id && confirm_comment_delete).
Qed.

Lemma delete_comment_never_deletes_witness :
  exists conn,
    sample_store = Some conn
    /\ has_row_key (fetch_table_data "reddit_" conn "comments") "comment_a_post_p1"
    /\ delete_comment "reddit_" conn (fetch_table_data "reddit_" conn "posts")
                      (fetch_table_data "reddit_" conn "comments") "a" true
       = conn.
Proof.
  destruct sample_store as [conn|] eqn:Hstore; [|discriminate].
  exists conn. split; [reflexivity|].
  pose proof (sample_store_maintained conn Hstore) as Hconn.
  split.
  - vm_compute in Hstore. injection Hstore as <-.
    eexists. split; [left; reflexivity | reflexivity].
  - exact (delete_comment_never_deletes "reddit_" conn conn
             (fetch_table_data "reddit_" conn "comments") "a" true Hconn).
Defined.

(* ================================================================== *)
(** * Stored metrics and [float]                                       *)
(* ================================================================== *)

Lemma int_metrics_put (table : HTable) (key : string) (data : Cells) :
  int_metrics table -> NoDup (keys data) ->
  (forall col v, In col converted_columns -> dict_lookup data col = Some v ->
                 int_string v) ->
  int_metrics (table_put table key data).
Proof.
  intros Htable Hnodup Hdata key' cells col v Hin Hcol Hv.
  unfold table_put in Hin. apply In_dict_set in Hin.
  destruct Hin as [[-> ->]|Hin]; [|now apply (Htable key' cells col)].
  rewrite lookup_put_cells_NoDup in Hv by exact Hnodup.
  destruct (dict_lookup data col) as [w|] eqn:Hw.
  - injection Hv as <-. now apply (Hdata col).
  - rewrite dict_get_lookup in Hv.
    destruct (dict_lookup table key) as [old|] eqn:Hold; simpl in Hv;
      [|discriminate].
    apply dict_lookup_Some_In in Hold. now apply (Htable key old col).
Qed.

Lemma int_metrics_delete (table : HTable) (row_key : string) :
  int_metrics table -> int_metrics (table_delete table row_key).
Proof.
  intros Htable key cells col v Hin. unfold table_delete in Hin.
  apply filter_In in Hin. apply (Htable key). tauto.
Qed.

Lemma int_metrics_clear (row_keys : list string) : forall table,
  int_metrics table -> int_metrics (fold_left table_delete row_keys table).
Proof.
  induction row_keys as [|k row_keys IH]; simpl; intros table Htable;
    [exact Htable|].
  apply IH. now apply int_metrics_delete.
Qed.

Lemma post_cells_int `{Conversions} (post : PostDict) (col v : string) :
  In col converted_columns -> dict_lookup (post_cells post) col = Some v ->
  int_string v.
Proof.
  intros [<-|[<-|[]]]; simpl; intros [= <-]; left; eauto.
Qed.

Lemma comment_cells_int `{Conversions} (comment : CommentDict) (post_id : string)
  (col v : string) :
  In col converted_columns ->
  dict_lookup (comment_cells comment post_id) col = Some v ->
  int_string v.
Proof.
  intros [<-|[<-|[]]]; simpl; intros [= <-]; left; eauto.
Qed.

(** Every metric the writers and the post forms store was written by [str]
    from an [int]. *)
Lemma maintained_int_metrics `{Conversions} (prefix : string) (conn : Connection) :
  maintained prefix conn ->
  forall name table, dict_lookup conn name = Some table -> int_metrics table.
Proof.
  assert (Hset : forall (c : Connection) target table',
             (forall name table, dict_lookup c name = Some table ->
                                 int_metrics table) ->
             int_metrics table' ->
             forall name table,
               dict_lookup (dict_set c target table') name = Some table ->
               int_metrics table).
  { intros c target table' Hc Htable' name table. rewrite dict_lookup_set.
    destruct (String.eqb name target); [intros [= <-]; exact Htable' | apply Hc]. }
  induction 1 as [|conn conn' post _ IH Hstore
                  |conn conn' comment post_id _ IH Hstore
                  |conn update_id new_title new_score _ IH
                  |conn posts_df delete_id confirm _ IH
                  |conn _ IH].
  - intros name table. unfold ensure_tables. simpl.
    rewrite posts_comments_differ. simpl.
    destruct (String.eqb name (prefix ++ "posts"));
      [|destruct (String.eqb name (prefix ++ "comments"))];
      intros [= <-]; intros key cells col v [].
  - unfold store_post, connection_put in Hstore.
    destruct (dict_lookup conn (prefix ++ "posts")) as [posts|] eqn:Hp;
      [|discriminate].
    injection Hstore as <-. apply Hset; [exact IH|].
    apply int_metrics_put;
      [now apply (IH (prefix ++ "posts")%string) | apply NoDup_post_cells
       | apply post_cells_int].
  - unfold store_comment, connection_put in Hstore.
    destruct (dict_lookup conn (prefix ++ "comments")) as [comments|] eqn:Hc;
      [|discriminate].
    injection Hstore as <-. apply Hset; [exact IH|].
    apply int_metrics_put;
      [now apply (IH (prefix ++ "comments")%string) | apply NoDup_comment_cells
       | apply comment_cells_int].
  - unfold update_post. destruct (truthy update_id); [|exact IH].
    destruct (first_row_key _ _ _) as [row_key|]; [|exact IH].
    unfold connection_put.
    destruct (dict_lookup conn (prefix ++ "posts")) as [posts|] eqn:Hp;
      [|exact IH].
    simpl. apply Hset; [exact IH|].
    apply int_metrics_put; [now apply (IH (prefix ++ "posts")%string) | |].
    + simpl. repeat constructor; simpl; intuition discriminate.
    + intros col v [<-|[<-|[]]]; simpl; intros [= <-]. right. eauto.
  - unfold delete_post. destruct (truthy delete_id && confirm); [|exact IH].
    destruct (first_row_key _ _ _) as [row_key|]; [|exact IH].
    unfold connection_delete.
    destruct (dict_lookup conn (prefix ++ "posts")) as [posts|] eqn:Hp;
      [|exact IH].
    simpl. apply Hset; [exact IH|].
    apply int_metrics_delete. now apply (IH (prefix ++ "posts")%string).
  - unfold delete_all_data, clear_table.
    destruct (dict_lookup conn (prefix ++ "posts")) as [posts|] eqn:Hp;
      [|exact IH].
    assert (Hposts : forall name table,
               dict_lookup
                 (dict_set conn (prefix ++ "posts")
                    (fold_left table_delete (map fst (table_scan posts)) posts))
                 name = Some table ->
               int_metrics table).
    { apply Hset; [exact IH|]. apply int_metrics_clear.
      now apply (IH (prefix ++ "posts")%string). }
    destruct (dict_lookup (dict_set conn (prefix ++ "posts") _)
                (prefix ++ "comments")) as [comments|] eqn:Hc;
      [|exact Hposts].
    simpl. apply Hset; [exact Hposts|]. apply int_metrics_clear.
    now apply (Hposts (prefix ++ "comments")%string).
Qed.

(** The metrics of the rows of a frame are those of the table. *)
Lemma frame_int_metrics (columns : list string) (table : HTable)
  (row : Cells) (col v : string) :
  table_complete columns table -> ~ In "row_key" columns ->
  int_metrics table ->
  In row (map frame_row (table_scan table)) ->
  In col converted_columns -> dict_lookup row col = Some v ->
  int_string v.
Proof.
  intros Hcomplete Hreserved Htable Hrow Hcol Hv.
  apply in_map_iff in Hrow. destruct Hrow as [[key cells] [<- Hin]].
  apply (proj1 (table_scan_In _ _)) in Hin.
  destruct (Hcomplete key cells Hin) as [Hcells Hcolumns].
  rewrite frame_row_lookup_other in Hv.
  - now apply (Htable key cells col).
  - exact Hcells.
  - now rewrite Hcolumns.
  - destruct Hcol as [<-|[<-|[]]]; discriminate.
Qed.

Lemma map_Some_exists {A B : Type} (f : A -> option B) (l : list A) :
  Forall (fun x => f x <> None) l -> exists l', map f l = map Some l'.
Proof.
  induction 1 as [|x l Hx _ [l' IH]]; [now exists []|].
  destruct (f x) as [y|] eqn:Hy; [|congruence].
  exists (y :: l'). simpl. now rewrite Hy, IH.
Qed.

Lemma map_Some_In {A B : Type} (f : A -> option B) (l : list A) : forall l' y,
  map f l = map Some l' -> In y l' -> exists x, In x l /\ f x = Some y.
Proof.
  induction l as [|x l IH]; intros [|y' l'] y Heq Hy; simpl in *;
    try discriminate; [contradiction|].
  injection Heq as Hx Hrest. destruct Hy as [<-|Hy]; [eauto|].
  destruct (IH l' y Hrest Hy) as [x' [Hin Hfx]]. eauto.
Qed.

Lemma post_of_row_metrics (row : Cells) (p : Post) :
  post_of_row row = Some p ->
  dict_lookup row "metrics:score" = Some (post_score p)
  /\ dict_lookup row "metrics:num_comments" = Some (post_num_comments p).
Proof.
  unfold post_of_row.
  destruct (dict_lookup row "post_data:id"); [|discriminate].
  destruct (dict_lookup row "post_data:title"); [|discriminate].
  destruct (dict_lookup row "post_data:subreddit"); [|discriminate].
  destruct (dict_lookup row "post_data:author"); [|discriminate].
  destruct (dict_lookup row "metrics:score"); [|discriminate].
  destruct (dict_lookup row "metrics:num_comments"); [|discriminate].
  intros [= <-]. now split.
Qed.

Lemma comment_of_row_score (row : Cells) (c : Comment) :
  comment_of_row row = Some c ->
  dict_lookup row "metrics:score" = Some (comment_score c).
Proof.
  unfold comment_of_row.
  destruct (dict_lookup row "comment_data:id"); [|discriminate].
  destruct (dict_lookup row "comment_data:text"); [|discriminate].
  destruct (dict_lookup row "comment_data:author"); [|discriminate].
  destruct (dict_lookup row "comment_data:parent_id"); [|discriminate].
  destruct (dict_lookup row "metrics:score"); [|discriminate].
  now intros [= <-].
Qed.

Lemma astype_float_returns `{Externals} (column : list string) :
  Forall parses column -> exists qs, astype_float column = Ok qs.
Proof.
  unfold parses. induction 1 as [|s column Hs _ [qs IH]]; simpl; [eauto|].
  destruct (py_float s) as [q|]; [|congruence].
  rewrite IH. simpl. eauto.
Qed.

(** X24. What the writers store, the analytics can convert: when [float]
    accepts every string [str] gives for an [int], both frames of a
    maintained store read back as records whose score and comment-count
    cells all parse, so [get_engagement_metrics] and [get_user_influence]
    return on them and never raise [ValueError]. *)
Theorem stored_scores_parse `{Externals} `{Conversions} (conn : Connection)
  (limit : nat) :
  (forall s, int_string s -> parses s) ->
  maintained "reddit_" conn ->
  exists posts_df comments_df posts comments,
    to_dataframe conn "posts" = Some posts_df
    /\ to_dataframe conn "comments" = Some comments_df
    /\ map post_of_row posts_df = map Some posts
    /\ map comment_of_row comments_df = map Some comments
    /\ scores_parse posts comments
    /\ (exists metrics, get_engagement_metrics posts = Ok metrics)
    /\ (exists ranking, get_user_influence posts comments limit = Ok ranking).
Proof.
  intros Hfloat Hconn.
  pose proof (maintained_int_metrics _ _ Hconn) as Hint.
  apply maintained_well_stored in Hconn.
  destruct Hconn as [posts_t [comments_t [Hp [Hc [Hnp [Hnc [Hcp Hcc]]]]]]].
  assert (Hrp : ~ In "row_key" (tl post_columns)) by not_row_key.
  assert (Hrc : ~ In "row_key" (tl comment_columns)) by not_row_key.
  set (posts_df := map frame_row (table_scan posts_t)).
  set (comments_df := map frame_row (table_scan comments_t)).
  destruct (map_Some_exists post_of_row posts_df) as [posts Hposts].
  { apply complete_post_of_row. now apply (frame_complete (tl post_columns)). }
  destruct (map_Some_exists comment_of_row comments_df) as [comments Hcomments].
  { apply complete_comment_of_row.
    now apply (frame_complete (tl comment_columns)). }
  assert (Hpost_cells : forall p, In p posts ->
             parses (post_score p) /\ parses (post_num_comments p)).
  { intros p Hin.
    destruct (map_Some_In _ _ _ _ Hposts Hin) as [row [Hrow Hp']].
    apply post_of_row_metrics in Hp'. destruct Hp' as [Hscore Hcount].
    split; apply Hfloat.
    - apply (frame_int_metrics (tl post_columns) posts_t row "metrics:score");
        try assumption; [now apply (Hint _ _ Hp) | simpl; tauto].
    - apply (frame_int_metrics (tl post_columns) posts_t row
               "metrics:num_comments");
        try assumption; [now apply (Hint _ _ Hp) | simpl; tauto]. }
  assert (Hcomment_cells : forall c, In c comments -> parses (comment_score c)).
  { intros c Hin.
    destruct (map_Some_In _ _ _ _ Hcomments Hin) as [row [Hrow Hc']].
    apply comment_of_row_score in Hc'. apply Hfloat.
    apply (frame_int_metrics (tl comment_columns) comments_t row "metrics:score");
      try assumption; [now apply (Hint _ _ Hc) | simpl; tauto]. }
  assert (Hparse : scores_parse posts comments).
  { split; apply Forall_forall; [intros p Hin; now apply Hpost_cells|].
    exact Hcomment_cells. }
  exists posts_df, comments_df, posts, comments.
  unfold to_dataframe. rewrite Hp, Hc.
  repeat split; try assumption; try apply Hparse.
  - unfold get_engagement_metrics. destruct (empty posts); [eauto|].
    destruct (astype_float_returns (map post_score posts)) as [scores ->].
    { apply Forall_map, Forall_forall. intros p Hin. now apply Hpost_cells. }
    destruct (astype_float_returns (map post_num_comments posts)) as [counts ->].
    { apply Forall_map, Forall_forall. intros p Hin. now apply Hpost_cells. }
    simpl. eauto.
  - now apply get_user_influence_returns.
Qed.

Lemma parse_digits_uint (d : Decimal.uint) : forall acc,
  parse_digits (NilEmpty.string_of_uint d) acc <> None.
Proof.
  induction d as [|d IH|d IH|d IH|d IH|d IH|d IH|d IH|d IH|d IH|d IH];
    intros acc; simpl; [discriminate | apply IH ..].
Qed.

Lemma parse_int_literal_uint (d : Decimal.uint) :
  parse_int_literal (NilZero.string_of_uint d) <> None
  /\ parse_int_literal (String "-" (NilZero.string_of_uint d)) <> None.
Proof.
  destruct d; simpl; split; try discriminate;
    match goal with
    | |- option_map _ (parse_digits ?s ?acc) <> None =>
        pose proof (parse_digits_uint
                      ltac:(match goal with d : Decimal.uint |- _ => exact d end)
                      acc) as Hd;
        destruct (parse_digits s acc); [discriminate | congruence]
    end.
Qed.

(** The reference [float] reads every [str(int)]. *)
Lemma reference_float_reads_int (s : string) :
  int_string s -> parses (H := reference_routines) s.
Proof.
  unfold parses. simpl.
  intros [[z ->]|[n ->]].
  - unfold str_of_Z. destruct (Z.to_int z) as [d|d]; simpl;
      apply parse_int_literal_uint.
  - unfold str_of_nat. apply parse_int_literal_uint.
Qed.

Lemma stored_scores_parse_witness :
  exists conn posts comments ranking,
    sample_store = Some conn
    /\ option_map (map post_of_row) (to_dataframe conn "posts")
       = Some (map Some posts)
    /\ option_map (map comment_of_row) (to_dataframe conn "comments")
       = Some (map Some comments)
    /\ get_user_influence posts comments 5 = Ok ranking.
Proof.
  destruct sample_store as [conn|] eqn:Hstore; [|discriminate].
  pose proof (sample_store_maintained conn Hstore) as Hconn.
  destruct (stored_scores_parse (H := reference_routines)
              (H0 := reference_conversions) conn 5
              reference_float_reads_int Hconn)
    as [posts_df [comments_df [posts [comments
         [Hp [Hc [Hposts [Hcomments [_ [_ [ranking Hranking]]]]]]]]]]].
  exists conn, posts, comments, ranking.
  rewrite Hp, Hc. simpl. rewrite Hposts, Hcomments. now repeat split.
Defined.

(* ================================================================== *)
(** * Deleting a post                                                  *)
(* ================================================================== *)

Lemma In_table_delete (table : HTable) (row_key key : string) (cells : Cells) :
  In (key, cells) (table_delete table row_key)
  <-> In (key, cells) table /\ key <> row_key.
Proof.
  unfold table_delete. rewrite filter_In. simpl.
  destruct (String.eqb row_key key) eqn:Heq; simpl.
  - apply String.eqb_eq in Heq. intuition congruence.
  - apply String.eqb_neq in Heq. intuition congruence.
Qed.

Lemma filter_every {A : Type} (f : A -> bool) (l : list A) :
  (forall x, In x l -> f x = true) -> filter f l = l.
Proof.
  induction l as [|x l IH]; simpl; intros Hl; [reflexivity|].
  rewrite (Hl x) by now left. f_equal. apply IH. intros y Hy. apply Hl. now right.
Qed.

Lemma length_table_delete (table : HTable) (row_key : string) :
  NoDup (keys table) -> In row_key (keys table) ->
  S (List.length (table_delete table row_key)) = List.length table.
Proof.
  unfold keys, table_delete. induction table as [|[k cells] table IH]; simpl;
    [tauto|].
  intros Hnodup Hin. inversion Hnodup as [|? ? Hk Hrest]; subst.
  destruct (String.eqb row_key k) eqn:Heq; simpl.
  - apply String.eqb_eq in Heq. subst k. f_equal.
    rewrite filter_every; [reflexivity|].
    intros [k' cells'] Hin'. simpl.
    destruct (String.eqb row_key k') eqn:Heq'; [|reflexivity].
    apply String.eqb_eq in Heq'. subst k'.
    exfalso. apply Hk. apply in_map_iff. now exists (row_key, cells').
  - apply String.eqb_neq in Heq. f_equal. apply IH; [exact Hrest|].
    destruct Hin as [Hin|Hin]; [congruence | exact Hin].
Qed.

(** X25. The "Delete Post" form, given the current frame, the id of a stored
    post and the confirmation, removes the row of that post and no other
    row, and leaves the comments table as it is: the comments stored for the
    post stay in the store.  Without confirmation, with an empty id or with
    an id the frame does not hold, the store is left unchanged. *)
Theorem delete_post_effect `{Conversions} (prefix : string) (conn : Connection)
  (delete_id : string) (confirm_delete : bool) :
  maintained prefix conn ->
  let df := fetch_table_data prefix conn "posts" in
  let conn' := delete_post prefix conn df delete_id confirm_delete in
  let df' := fetch_table_data prefix conn' "posts" in
  (delete_id = "" \/ confirm_delete = false
   \/ first_row_key df "post_data:id" delete_id = None ->
   conn' = conn)
  /\ forall row_key,
       delete_id <> "" -> confirm_delete = true ->
       first_row_key df "post_data:id" delete_id = Some row_key ->
       has_row_key df row_key
       /\ ~ has_row_key df' row_key
       /\ S (List.length df') = List.length df
       /\ (forall row, In row df' <->
                       In row df /\ dict_lookup row "row_key" <> Some row_key)
       /\ fetch_table_data prefix conn' "comments"
          = fetch_table_data prefix conn "comments".
Proof.
  intros Hconn df conn' df'. split.
  - subst conn'. unfold delete_post.
    intros [-> | [-> | Hnone]]; [reflexivity | now rewrite andb_false_r|].
    rewrite Hnone. now destruct (truthy delete_id && confirm_delete).
  - intros row_key Hid -> Hkey.
    pose proof (maintained_well_stored _ _ Hconn)
      as [posts [comments [Hp [Hc [Hnp [Hnc [Hcp Hcc]]]]]]].
    assert (Hreserved : ~ In "row_key" (tl post_columns)) by not_row_key.
    assert (Hdf : df = map frame_row (table_scan posts)).
    { subst df. unfold fetch_table_data. now rewrite Hp. }
    assert (Hstored : In row_key (keys posts)).
    { rewrite Hdf in Hkey.
      now apply (first_row_key_stored (tl post_columns)) in Hkey. }
    assert (Hconn'_eq : conn' = dict_set conn (prefix ++ "posts")
                                  (table_delete posts row_key)).
    { subst conn'. unfold delete_post.
      apply truthy_true in Hid. rewrite Hid, Hkey. simpl.
      unfold connection_delete. now rewrite Hp. }
    assert (Hdf' : df' = map frame_row (table_scan (table_delete posts row_key))).
    { subst df'. unfold fetch_table_data.
      now rewrite Hconn'_eq, dict_lookup_set, String.eqb_refl. }
    pose proof (NoDup_keys_table_delete posts row_key Hnp) as Hnp'.
    pose proof (table_complete_delete _ posts row_key Hcp) as Hcp'.
    assert (Hkey_of : forall key cells,
               In (key, cells) posts ->
               dict_lookup (frame_row (key, cells)) "row_key" = Some key).
    { intros key cells Hin. destruct (Hcp key cells Hin) as [Hcells Hcolumns].
      apply frame_row_lookup; [exact Hcells | now rewrite Hcolumns]. }
    rewrite Hdf, Hdf'. split; [|split; [|split; [|split]]].
    + now apply (frame_has_row_key (tl post_columns)).
    + rewrite (frame_has_row_key (tl post_columns)) by assumption.
      unfold keys. rewrite in_map_iff. intros [[key cells] [Hfst Hin]].
      simpl in Hfst. subst key. apply In_table_delete in Hin. tauto.
    + rewrite !length_map. unfold table_scan. rewrite !stable_sort_length.
      now apply length_table_delete.
    + intros row. rewrite !in_map_iff. split.
      * intros [[key cells] [<- Hin]].
        apply (proj1 (table_scan_In _ _)) in Hin. apply In_table_delete in Hin.
        destruct Hin as [Hin Hother]. split.
        -- exists (key, cells). split; [reflexivity | now apply table_scan_In].
        -- rewrite (Hkey_of key cells Hin). congruence.
      * intros [[[key cells] [<- Hin]] Hother].
        apply (proj1 (table_scan_In _ _)) in Hin.
        exists (key, cells). split; [reflexivity|].
        apply table_scan_In, In_table_delete. split; [exact Hin|].
        intros ->. apply Hother. now apply Hkey_of.
    + unfold fetch_table_data. rewrite Hconn'_eq, dict_lookup_set.
      now rewrite posts_comments_differ.
Qed.

Lemma delete_post_effect_witness :
  exists conn,
    sample_store = Some conn
    /\ has_row_key (fetch_table_data "reddit_" conn "comments") "comment_a_post_p1"
    /\ fetch_table_data "reddit_"
         (delete_post "reddit_" conn (fetch_table_data "reddit_" conn "posts")
                      "p1" true)
         "comments"
       = fetch_table_data "reddit_" conn "comments".
Proof.
  destruct sample_store as [conn|] eqn:Hstore; [|discriminate].
  exists conn. split; [reflexivity|].
  pose proof (sample_store_maintained conn Hstore) as Hconn.
  split.
  - vm_compute in Hstore. injection Hstore as <-.
    eexists. split; [left; reflexivity | reflexivity].
  - apply (proj2 (delete_post_effect "reddit_" conn "p1" true Hconn) "post_p1");
      [discriminate | reflexivity |].
    vm_compute in Hstore. injection Hstore as <-. reflexivity.
Defined.
